(** * Verification of the call-bridge and conversation state machine

    Shallow embedding of
    - [app/services/rag_service.py] (class [RAGService]): the scripted
      identity-verification state machine;
    - [app/routers/inbound_call.py], [app/routers/multi_language_elevanlabs.py]
      and [app/routers/language_switch.py]: the three pumps that relay
      audio and control events between the telephony leg and the agent
      service.

    Python [str] values are modelled as lists of [ascii] characters, so
    the development covers ASCII text.  Library calls whose outcome the
    code only consumes (JSON decoding, base64, ISO date parsing) are
    represented by their outcome. *)

From Stdlib Require Import Ascii String List Arith Bool Lia DecimalString.
From stdpp Require Import base option list strings gmap.
Import ListNotations.

Set Default Proof Using "Type".

(** ** Python string primitives *)

Module Text.

Definition text := list ascii.

(** A literal of the source. *)
Definition lit (s : string) : text := list_ascii_of_string s.

(** [a == b] on strings. *)
Definition eqb (a b : text) : bool := bool_decide (a = b).

(** [c.isdigit()] on ASCII. *)
Definition isdigit (c : ascii) : bool :=
  (48 <=? nat_of_ascii c) && (nat_of_ascii c <=? 57).

Definition is_upper (c : ascii) : bool :=
  (65 <=? nat_of_ascii c) && (nat_of_ascii c <=? 90).

Definition is_lower (c : ascii) : bool :=
  (97 <=? nat_of_ascii c) && (nat_of_ascii c <=? 122).

(** A character that is neither an ASCII letter nor a digit: it ends a
    spoken word. *)
Definition separator (c : ascii) : bool :=
  negb (is_upper c) && negb (is_lower c) && negb (isdigit c).

Definition lower_char (c : ascii) : ascii :=
  if is_upper c then ascii_of_nat (nat_of_ascii c + 32) else c.

(** [s.lower()] *)
Definition lower (s : text) : text := map lower_char s.

(** [c.isspace()] on ASCII: tab, newline, vertical tab, form feed,
    carriage return, the four separators 0x1c-0x1f, and space. *)
Definition isspace (c : ascii) : bool :=
  let n := nat_of_ascii c in
  ((9 <=? n) && (n <=? 13)) || ((28 <=? n) && (n <=? 31)) || (n =? 32).

Fixpoint lstrip (s : text) : text :=
  match s with
  | c :: s' => if isspace c then lstrip s' else s
  | [] => []
  end.

(** [s.strip()] *)
Definition strip (s : text) : text := rev (lstrip (rev (lstrip s))).

(** [s.startswith(w)] *)
Fixpoint startswith (w s : text) : bool :=
  match w, s with
  | [], _ => true
  | a :: w', b :: s' => bool_decide (a = b) && startswith w' s'
  | _ :: _, [] => false
  end.

(** [w in s]: [w] occurs as a contiguous substring of [s]. *)
Fixpoint contains (w s : text) : bool :=
  startswith w s ||
  match s with
  | [] => false
  | _ :: s' => contains w s'
  end.

(** [s.replace(old, new)] for a non-empty [old]: the leftmost
    occurrence is replaced, the scan resumes after it.  [skip] counts the
    characters of a match still to be consumed. *)
Fixpoint replace_from (old new : text) (skip : nat) (s : text) : text :=
  match s with
  | [] => []
  | c :: s' =>
      match skip with
      | S k => replace_from old new k s'
      | O =>
          if startswith old s
          then new ++ replace_from old new (Nat.pred (length old)) s'
          else c :: replace_from old new 0 s'
      end
  end.

Definition replace (old new s : text) : text := replace_from old new 0 s.

(** [for word, num in table: s = s.replace(word, num)] *)
Definition replace_all (table : list (text * text)) (s : text) : text :=
  fold_left (fun acc wn => replace (fst wn) (snd wn) acc) table s.

(** [''.join(c for c in s if c.isdigit())] *)
Definition digits (s : text) : text := List.filter isdigit s.

(** [any(word in s for word in words)] *)
Definition any_in (words : list text) (s : text) : bool :=
  existsb (fun w => contains w s) words.

(** [s.split()[0]] when it exists: the first whitespace-delimited word. *)
Fixpoint take_word (s : text) : text :=
  match s with
  | c :: s' => if isspace c then [] else c :: take_word s'
  | [] => []
  end.

Definition first_word (s : text) : option text :=
  match lstrip s with
  | [] => None
  | w => Some (take_word w)
  end.

(** Two decimal digits of [n mod 100], as [strftime] pads [%m], [%d], [%y]. *)
Definition digit_char (n : nat) : ascii := ascii_of_nat (48 + n mod 10).

Definition pad2 (n : nat) : text :=
  [digit_char (n / 10); digit_char n].

(** Four decimal digits, as [%Y] prints a year from 1000 to 9999. *)
Definition pad4 (n : nat) : text :=
  [digit_char (n / 1000); digit_char (n / 100); digit_char (n / 10); digit_char n].

End Text.

Import Text.

(** ** The conversation state machine: [app/services/rag_service.py] *)

Module RagService.

(** The values the ["stage"] key takes.  [NoRecord] and [Error] only
    occur in returned results, never in a stored session. *)
Inductive stage :=
| InitialGreeting | ConfirmIdentity | VerifyDob | VerifyAccount
| VerifyAddress | VerificationComplete | PaymentDiscussion | Transfer
| NoRecord | Error.

#[global] Instance stage_eq_dec : EqDecision stage.
Proof. solve_decision. Defined.

(** A [datetime.date]. *)
Record date := { year : nat; month : nat; day : nat }.

(** The ["date_of_birth"] column: an ISO string or a date object. *)
Inductive dob_value :=
| DobStr (s : text)
| DobDate (d : date).

(** A borrower row; [None] is a missing key. *)
Record borrower := {
  name : option text;
  date_of_birth : option dob_value;
  account_number_last_four : option text;
  property_address : option text;
  payment_status : option text;
  hardship_eligible : bool
}.

(** Outcome of [db.get_borrower_by_phone]. *)
Inductive lookup :=
| Found (b : borrower)
| Absent
| Failed.

(** The per-caller session dictionary of [_get_session]. *)
Record session := {
  sess_stage : stage;
  attempts : nat;
  verified_dob : bool;
  verified_account : bool;
  verified_address : bool;
  conversation_history : list (text * text);
  partial_dob : text;
  name_confirmed : bool
}.

Definition set_stage (st : stage) (s : session) : session :=
  {| sess_stage := st; attempts := attempts s; verified_dob := verified_dob s;
     verified_account := verified_account s; verified_address := verified_address s;
     conversation_history := conversation_history s; partial_dob := partial_dob s;
     name_confirmed := name_confirmed s |}.

Definition set_attempts (n : nat) (s : session) : session :=
  {| sess_stage := sess_stage s; attempts := n; verified_dob := verified_dob s;
     verified_account := verified_account s; verified_address := verified_address s;
     conversation_history := conversation_history s; partial_dob := partial_dob s;
     name_confirmed := name_confirmed s |}.

Definition set_verified_dob (v : bool) (s : session) : session :=
  {| sess_stage := sess_stage s; attempts := attempts s; verified_dob := v;
     verified_account := verified_account s; verified_address := verified_address s;
     conversation_history := conversation_history s; partial_dob := partial_dob s;
     name_confirmed := name_confirmed s |}.

Definition set_verified_account (v : bool) (s : session) : session :=
  {| sess_stage := sess_stage s; attempts := attempts s; verified_dob := verified_dob s;
     verified_account := v; verified_address := verified_address s;
     conversation_history := conversation_history s; partial_dob := partial_dob s;
     name_confirmed := name_confirmed s |}.

Definition set_verified_address (v : bool) (s : session) : session :=
  {| sess_stage := sess_stage s; attempts := attempts s; verified_dob := verified_dob s;
     verified_account := verified_account s; verified_address := v;
     conversation_history := conversation_history s; partial_dob := partial_dob s;
     name_confirmed := name_confirmed s |}.

Definition set_history (h : list (text * text)) (s : session) : session :=
  {| sess_stage := sess_stage s; attempts := attempts s; verified_dob := verified_dob s;
     verified_account := verified_account s; verified_address := verified_address s;
     conversation_history := h; partial_dob := partial_dob s;
     name_confirmed := name_confirmed s |}.

Definition set_partial_dob (p : text) (s : session) : session :=
  {| sess_stage := sess_stage s; attempts := attempts s; verified_dob := verified_dob s;
     verified_account := verified_account s; verified_address := verified_address s;
     conversation_history := conversation_history s; partial_dob := p;
     name_confirmed := name_confirmed s |}.

Definition set_name_confirmed (v : bool) (s : session) : session :=
  {| sess_stage := sess_stage s; attempts := attempts s; verified_dob := verified_dob s;
     verified_account := verified_account s; verified_address := verified_address s;
     conversation_history := conversation_history s; partial_dob := partial_dob s;
     name_confirmed := v |}.

(** The dictionary [_get_session] stores for an unknown caller. *)
Definition new_session : session :=
  {| sess_stage := InitialGreeting; attempts := 0; verified_dob := false;
     verified_account := false; verified_address := false;
     conversation_history := []; partial_dob := []; name_confirmed := false |}.

(** The ["response"] texts.  Each constructor is one template of the
    source; [render] gives its wording. *)
Inductive response :=
| RespEmpty
| RespNoRecord
| RespTechnical
| RespRepeat
| RespGreeting (who : text)
| RespAskDob
| RespWrongPerson
| RespIdentityTransfer
| RespIdentityRetry (who : text)
| RespAskAccount
| RespDobTransfer
| RespDobMismatch (attempt : nat)
| RespDobContinue
| RespAskAddress
| RespAccountTransfer
| RespAccountRetry
| RespAddressTransfer
| RespAddressRetry
| RespSummary (first_name : text)
| RespPaymentReceived
| RespPaymentNotFound
| RespPaymentMethods
| RespHardshipEligible
| RespHardshipReview
| RespAccountQuestions
| RespTransferRequested
| RespCallBack
| RespUnclear.

(** [str(n)] for a counter. *)
Definition decimal (n : nat) : text :=
  lit (NilEmpty.string_of_uint (Nat.to_uint n)).

(** The wording of each template.  The summary interpolates a formatted
    amount and date, which are left to the formatting library. *)
Definition render (r : response) : option text :=
  match r with
  | RespEmpty => Some []
  | RespNoRecord =>
      Some (lit "I'm sorry, I couldn't locate your account in our system. Let me connect you to a representative who can assist you. Please hold.")
  | RespTechnical =>
      Some (lit "I'm experiencing technical difficulties. Let me connect you to a representative who can help.")
  | RespRepeat =>
      Some (lit "I'm sorry, I didn't catch that. Could you please repeat?")
  | RespGreeting who =>
      Some (lit "Hi, this is Avery calling from Essex Mortgage on a recorded line. May I please speak with "
            ++ who ++ lit "?")
  | RespAskDob =>
      Some (lit "Thank you for confirming. For security purposes, I need to verify a few details. Could you please provide your full date of birth?")
  | RespWrongPerson =>
      Some (lit "I apologize for the confusion. Let me connect you to a representative who can assist you properly. Please hold.")
  | RespIdentityTransfer =>
      Some (lit "I'm having difficulty confirming your identity. Let me transfer you to a representative. Please hold.")
  | RespIdentityRetry who =>
      Some (lit "I'm sorry, I didn't catch that. Am I speaking with " ++ who
            ++ lit "? Please say yes or no.")
  | RespAskAccount =>
      Some (lit "Thank you. Now, could you please tell me the last four digits of your bank account number on file?")
  | RespDobTransfer =>
      Some (lit "I'm sorry, I couldn't verify your date of birth after three attempts. For your security, I'll connect you to a representative who can assist you. Please hold.")
  | RespDobMismatch attempt =>
      Some (lit "That doesn't match our records. This is attempt " ++ decimal attempt
            ++ lit " of 3. Please provide your complete date of birth, including month, day, and year.")
  | RespDobContinue =>
      Some (lit "I've got that. Please continue with the rest of your date of birth.")
  | RespAskAddress =>
      Some (lit "Perfect. Lastly, can you confirm the street number or first word of your property address on file?")
  | RespAccountTransfer =>
      Some (lit "I'm sorry, I couldn't verify your account number. Let me connect you to a representative for further assistance. Please hold.")
  | RespAccountRetry =>
      Some (lit "I didn't catch that correctly. Could you please repeat the last four digits of your bank account number?")
  | RespAddressTransfer =>
      Some (lit "I'm sorry, I couldn't verify your address. For your security, I'll connect you to a representative. Please hold.")
  | RespAddressRetry =>
      Some (lit "That doesn't match our records. Could you please confirm the street number or first word of your property address?")
  | RespSummary _ => None
  | RespPaymentReceived =>
      Some (lit "Thank you for confirming. Our records show your payment has been received and processed. Would you like me to send you a confirmation email?")
  | RespPaymentNotFound =>
      Some (lit "I see. Our current records don't show a recent payment, but it may still be processing. Let me connect you to a payment specialist who can verify this for you immediately. Please hold.")
  | RespPaymentMethods =>
      Some (lit "Excellent. I can help you with that. We accept payment by bank draft, debit card, or credit card. Which payment method would you prefer today?")
  | RespHardshipEligible =>
      Some (lit "I understand, and I'm here to help. Based on your account, you may qualify for one of our assistance programs. Let me connect you with a hardship specialist who can discuss your options. Please hold.")
  | RespHardshipReview =>
      Some (lit "I understand your situation. Let me connect you with a specialist who can review your account and discuss what options might be available to you. Please hold.")
  | RespAccountQuestions =>
      Some (lit "I'd be happy to help answer your questions. What specifically would you like to know about your account or balance?")
  | RespTransferRequested =>
      Some (lit "Of course. Let me connect you to a representative right away. Please hold.")
  | RespCallBack =>
      Some (lit "I understand. Is there a better time for us to reach you, or would you prefer to call us back at your convenience? Our customer service line is available Monday through Friday, 9 AM to 5 PM.")
  | RespUnclear =>
      Some (lit "I want to make sure I help you properly. Are you looking to make a payment today, do you have questions about your account, or would you like to speak with a specialist?")
  end.

(** The dictionary a handler returns. *)
Record result := {
  res_response : response;
  res_stage : stage;
  res_transfer : bool
}.

(** A handler either returns its dictionary or raises. *)
Inductive outcome :=
| Returned (r : result)
| Raised.

Definition returns (resp : response) (s : session) (t : bool) : session * outcome :=
  (s, Returned {| res_response := resp; res_stage := sess_stage s; res_transfer := t |}).

(** [borrower.get("name", "the account holder")] *)
Definition display_name (b : borrower) : text :=
  default (lit "the account holder") (name b).

(** [_handle_initial_greeting] *)
Definition handle_initial_greeting (s : session) (b : borrower) : session * outcome :=
  let s := set_attempts 0 (set_stage ConfirmIdentity s) in
  returns (RespGreeting (display_name b)) s false.

Definition affirmative_words : list text :=
  map lit ["yes"; "yeah"; "yep"; "sure"; "speaking"; "this is"; "correct";
           "that's me"; "thats me"; "i am"; "im"; "yup"; "uh huh"]%string.

Definition negative_words : list text :=
  map lit ["no"; "nope"; "not"; "wrong"; "different"; "isn't"]%string.

(** [_handle_confirm_identity] *)
Definition handle_confirm_identity (s : session) (b : borrower) (user_text : text)
  : session * outcome :=
  let user_lower := lower user_text in
  let affirmative := any_in affirmative_words user_lower in
  let negative := any_in negative_words user_lower in
  if affirmative then
    let s := set_attempts 0 (set_stage VerifyDob (set_name_confirmed true s)) in
    returns RespAskDob s false
  else if negative then
    returns RespWrongPerson (set_stage Transfer s) true
  else
    let s := set_attempts (attempts s + 1) s in
    if 2 <=? attempts s then
      returns RespIdentityTransfer (set_stage Transfer s) true
    else
      returns (RespIdentityRetry (display_name b)) s false.

(** The [word_to_num] list of [_handle_verify_dob], in source order. *)
Definition dob_word_to_num : list (text * text) :=
  map (fun wn => (lit (fst wn), lit (snd wn)))
    [("september", "09"); ("november", "11"); ("december", "12");
     ("february", "02"); ("january", "01"); ("october", "10");
     ("august", "08"); ("april", "04"); ("march", "03");
     ("june", "06"); ("july", "07"); ("sept", "09");
     ("may", "05"); ("jan", "01"); ("feb", "02");
     ("mar", "03"); ("apr", "04"); ("jun", "06");
     ("jul", "07"); ("aug", "08"); ("sep", "09");
     ("oct", "10"); ("nov", "11"); ("dec", "12");
     ("thirteen", "13"); ("fourteen", "14"); ("fifteen", "15");
     ("sixteen", "16"); ("seventeen", "17"); ("eighteen", "18");
     ("nineteen", "19"); ("eleventh", "11"); ("twelfth", "12");
     ("thirteenth", "13"); ("fourteenth", "14"); ("fifteenth", "15");
     ("sixteenth", "16"); ("seventeenth", "17"); ("eighteenth", "18");
     ("nineteenth", "19");
     ("twenty", "20"); ("thirty", "30"); ("forty", "40");
     ("fifty", "50"); ("sixty", "60"); ("seventy", "70");
     ("eighty", "80"); ("ninety", "90");
     ("twentieth", "20"); ("thirtieth", "30"); ("thirty first", "31");
     ("tenth", "10"); ("eleven", "11"); ("twelve", "12");
     ("zero", "0"); ("one", "1"); ("two", "2"); ("three", "3");
     ("four", "4"); ("five", "5"); ("six", "6"); ("seven", "7");
     ("eight", "8"); ("nine", "9"); ("ten", "10");
     ("first", "1"); ("second", "2"); ("third", "3");
     ("fourth", "4"); ("fifth", "5"); ("sixth", "6");
     ("seventh", "7"); ("eighth", "8"); ("ninth", "9")]%string.

(** The digits [_handle_verify_dob] extracts from one utterance. *)
Definition dob_digits (user_text : text) : text :=
  digits (replace_all dob_word_to_num (lower user_text)).

(** The five [strftime] renderings, in source order:
    [%m%d%Y], [%d%m%Y], [%Y%m%d], [%m%d%y], [%d%m%y]. *)
Definition dob_formats (d : date) : list text :=
  [ pad2 (month d) ++ pad2 (day d) ++ pad4 (year d);
    pad2 (day d) ++ pad2 (month d) ++ pad4 (year d);
    pad4 (year d) ++ pad2 (month d) ++ pad2 (day d);
    pad2 (month d) ++ pad2 (day d) ++ pad2 (year d);
    pad2 (day d) ++ pad2 (month d) ++ pad2 (year d) ].

(** The two matching loops over [formats]. *)
Definition dob_matches (formats : list text) (accumulated current : text) : bool :=
  existsb (fun fmt => eqb fmt accumulated
                      || ((6 <=? length accumulated) && contains fmt accumulated))
          formats
  || existsb (fun fmt => eqb fmt current) formats.

Section Handlers.

(** [datetime.fromisoformat(s).date()]; [None] when it raises. *)
Variable fromisoformat : text -> option date.

(** [dob_obj]: the date the stored value denotes, if any. *)
Definition dob_obj (b : borrower) : option date :=
  match date_of_birth b with
  | None => None
  | Some (DobStr s) => if bool_decide (s = []) then None else fromisoformat s
  | Some (DobDate d) => Some d
  end.

(** [_handle_verify_dob] *)
Definition handle_verify_dob (s : session) (b : borrower) (user_text : text)
  : session * outcome :=
  let current_digits := dob_digits user_text in
  let s := set_partial_dob (partial_dob s ++ current_digits) s in
  let accumulated_digits := partial_dob s in
  let verified :=
    match dob_obj b with
    | Some d => dob_matches (dob_formats d) accumulated_digits current_digits
    | None => false
    end in
  if verified then
    let s := set_partial_dob []
               (set_attempts 0 (set_stage VerifyAccount (set_verified_dob true s))) in
    returns RespAskAccount s false
  else if 8 <=? length accumulated_digits then
    let s := set_partial_dob [] (set_attempts (attempts s + 1) s) in
    if 3 <=? attempts s then
      returns RespDobTransfer (set_stage Transfer s) true
    else
      returns (RespDobMismatch (attempts s)) s false
  else
    returns RespDobContinue s false.

(** The [word_to_num] dictionary of [_handle_verify_account], in
    insertion order. *)
Definition account_word_to_num : list (text * text) :=
  map (fun wn => (lit (fst wn), lit (snd wn)))
    [("zero", "0"); ("one", "1"); ("two", "2"); ("three", "3"); ("four", "4");
     ("five", "5"); ("six", "6"); ("seven", "7"); ("eight", "8"); ("nine", "9");
     ("oh", "0")]%string.

(** [extracted_digits] *)
Definition account_digits (user_text : text) : text :=
  digits (replace_all account_word_to_num (lower user_text)).

(** [verified] of [_handle_verify_account] *)
Definition account_matches (account_4 extracted_digits : text) : bool :=
  eqb account_4 extracted_digits
  || ((4 <=? length extracted_digits) && contains account_4 extracted_digits).

(** [_handle_verify_account] *)
Definition handle_verify_account (s : session) (b : borrower) (user_text : text)
  : session * outcome :=
  let account_4 := default [] (account_number_last_four b) in
  let extracted_digits := account_digits user_text in
  if account_matches account_4 extracted_digits then
    let s := set_attempts 0 (set_stage VerifyAddress (set_verified_account true s)) in
    returns RespAskAddress s false
  else
    let s := set_attempts (attempts s + 1) s in
    if 3 <=? attempts s then
      returns RespAccountTransfer (set_stage Transfer s) true
    else
      returns RespAccountRetry s false.

(** [_handle_verification_complete]; [name.split()[0]] raises on a name
    without a word. *)
Definition handle_verification_complete (s : session) (b : borrower)
  : session * outcome :=
  let s := set_stage PaymentDiscussion s in
  match first_word (default [] (name b)) with
  | None => (s, Raised)
  | Some first_name => returns (RespSummary first_name) s false
  end.

(** [verified] of [_handle_verify_address] *)
Definition address_matches (address user_text : text) : bool :=
  if bool_decide (address = []) then false
  else
    let address_lower := lower address in
    let user_lower := lower user_text in
    let first := default [] (first_word address_lower) in
    let street_number := digits first in
    let user_digits := digits user_text in
    (negb (eqb first []) && contains first user_lower)
    || (negb (eqb street_number []) && negb (eqb user_digits [])
        && eqb street_number user_digits).

(** [_handle_verify_address] *)
Definition handle_verify_address (s : session) (b : borrower) (user_text : text)
  : session * outcome :=
  let address := default [] (property_address b) in
  if address_matches address user_text then
    let s := set_attempts 0
               (set_stage VerificationComplete (set_verified_address true s)) in
    handle_verification_complete s b
  else
    let s := set_attempts (attempts s + 1) s in
    if 3 <=? attempts s then
      returns RespAddressTransfer (set_stage Transfer s) true
    else
      returns RespAddressRetry s false.

Definition already_paid_phrases : list text :=
  map lit ["already paid"; "paid already"; "i paid"; "payment made";
           "sent payment"; "made payment"; "paid it"; "sent it"]%string.

Definition payment_intent_phrases : list text :=
  map lit ["make a payment"; "pay now"; "pay today"; "i'll pay";
           "want to pay"; "would like to pay"; "yes"; "sure"; "okay"]%string.

Definition refusal_phrases : list text :=
  map lit ["can't"; "cannot"; "won't"; "wont"]%string.

Definition hardship_phrases : list text :=
  map lit ["hardship"; "financial"; "assistance"; "help"; "can't pay";
           "cannot pay"; "difficult"; "struggling"; "program"; "trouble"]%string.

Definition question_phrases : list text :=
  map lit ["question"; "explain"; "why"; "how much"; "balance";
           "what is"; "tell me"; "confused"; "don't understand";
           "dont understand"]%string.

Definition transfer_phrases : list text :=
  map lit ["transfer"; "representative"; "speak to someone";
           "talk to"; "human"; "person"; "someone else"]%string.

Definition decline_phrases : list text :=
  map lit ["no"; "not now"; "not interested"; "later"; "can't talk";
           "busy"; "not good time"; "call back"]%string.

(** [_handle_payment_discussion] *)
Definition handle_payment_discussion (s : session) (b : borrower) (user_text : text)
  : session * outcome :=
  let text_lower := lower user_text in
  if any_in already_paid_phrases text_lower then
    if eqb (default [] (payment_status b)) (lit "paid") then
      returns RespPaymentReceived s false
    else
      returns RespPaymentNotFound (set_stage Transfer s) true
  else if any_in payment_intent_phrases text_lower
          && negb (any_in refusal_phrases text_lower) then
    returns RespPaymentMethods s false
  else if any_in hardship_phrases text_lower then
    if hardship_eligible b then
      returns RespHardshipEligible (set_stage Transfer s) true
    else
      returns RespHardshipReview (set_stage Transfer s) true
  else if any_in question_phrases text_lower then
    returns RespAccountQuestions s false
  else if any_in transfer_phrases text_lower then
    returns RespTransferRequested (set_stage Transfer s) true
  else if any_in decline_phrases text_lower then
    returns RespCallBack s false
  else
    returns RespUnclear s false.

(** The routing of [process_utterance] on [current_stage]. *)
Definition route (s : session) (b : borrower) (user_text : text) : session * outcome :=
  match sess_stage s with
  | InitialGreeting => handle_initial_greeting s b
  | ConfirmIdentity => handle_confirm_identity s b user_text
  | VerifyDob => handle_verify_dob s b user_text
  | VerifyAccount => handle_verify_account s b user_text
  | VerifyAddress => handle_verify_address s b user_text
  | VerificationComplete => handle_verification_complete s b
  | PaymentDiscussion => handle_payment_discussion s b user_text
  | st => (s, Returned {| res_response := RespRepeat; res_stage := st;
                          res_transfer := false |})
  end.

(** The service object: the datastore it queries and its session table. *)
Record service := {
  db : text -> lookup;
  sessions : gmap text session
}.

Definition with_session (svc : service) (phone : text) (s : session) : service :=
  {| db := db svc; sessions := <[phone := s]> (sessions svc) |}.

(** [_get_session]: the stored session, created on first use. *)
Definition get_session (svc : service) (phone : text) : service * session :=
  match sessions svc !! phone with
  | Some s => (svc, s)
  | None => (with_session svc phone new_session, new_session)
  end.

(** What the [except Exception] clause of [process_utterance] returns. *)
Definition error_result : result :=
  {| res_response := RespTechnical; res_stage := Error; res_transfer := true |}.

(** The dictionary [process_utterance] returns for a handler's outcome. *)
Definition result_of (o : outcome) : result :=
  match o with Returned r => r | Raised => error_result end.

(** [process_utterance]: the updated service and the returned dictionary.
    The session is a shared dictionary, so what a handler wrote before it
    raised stays in the table. *)
Definition process_utterance (svc : service) (phone_number user_text : text)
  : service * result :=
  let phone_number := strip phone_number in
  let user_text := strip user_text in
  let '(svc, s) := get_session svc phone_number in
  if bool_decide (sess_stage s = Transfer) then
    (svc, {| res_response := RespEmpty; res_stage := Transfer; res_transfer := true |})
  else
    match db svc phone_number with
    | Failed => (svc, error_result)
    | Absent =>
        (with_session svc phone_number (set_stage Transfer s),
         {| res_response := RespNoRecord; res_stage := NoRecord; res_transfer := true |})
    | Found b =>
        let s := if bool_decide (user_text = []) then s
                 else set_history (conversation_history s ++ [(lit "user", user_text)]) s in
        let '(s, o) := route s b user_text in
        (with_session svc phone_number s, result_of o)
    end.

(** [clear_session] *)
Definition clear_session (svc : service) (phone_number : text) : service :=
  {| db := db svc; sessions := delete phone_number (sessions svc) |}.

(** The stage stored for a caller, if a session exists. *)
Definition stage_of (svc : service) (phone_number : text) : option stage :=
  sess_stage <$> sessions svc !! strip phone_number.

(** Feeding a call's utterances in order. *)
Fixpoint process_all (svc : service) (phone_number : text) (utterances : list text)
  : service * list result :=
  match utterances with
  | [] => (svc, [])
  | u :: us =>
      let '(svc, r) := process_utterance svc phone_number u in
      let '(svc, rs) := process_all svc phone_number us in
      (svc, r :: rs)
  end.

(** The user turn [process_utterance] appends to the history. *)
Definition logged (s : session) (user_text : text) : session :=
  if bool_decide (user_text = []) then s
  else set_history (conversation_history s ++ [(lit "user", user_text)]) s.

(** What [process_utterance] makes of a caller's session, given the
    datastore's answer and the stripped utterance. *)
Definition advance (found : lookup) (s : session) (user_text : text) : session :=
  if bool_decide (sess_stage s = Transfer) then s
  else
    match found with
    | Failed => s
    | Absent => set_stage Transfer s
    | Found b => (route (logged s user_text) b user_text).1
    end.

(** The position of a stage in the script; [transfer] comes last. *)
Definition rank (st : stage) : nat :=
  match st with
  | InitialGreeting => 0 | ConfirmIdentity => 1 | VerifyDob => 2
  | VerifyAccount => 3 | VerifyAddress => 4 | VerificationComplete => 5
  | PaymentDiscussion => 6 | NoRecord => 7 | Error => 8 | Transfer => 9
  end.

(** The threshold a step's handler compares [session["attempts"]] with
    before it transfers. *)
Definition attempt_limit (st : stage) : option nat :=
  match st with
  | ConfirmIdentity => Some 2
  | VerifyDob | VerifyAccount | VerifyAddress => Some 3
  | _ => None
  end.

(** The dictionary returned once a session is in [transfer]. *)
Definition transfer_result : result :=
  {| res_response := RespEmpty; res_stage := Transfer; res_transfer := true |}.

(** The dictionary returned while the date of birth is incomplete. *)
Definition continue_result : result :=
  {| res_response := RespDobContinue; res_stage := VerifyDob; res_transfer := false |}.

(** The dictionary returned when the date of birth is verified. *)
Definition dob_verified_result : result :=
  {| res_response := RespAskAccount; res_stage := VerifyAccount; res_transfer := false |}.

(** The digits [process_utterance] extracts from an utterance at
    [verify_dob]. *)
Definition heard (u : text) : text := dob_digits (strip u).

(** The session stored for a caller. *)
Definition session_of (svc : service) (phone_number : text) : option session :=
  sessions svc !! strip phone_number.

(** An utterance counts as a failed attempt at step [X] when the caller
    was at [X] and the handler executed [session["attempts"] += 1]. *)
Definition counted (X : stage) (before after : option session) : bool :=
  match before, after with
  | Some s, Some s' => bool_decide (sess_stage s = X) && (attempts s' =? attempts s + 1)
  | _, _ => false
  end.

(** The number of failed attempts at step [X] while a call's utterances
    are processed. *)
Fixpoint failed_attempts (X : stage) (svc : service) (phone_number : text)
    (utterances : list text) : nat :=
  match utterances with
  | [] => 0
  | u :: us =>
      let svc' := fst (process_utterance svc phone_number u) in
      (if counted X (session_of svc phone_number) (session_of svc' phone_number)
       then 1 else 0)
      + failed_attempts X svc' phone_number us
  end.

End Handlers.

(** [datetime.fromisoformat] on the calendar-date form [YYYY-MM-DD]. *)
Definition digit_value (c : ascii) : option nat :=
  if isdigit c then Some (nat_of_ascii c - 48) else None.

Fixpoint number (ds : text) (acc : nat) : option nat :=
  match ds with
  | [] => Some acc
  | c :: ds' =>
      match digit_value c with
      | Some v => number ds' (10 * acc + v)
      | None => None
      end
  end.

Definition is_leap (y : nat) : bool :=
  ((y mod 4 =? 0) && negb (y mod 100 =? 0)) || (y mod 400 =? 0).

Definition days_in_month (y m : nat) : nat :=
  match m with
  | 2 => if is_leap y then 29 else 28
  | 4 | 6 | 9 | 11 => 30
  | _ => 31
  end.

Definition fromisoformat_date (s : text) : option date :=
  match s with
  | [y1; y2; y3; y4; d1; m1; m2; d2; a1; a2] =>
      if negb (eqb [d1; d2] (lit "--")) then None
      else
        match number [y1; y2; y3; y4] 0, number [m1; m2] 0, number [a1; a2] 0 with
        | Some y, Some m, Some d =>
            if (1 <=? y) && (1 <=? m) && (m <=? 12) && (1 <=? d)
               && (d <=? days_in_month y m)
            then Some {| year := y; month := m; day := d |}
            else None
        | _, _, _ => None
        end
  | _ => None
  end.

(** The dates on which [pad2] and [pad4] print what [strftime] prints. *)
Definition valid_date (d : date) : Prop :=
  1000 <= year d < 10 * 1000 /\ 1 <= month d <= 12 /\ 1 <= day d <= 31.

End RagService.

(** ** The audio relay: [app/routers/*.py] *)

Module Relay.

Definition bytes := list Byte.byte.

(** [len(b)] *)
Definition len (b : bytes) : Z := Z.of_nat (length b).

(** *** Uplink: [twilio_receiver] and [deepgram_sender]

    The receiver is the same in the three routers. *)

Definition BUFFER_SIZE : Z := 8000.

(** A decoded telephony message.  [Ignored] is a well-formed message
    with another event name; [Malformed] is one whose handling raises
    (invalid JSON, a missing key, an invalid base64 payload). *)
Inductive twilio_event :=
| Start (streamSid callSid : text)
| Media (chunk : bytes)
| Stop
| Ignored
| Malformed.

(** The variables the receiver writes: the two identifiers, the global
    [active_calls] table, the two queues and its local buffer. *)
Record uplink := {
  stream_sid : option text;
  call_sid : option text;
  active_calls : gmap text text;
  stream_sid_queue : list text;
  audio_buffer : bytes;
  audio_queue : list bytes
}.

Definition uplink_init : uplink :=
  {| stream_sid := None; call_sid := None; active_calls := ∅;
     stream_sid_queue := []; audio_buffer := []; audio_queue := [] |}.

(** The [start] branch. *)
Definition on_start (st : uplink) (sid cid : text) : uplink :=
  {| stream_sid := Some sid; call_sid := Some cid;
     active_calls := <[sid := cid]> (active_calls st);
     stream_sid_queue := stream_sid_queue st ++ [sid];
     audio_buffer := audio_buffer st; audio_queue := audio_queue st |}.

(** The [media] branch: extend the buffer, flush it once it is full. *)
Definition on_media (st : uplink) (chunk : bytes) : uplink :=
  let buffer := audio_buffer st ++ chunk in
  if (BUFFER_SIZE <=? len buffer)%Z then
    {| stream_sid := stream_sid st; call_sid := call_sid st;
       active_calls := active_calls st; stream_sid_queue := stream_sid_queue st;
       audio_buffer := []; audio_queue := audio_queue st ++ [buffer] |}
  else
    {| stream_sid := stream_sid st; call_sid := call_sid st;
       active_calls := active_calls st; stream_sid_queue := stream_sid_queue st;
       audio_buffer := buffer; audio_queue := audio_queue st |}.

(** [twilio_receiver]: the state when the loop is left, by [stop], by an
    exception, or because the socket disconnected (the messages ran out). *)
Fixpoint twilio_receiver (st : uplink) (messages : list twilio_event) : uplink :=
  match messages with
  | [] => st
  | Start sid cid :: rest => twilio_receiver (on_start st sid cid) rest
  | Media chunk :: rest => twilio_receiver (on_media st chunk) rest
  | Stop :: _ => st
  | Ignored :: rest => twilio_receiver st rest
  | Malformed :: _ => st
  end.

(** [deepgram_sender] of [inbound_call.py] and
    [multi_language_elevanlabs.py]: every queued chunk is sent when the
    agent connection exists. *)
Definition deepgram_sender (deepgram_ws : bool) (queue : list bytes) : list bytes :=
  List.filter (fun _ => deepgram_ws) queue.

(** The messages the receiver handles before it leaves its loop. *)
Fixpoint handled (messages : list twilio_event) : list twilio_event :=
  match messages with
  | [] => []
  | Stop :: _ => []
  | Malformed :: _ => []
  | ev :: rest => ev :: handled rest
  end.

(** The caller audio carried by a list of messages. *)
Fixpoint audio_of (messages : list twilio_event) : bytes :=
  match messages with
  | [] => []
  | Media chunk :: rest => chunk ++ audio_of rest
  | _ :: rest => audio_of rest
  end.

Definition is_start (ev : twilio_event) : bool :=
  match ev with Start _ _ => true | _ => false end.

(** *** Downlink: [deepgram_receiver] *)

(** Outcome of [json.loads(func.get("arguments", "{}"))] followed by
    [arguments.get("language", ...)]. *)
Inductive arguments :=
| ArgsInvalid
| ArgsObject (language : option text).

(** An entry of the ["functions"] array. *)
Record func := {
  client_side : bool;
  fn_name : option text;
  fn_id : option text;
  fn_arguments : arguments
}.

(** A decoded text message of the agent service, by its ["type"]. *)
Inductive agent_event :=
| FunctionCallRequest (functions : list func)
| UserStartedSpeaking
| ConversationText (role content : text)
| ErrorEvent (code description : text)
| OtherEvent.

(** A message of the agent connection. *)
Inductive agent_message :=
| TextMessage (data : agent_event)
| InvalidText
| BinaryMessage (audio : bytes).

(** A control message sent to the agent service. *)
Inductive agent_control :=
| FunctionCallResponse (id : option text) (name content : text)
| UpdateSpeak (model : text)
| UpdatePrompt (prompt_language : text).

(** What the receiver does, in order.  [media] carries the base64 text
    of the audio, represented here by the audio itself. *)
Inductive action :=
| TwilioClear (streamSid : text)
| TwilioMedia (streamSid : text) (audio : bytes)
| AgentSend (m : agent_control)
| Reconnect (language : text) (history : list (text * text)) (succeeded : bool).

(** One entry of the pump's log: a message taken from the agent
    connection, or something the pump did. *)
Inductive entry :=
| Received (m : agent_message)
| Did (a : action).

(** The result of handling one message: the new local state, what was
    done, and whether the loop goes on ([false]: an exception left it). *)
Definition step_result (S : Type) : Type := S * list action * bool.

(** A variant of the receiver. *)
Class Receiver (S : Type) := {
  sid : S -> text;
  on_message : S -> agent_message -> step_result S
}.

(** [deepgram_receiver]: the log of the loop over the messages of the
    agent connection. *)
Fixpoint deepgram_receiver {S} `{Receiver S} (st : S) (messages : list agent_message)
  : list entry :=
  match messages with
  | [] => []
  | m :: rest =>
      let '(st', actions, alive) := on_message st m in
      Received m :: map Did actions
        ++ (if alive then deepgram_receiver st' rest else [])
  end.

Definition switch_language : text := lit "switch_language".

Definition DEEPGRAM_VOICES (language : text) : option text :=
  if eqb language (lit "en") then Some (lit "aura-2-thalia-en")
  else if eqb language (lit "es") then Some (lit "aura-2-celeste-es")
  else None.

Definition voice_en : text := lit "aura-2-thalia-en".

(** **** [inbound_call.py] *)

Module InboundCall.

Definition on_message (sid : text) (m : agent_message) : step_result text :=
  match m with
  | TextMessage UserStartedSpeaking => (sid, [TwilioClear sid], true)
  | TextMessage _ => (sid, [], true)
  | InvalidText => (sid, [], false)
  | BinaryMessage audio => (sid, [TwilioMedia sid audio], true)
  end.

#[global] Instance receiver : Receiver text :=
  {| Relay.sid := fun s => s; Relay.on_message := on_message |}.

End InboundCall.

(** **** [multi_language_elevanlabs.py]: in-band voice update *)

Module InBand.

(** The locals of [deepgram_receiver].  [func], [function_name] and
    [function_call_id] are unbound until the loop over ["functions"]
    assigns them; they keep their value from one message to the next. *)
Record state := {
  sid : text;
  current_voice : text;
  var_func : option func;
  function_name : option (option text);
  function_call_id : option (option text)
}.

Definition init (sid : text) : state :=
  {| sid := sid; current_voice := voice_en; var_func := None;
     function_name := None; function_call_id := None |}.

(** One iteration of [for func in functions]. *)
Definition bind_func (st : state) (f : func) : state :=
  if client_side f then
    {| sid := sid st; current_voice := current_voice st; var_func := Some f;
       function_name := Some (fn_name f); function_call_id := Some (fn_id f) |}
  else
    {| sid := sid st; current_voice := current_voice st; var_func := Some f;
       function_name := function_name st; function_call_id := function_call_id st |}.

Definition set_voice (v : text) (st : state) : state :=
  {| sid := sid st; current_voice := v; var_func := var_func st;
     function_name := function_name st; function_call_id := function_call_id st |}.

(** [language_instructions.get(language, language_instructions["en"])],
    by the key whose text is sent. *)
Definition instructions_for (language : text) : text :=
  if eqb language (lit "es") then lit "es" else lit "en".

(** The body of [if function_name == "switch_language":]. *)
Definition switch (st : state) (f : func) (call_id : option text) : step_result state :=
  match fn_arguments f with
  | ArgsInvalid => (st, [], false)
  | ArgsObject l =>
      let language := default (lit "en") l in
      let new_voice := default voice_en (DEEPGRAM_VOICES language) in
      (set_voice new_voice st,
       [ TwilioClear (sid st);
         AgentSend (UpdateSpeak new_voice);
         AgentSend (UpdatePrompt (instructions_for language));
         AgentSend (FunctionCallResponse call_id switch_language
                      (lit "Successfully switched to " ++ language
                       ++ lit ". Voice is now " ++ new_voice ++ lit ".")) ],
       true)
  end.

(** The [FunctionCallRequest] branch: the loop, then the test of
    [function_name], which raises when the name is unbound. *)
Definition on_function_call (st : state) (functions : list func) : step_result state :=
  let st := fold_left bind_func functions st in
  match function_name st, var_func st, function_call_id st with
  | Some n, Some f, Some call_id =>
      if bool_decide (n = Some switch_language) then switch st f call_id
      else (st, [], true)
  | _, _, _ => (st, [], false)
  end.

Definition on_message (st : state) (m : agent_message) : step_result state :=
  match m with
  | TextMessage (FunctionCallRequest functions) => on_function_call st functions
  | TextMessage UserStartedSpeaking => (st, [TwilioClear (sid st)], true)
  | TextMessage _ => (st, [], true)
  | InvalidText => (st, [], false)
  | BinaryMessage audio => (st, [TwilioMedia (sid st) audio], true)
  end.

#[global] Instance receiver : Receiver state :=
  {| Relay.sid := sid; Relay.on_message := on_message |}.

End InBand.

(** **** [language_switch.py]: switch by reconnection *)

Module Reconnecting.

(** The variables of the call the receiver reads and writes.
    [connects] lists the outcomes of the connection attempts still to
    come ([connect_to_deepgram] raising or not). *)
Record state := {
  sid : text;
  current_language : text;
  conversation_history : list (text * text);
  connects : list bool
}.

Definition init (sid : text) (connects : list bool) : state :=
  {| sid := sid; current_language := lit "en"; conversation_history := [];
     connects := connects |}.

(** [conversation_history[-10:] if len(conversation_history) > 10 else
    conversation_history] *)
Definition history_to_save (h : list (text * text)) : list (text * text) :=
  if 10 <? length h then skipn (length h - 10) h else h.

(** [initialize_deepgram_connection] succeeds when the connection opens
    and [get_agent_config] finds a voice for the language. *)
Definition connect_outcome (st : state) (language : text) : bool :=
  match connects st with
  | ok :: _ => ok && bool_decide (is_Some (DEEPGRAM_VOICES language))
  | [] => false
  end.

(** The body of the loop over ["functions"] for one entry. *)
Definition on_func (st : state) (f : func) : step_result state :=
  if client_side f && bool_decide (fn_name f = Some switch_language) then
    match fn_arguments f with
    | ArgsInvalid => (st, [], false)
    | ArgsObject l =>
        let target_language := default (lit "en") l in
        if eqb target_language (current_language st) then
          (st,
           [AgentSend (FunctionCallResponse (fn_id f) switch_language
                         (lit "Already speaking in " ++ target_language))],
           true)
        else
          let ok := connect_outcome st target_language in
          ({| sid := sid st;
              current_language := if ok then target_language else current_language st;
              conversation_history := conversation_history st;
              connects := tl (connects st) |},
           [TwilioClear (sid st);
            Reconnect target_language (history_to_save (conversation_history st)) ok],
           true)
    end
  else (st, [], true).

(** [for func in functions: ...], left by an exception. *)
Fixpoint on_function_call (st : state) (functions : list func) : step_result state :=
  match functions with
  | [] => (st, [], true)
  | f :: rest =>
      let '(st', actions, alive) := on_func st f in
      if alive then
        let '(st'', actions', alive') := on_function_call st' rest in
        (st'', actions ++ actions', alive')
      else (st', actions, false)
  end.

Definition on_message (st : state) (m : agent_message) : step_result state :=
  match m with
  | TextMessage (FunctionCallRequest functions) => on_function_call st functions
  | TextMessage UserStartedSpeaking => (st, [TwilioClear (sid st)], true)
  | TextMessage (ConversationText role content) =>
      ({| sid := sid st; current_language := current_language st;
          conversation_history := conversation_history st ++ [(role, content)];
          connects := connects st |}, [], true)
  | TextMessage _ => (st, [], true)
  | InvalidText => (st, [], false)
  | BinaryMessage audio => (st, [TwilioMedia (sid st) audio], true)
  end.

#[global] Instance receiver : Receiver state :=
  {| Relay.sid := sid; Relay.on_message := on_message |}.

End Reconnecting.

(** A running receiver of any of the three routers. *)
Inductive pump :=
| InboundPump (sid : text)
| InBandPump (st : InBand.state)
| ReconnectingPump (st : Reconnecting.state).

(** The stream identifier the receiver took from [stream_sid_queue]. *)
Definition pump_sid (p : pump) : text :=
  match p with
  | InboundPump sid => sid
  | InBandPump st => InBand.sid st
  | ReconnectingPump st => Reconnecting.sid st
  end.

(** The log of the receiver over the messages of the agent connection. *)
Definition run_pump (p : pump) (messages : list agent_message) : list entry :=
  match p with
  | InboundPump sid => deepgram_receiver sid messages
  | InBandPump st => deepgram_receiver st messages
  | ReconnectingPump st => deepgram_receiver st messages
  end.

End Relay.

(** ** Concrete calls used below *)

Module Scenario.

Import RagService.

Definition caller : text := lit "+14155551234".

(** A borrower born on 1986-09-14 whose account ends in 0123. *)
Definition jane : borrower :=
  {| name := Some (lit "Jane Doe");
     date_of_birth := Some (DobStr (lit "1986-09-14"));
     account_number_last_four := Some (lit "0123");
     property_address := Some (lit "742 Evergreen Terrace");
     payment_status := None;
     hardship_eligible := false |}.

Definition jane_dob : date := {| year := 1986; month := 9; day := 14 |}.

(** A datastore holding only [jane], and no session yet. *)
Definition fresh : service :=
  {| db := fun phone => if eqb phone caller then Found jane else Absent;
     sessions := ∅ |}.

(** A session placed at a given step, with no attempt counted. *)
Definition at_step (X : stage) : service :=
  {| db := db fresh;
     sessions := {[ caller := set_stage X new_session ]} |}.

Definition spoken_dob : text := lit "September fourteen nineteen eighty six".

Import Relay.

Definition stream : text := lit "MZ0001".

(** One second of caller audio: 8000 bytes. *)
Definition one_second : bytes := repeat Byte.x00 (Z.to_nat 8000).

(** A [switch_language] call for English that is not marked client-side. *)
Definition server_side_call : func :=
  {| client_side := false; fn_name := Some switch_language;
     fn_id := Some (lit "call_1"); fn_arguments := ArgsObject (Some (lit "en")) |}.

(** The same call marked client-side. *)
Definition client_side_call : func :=
  {| client_side := true; fn_name := Some switch_language;
     fn_id := Some (lit "call_1"); fn_arguments := ArgsObject (Some (lit "en")) |}.

End Scenario.

(** ** What a stored session looks like *)

Module SessionShape.

Import RagService.

(** The stages [process_utterance] stores in a session. *)
Definition stored_stage (st : stage) : bool :=
  match st with NoRecord | Error => false | _ => true end.

(** A session still at a verification step has failed attempts to spare. *)
Definition within_budget (s : session) : Prop :=
  match attempt_limit (sess_stage s) with
  | Some L => attempts s < L
  | None => True
  end.

(** A session past a step, and not transferred, holds that step's flag. *)
Definition flags_earned (s : session) : Prop :=
  sess_stage s <> Transfer ->
  (2 <= rank (sess_stage s) -> name_confirmed s = true)
  /\ (3 <= rank (sess_stage s) -> verified_dob s = true)
  /\ (4 <= rank (sess_stage s) -> verified_account s = true)
  /\ (5 <= rank (sess_stage s) -> verified_address s = true).

(** What every session made by [_get_session] and updated by the
    handlers satisfies. *)
Definition consistent (s : session) : Prop :=
  stored_stage (sess_stage s) = true
  /\ within_budget s
  /\ flags_earned s
  /\ length (partial_dob s) < 8.

(** The stages in which a result asks for a hand-off. *)
Definition hand_off (st : stage) : bool :=
  match st with Transfer | NoRecord | Error => true | _ => false end.

End SessionShape.

(** ** More concrete calls *)

Module Cases.

Import RagService Scenario.

Definition other_caller : text := lit "+14155550000".

(** A call that passes every verification step. *)
Definition full_call : list text :=
  map lit [""; "Yes, speaking"; "14 09 1986"; "oh one two three"; "742"]%string.

(** A borrower row with no name, no date of birth, no account and no
    address. *)
Definition blank : borrower :=
  {| name := None; date_of_birth := None; account_number_last_four := None;
     property_address := None; payment_status := None; hardship_eligible := false |}.

(** [jane] with a name that holds no word. *)
Definition nameless : borrower :=
  {| name := Some (lit "  "); date_of_birth := date_of_birth jane;
     account_number_last_four := account_number_last_four jane;
     property_address := property_address jane;
     payment_status := None; hardship_eligible := false |}.

(** A datastore that answers every caller with the given row, and one
    session at the given step. *)
Definition serving (b : borrower) (X : stage) : service :=
  {| db := fun _ => Found b;
     sessions := {[ caller := set_stage X new_session ]} |}.

End Cases.

(** ** Reading the relay's logs and queues *)

Module RelayLog.

Import Relay.

(** The stream identifiers of the [start] messages of a list. *)
Fixpoint start_sids (messages : list twilio_event) : list text :=
  match messages with
  | [] => []
  | Start sid _ :: rest => sid :: start_sids rest
  | _ :: rest => start_sids rest
  end.

(** The size of the largest [media] payload of a list. *)
Fixpoint largest_chunk (messages : list twilio_event) : Z :=
  match messages with
  | [] => 0
  | Media chunk :: rest => Z.max (len chunk) (largest_chunk rest)
  | _ :: rest => largest_chunk rest
  end.

(** The audio of the binary messages a log records as received. *)
Fixpoint received_audio (log : list entry) : list bytes :=
  match log with
  | [] => []
  | Received (BinaryMessage audio) :: rest => audio :: received_audio rest
  | _ :: rest => received_audio rest
  end.

(** The [media] events a log records as sent to the telephony leg. *)
Fixpoint forwarded_audio (log : list entry) : list (text * bytes) :=
  match log with
  | [] => []
  | Did (TwilioMedia sid audio) :: rest => (sid, audio) :: forwarded_audio rest
  | _ :: rest => forwarded_audio rest
  end.

(** The local state of a receiver when it has left its loop. *)
Fixpoint receiver_state {S} `{Receiver S} (st : S) (messages : list agent_message) : S :=
  match messages with
  | [] => st
  | m :: rest =>
      let '(st', _, alive) := on_message st m in
      if alive then receiver_state st' rest else st'
  end.

(** The function responses a log records as sent to the agent service. *)
Fixpoint responses (log : list entry) : list (option text * text * text) :=
  match log with
  | [] => []
  | Did (AgentSend (FunctionCallResponse id name content)) :: rest =>
      (id, name, content) :: responses rest
  | _ :: rest => responses rest
  end.

End RelayLog.

(** ** The stream address given to the telephony provider: [generate_twiml] *)

Module Twiml.

(** [SERVER_URL.replace('https://', 'wss://').replace('http://', 'ws://')]
    followed by [/twilio]. *)
Definition websocket_url (server_url : text) : text :=
  replace (lit "http://") (lit "ws://")
    (replace (lit "https://") (lit "wss://") server_url)
  ++ lit "/twilio".

End Twiml.

(** ** The payment prototype: [app/services/make_payment_agent.py] *)

Module MakePayment.

(** A number read from the sheet; its comparisons are those of the
    rationals. *)
Definition number := QArith_base.Q.

Definition zero : number := QArith_base.Qmake 0 1.

(** [a > b] *)
Definition gt (a b : number) : bool := negb (QArith_base.Qle_bool a b).

Definition upper_char (c : ascii) : ascii :=
  if is_lower c then ascii_of_nat (nat_of_ascii c - 32) else c.

(** [s.upper()] *)
Definition upper (s : text) : text := map upper_char s.

(** A row of the sheet; [None] is an empty cell ([pd.isna]). *)
Record row := {
  BorrowerId : Z;
  NextPaymentDueDate : option text;
  TotalPaymentDue : option number;
  FeesBalance : option number;
  AccountType : option text;
  restrict_autopay_draft : option text;
  DaysLate : option Z;
  PaymentStatus : option text;
  TotalAmountDue : option number
}.

(** The request dictionary; [None] is a missing key. *)
Record payload := {
  borrower_id : option Z;
  decision : option text;
  ach_account_type : option text;
  RoutingNumber : option text;
  LastFourOfAccount : option text
}.

(** The entries appended to [trace], by their ["step"]. *)
Inductive step :=
| StepStart (id : Z)
| StepDisplayDue (next_due : text) (total_payment_due : number)
| StepFees (fees_balance : number) (disclosed : bool)
| StepAccountOnFile (account_type : option text)
| StepRestrictAutopay (value : text)
| StepDaysLate (value : Z)
| StepDelinquencyQuestion
| StepLlmSuggested (llm : text)
| StepPaymentStatus (value : text)
| StepAlreadyPaid
| StepDecisionReceived (decision : text)
| StepNoAccountOnFile
| StepCollectAccountInfo
| StepAccountCollected (ach_account_type routing_number last_four : text)
| StepNoAccountAction
| StepAccountAvailable
| StepAmounts (total_amount_due total_payment_due : number)
| StepAmountsCompare (greater : bool)
| StepScheduleFuture
| StepPayNowPartial
| StepProcessPayment (method : text)
| StepWrapUp (confirmation_number : text)
| StepPromiseToPay
| StepNoAction.

Inductive failure :=
| BorrowerIdRequired
| NoBorrower (id : Z).

(** The returned dictionary: [{"error", "trace"}] or
    [{"result", "trace", "confirmation"}]. *)
Inductive response :=
| Failed (error : failure) (trace : list step)
| Done (result : text) (trace : list step) (confirmation : option text).

(** [_get_row]: the first row with that identifier. *)
Fixpoint get_row (df : list row) (id : Z) : option row :=
  match df with
  | [] => None
  | r :: rest => if bool_decide (BorrowerId r = id) then Some r else get_row rest id
  end.

(** [str(cell)]; an empty cell prints as [nan]. *)
Definition cell_text (c : option text) : text := default (lit "nan") c.

(** [float(cell) if pd.notna(cell) else 0.0] *)
Definition cell_number (c : option number) : number := default zero c.

(** [account_on_file] *)
Definition account_on_file (r : row) : bool :=
  match AccountType r with
  | Some t => negb (eqb (strip t) [])
  | None => false
  end.

(** [payment_status] *)
Definition payment_status (r : row) : text :=
  lower (strip (cell_text (PaymentStatus r))).

(** [payload.get("decision", "pay_now")] *)
Definition decision_of (p : payload) : text := default (lit "pay_now") (decision p).

Section Request.

(** [_call_llm]: what the language model, or its stand-in, answers. *)
Variable call_llm : text -> text.

Definition reason_prompt : text :=
  lit "Provide a concise empathetic prompt asking for reason for missed payment.".

(** The part of [process_request] after the decision was read. *)
Definition decide (r : row) (p : payload) (trace : list step) : response :=
  let d := decision_of p in
  let trace := trace ++ [StepDecisionReceived d] in
  let trace :=
    if negb (account_on_file r) then
      let trace := trace ++ [StepNoAccountOnFile] in
      if eqb d (lit "pay_now") then
        trace ++ [StepCollectAccountInfo;
                  StepAccountCollected
                    (default (lit "checking") (ach_account_type p))
                    (default (lit "111000025") (RoutingNumber p))
                    (default (lit "1234") (LastFourOfAccount p))]
      else trace ++ [StepNoAccountAction]
    else trace ++ [StepAccountAvailable] in
  let total_amount_due := cell_number (TotalAmountDue r) in
  let total_payment_due := cell_number (TotalPaymentDue r) in
  let trace := trace ++ [StepAmounts total_amount_due total_payment_due] in
  let trace :=
    if gt total_amount_due total_payment_due then
      let trace := trace ++ [StepAmountsCompare true] in
      if eqb d (lit "schedule") || eqb d (lit "pay_now_and_schedule") then
        trace ++ [StepScheduleFuture]
      else if eqb d (lit "pay_now") then trace ++ [StepPayNowPartial]
      else trace
    else trace ++ [StepAmountsCompare false] in
  if eqb d (lit "pay_now") || eqb d (lit "pay_now_and_schedule") then
    Done (lit "payment_processed")
      (trace ++ [StepProcessPayment
                   (if account_on_file r then lit "ACH" else lit "One-time ACH");
                 StepWrapUp (lit "CONF-123456")])
      (Some (lit "CONF-123456"))
  else if eqb d (lit "promise_to_pay") then
    Done (lit "promise_to_pay")
      (trace ++ [StepPromiseToPay; StepWrapUp (lit "PROMISE-123")])
      (Some (lit "PROMISE-123"))
  else
    Done (lit "no_action") (trace ++ [StepNoAction]) None.

(** The part of [process_request] that reads the row. *)
Definition review (r : row) (id : Z) : list step :=
  let trace := [StepStart id] in
  let next_due := cell_text (NextPaymentDueDate r) in
  let total_payment_due := cell_number (TotalPaymentDue r) in
  let trace := trace ++ [StepDisplayDue next_due total_payment_due] in
  let fees_balance := cell_number (FeesBalance r) in
  let trace := trace ++ [StepFees fees_balance (gt fees_balance zero)] in
  let trace := trace ++ [StepAccountOnFile (AccountType r)] in
  let restrict_autopay := upper (strip (cell_text (restrict_autopay_draft r))) in
  let trace := trace ++ [StepRestrictAutopay restrict_autopay] in
  let days_late := default 0%Z (DaysLate r) in
  let trace := trace ++ [StepDaysLate days_late] in
  let trace :=
    if (15 <? days_late)%Z then
      trace ++ [StepDelinquencyQuestion; StepLlmSuggested (call_llm reason_prompt)]
    else trace in
  trace ++ [StepPaymentStatus (payment_status r)].

(** [process_request] *)
Definition process_request (df : list row) (p : payload) : response :=
  match borrower_id p with
  | None => Failed BorrowerIdRequired []
  | Some id =>
      match get_row df id with
      | None => Failed (NoBorrower id) []
      | Some r =>
          let trace := review r id in
          if eqb (payment_status r) (lit "already paid") then
            Done (lit "already_paid") (trace ++ [StepAlreadyPaid]) None
          else decide r p trace
      end
  end.

End Request.

Definition trace_of (res : response) : list step :=
  match res with Failed _ t => t | Done _ t _ => t end.

Definition result_of (res : response) : option text :=
  match res with Failed _ _ => None | Done r _ _ => Some r end.

Definition confirmation_of (res : response) : option text :=
  match res with Failed _ _ => None | Done _ _ c => c end.

Definition is_llm_step (s : step) : bool :=
  match s with StepLlmSuggested _ => true | _ => false end.

Definition is_account_collected (s : step) : bool :=
  match s with StepAccountCollected _ _ _ => true | _ => false end.

(** A sheet with one borrower, twenty days late, with no account on
    file, and a request that names no decision. *)
Definition late_row : row :=
  {| BorrowerId := 7; NextPaymentDueDate := Some (lit "2025-01-01");
     TotalPaymentDue := Some (QArith_base.Qmake 1200 1);
     FeesBalance := Some (QArith_base.Qmake 25 1);
     AccountType := None; restrict_autopay_draft := Some (lit "no");
     DaysLate := Some 20%Z; PaymentStatus := Some (lit "due");
     TotalAmountDue := Some (QArith_base.Qmake 1500 1) |}.

(** The same borrower with the status written [" Already Paid "]. *)
Definition paid_row : row :=
  {| BorrowerId := 7; NextPaymentDueDate := NextPaymentDueDate late_row;
     TotalPaymentDue := TotalPaymentDue late_row; FeesBalance := FeesBalance late_row;
     AccountType := None; restrict_autopay_draft := None;
     DaysLate := Some 20%Z; PaymentStatus := Some (lit " Already Paid ");
     TotalAmountDue := TotalAmountDue late_row |}.

Definition bare_request : payload :=
  {| borrower_id := Some 7%Z; decision := None; ach_account_type := None;
     RoutingNumber := None; LastFourOfAccount := None |}.

Definition mock_llm (prompt : text) : text := lit "Could you share what led to this?".

End MakePayment.

(** ** The router that drives the agent from the state machine:
    [app/routers/rag_system_router.py] *)

Module RagRouter.

Import RagService.

(** An entry of [active_calls]; [None] is a missing key. *)
Record call_info := {
  call_sid : text;
  to_number : option text;
  from_number : option text
}.

(** The two module-level objects the handlers share. *)
Record state := {
  active_calls : gmap text call_info;
  rag_service : service
}.

Definition with_rag (st : state) (svc : service) : state :=
  {| active_calls := active_calls st; rag_service := svc |}.

(** [make_call]: the entry stored under the identifier the telephony
    provider gave to the new call. *)
Definition make_call (st : state) (twilio_number : option text) (sid to : text) : state :=
  {| active_calls :=
       <[sid := {| call_sid := sid; to_number := Some to;
                   from_number := twilio_number |}]> (active_calls st);
     rag_service := rag_service st |}.

(** The caller key chosen on [start]: the number dialled when the call
    is known, else the call identifier. *)
Definition borrower_key (st : state) (callSid : text) : option text :=
  match active_calls st !! callSid with
  | Some existing_call => to_number existing_call
  | None => Some callSid
  end.

(** The [start] branch of [twilio_receiver]. *)
Definition on_start (st : state) (streamSid callSid : text) : state :=
  let key := borrower_key st callSid in
  {| active_calls :=
       <[streamSid := {| call_sid := callSid; to_number := None;
                         from_number := key |}]> (active_calls st);
     rag_service :=
       match key with
       | Some k => clear_session (rag_service st) k
       | None => rag_service st
       end |}.

(** [phone = active_calls.get(sid, {}).get("from_number")], when it is
    a non-empty string. *)
Definition phone_of (st : state) (sid : text) : option text :=
  match active_calls st !! sid with
  | Some c =>
      match from_number c with
      | Some p => if bool_decide (p = []) then None else Some p
      | None => None
      end
  | None => None
  end.

(** What the receiver does, in order. *)
Inductive action :=
| Clear (streamSid : text)
| Media (streamSid : text) (audio : Relay.bytes)
| InjectAgentMessage (message : response).

Inductive entry :=
| Received (m : Relay.agent_message)
| Did (a : action).

(** [if text:] on a response; the summary always has text. *)
Definition nonempty (r : response) : bool :=
  match render r with
  | Some t => negb (eqb t [])
  | None => true
  end.

(** [if text.strip():] on a response. *)
Definition spoken (r : response) : bool :=
  match render r with
  | Some t => negb (eqb (strip t) [])
  | None => true
  end.

Section Receiver.

Variable fromisoformat : text -> option date.

(** The initial greeting, sent before the loop. *)
Definition greet (st : state) (sid : text) : state * list action :=
  match phone_of st sid with
  | None => (st, [])
  | Some phone =>
      let '(svc, r) := process_utterance fromisoformat (rag_service st) phone [] in
      (with_rag st svc,
       if nonempty (res_response r) then [InjectAgentMessage (res_response r)] else [])
  end.

(** A user turn with text: it goes through the state machine unless the
    call has no phone or is already in [transfer]; a result with the
    transfer flag ends the loop. *)
Definition on_user_text (st : state) (sid content : text)
  : state * list action * bool :=
  match phone_of st sid with
  | None => (st, [], true)
  | Some phone =>
      let '(svc, s) := get_session (rag_service st) phone in
      if bool_decide (sess_stage s = Transfer) then (with_rag st svc, [], true)
      else
        let '(svc, r) := process_utterance fromisoformat svc phone content in
        (with_rag st svc,
         if spoken (res_response r) then [InjectAgentMessage (res_response r)] else [],
         negb (res_transfer r))
  end.

Definition on_message (st : state) (sid : text) (m : Relay.agent_message)
  : state * list action * bool :=
  match m with
  | Relay.TextMessage Relay.UserStartedSpeaking => (st, [Clear sid], true)
  | Relay.TextMessage (Relay.ConversationText role content) =>
      if eqb role (lit "user") && negb (eqb (strip content) [])
      then on_user_text st sid content
      else (st, [], true)
  | Relay.TextMessage _ => (st, [], true)
  | Relay.InvalidText => (st, [], false)
  | Relay.BinaryMessage audio => (st, [Media sid audio], true)
  end.

(** The loop over the messages of the agent connection. *)
Fixpoint receive (st : state) (sid : text) (messages : list Relay.agent_message)
  : state * list entry :=
  match messages with
  | [] => (st, [])
  | m :: rest =>
      let '(st', actions, alive) := on_message st sid m in
      let '(st'', log) := if alive then receive st' sid rest else (st', []) in
      (st'', Received m :: map Did actions ++ log)
  end.

(** [deepgram_receiver]: the greeting, then the loop. *)
Definition deepgram_receiver (st : state) (sid : text)
    (messages : list Relay.agent_message) : state * list entry :=
  let '(st', actions) := greet st sid in
  let '(st'', log) := receive st' sid messages in
  (st'', map Did actions ++ log).

End Receiver.

(** The responses a log records as injected. *)
Fixpoint injected (log : list entry) : list response :=
  match log with
  | [] => []
  | Did (InjectAgentMessage r) :: rest => r :: injected rest
  | _ :: rest => injected rest
  end.

(** The audio a log records as forwarded to the telephony leg. *)
Fixpoint played (log : list entry) : list Relay.bytes :=
  match log with
  | [] => []
  | Did (Media _ audio) :: rest => audio :: played rest
  | _ :: rest => played rest
  end.

(** The texts of the user turns the loop passes to [on_user_text], up to
    a message that makes it raise. *)
Fixpoint user_turns (messages : list Relay.agent_message) : list text :=
  match messages with
  | [] => []
  | Relay.InvalidText :: _ => []
  | Relay.TextMessage (Relay.ConversationText role content) :: rest =>
      if eqb role (lit "user") && negb (eqb (strip content) [])
      then content :: user_turns rest
      else user_turns rest
  | _ :: rest => user_turns rest
  end.

(** The results up to and including the first that asks for a transfer. *)
Fixpoint until_transfer (rs : list result) : list result :=
  match rs with
  | [] => []
  | r :: rest => r :: if res_transfer r then [] else until_transfer rest
  end.

(** A call in progress on stream [MZ0001] for the caller of [Scenario]. *)
Definition in_progress (svc : service) : state :=
  {| active_calls :=
       {[ Scenario.stream := {| call_sid := lit "CA0001"; to_number := None;
                                from_number := Some Scenario.caller |} ]};
     rag_service := svc |}.

Definition user_says (content : string) : Relay.agent_message :=
  Relay.TextMessage (Relay.ConversationText (lit "user") (lit content)).

End RagRouter.

(** * Properties *)

(** ** The embedding on the source's own cases *)

Section Checks.

Import RagService Scenario.

(** [str.replace] takes the leftmost occurrences and does not overlap. *)
Example replace_leftmost :
  replace (lit "aa") (lit "b") (lit "aaa") = lit "ba".
Proof. reflexivity. Qed.

(** The comments next to [formats] in [_handle_verify_dob]. *)
Example formats_of_1986_09_14 :
  dob_formats jane_dob
  = map lit ["09141986"; "14091986"; "19860914"; "091486"; "140986"]%string.
Proof. reflexivity. Qed.

(** The greeting, then "yes": the stage moves to [verify_dob]. *)
Example yes_confirms_identity :
  map res_stage (process_all fromisoformat_date fresh caller [lit ""; lit "yes"]).2
  = [ConfirmIdentity; VerifyDob].
Proof. vm_compute. reflexivity. Qed.

(** "no" at the identity confirmation transfers at once. *)
Example no_transfers :
  (process_all fromisoformat_date fresh caller [lit ""; lit "no"]).2
  = [ {| res_response := RespGreeting (lit "Jane Doe"); res_stage := ConfirmIdentity;
         res_transfer := false |};
      {| res_response := RespWrongPerson; res_stage := Transfer;
         res_transfer := true |} ].
Proof. vm_compute. reflexivity. Qed.

(** A date of birth given in digits is verified. *)
Example digits_verify_dob :
  map res_stage
    (process_all fromisoformat_date (at_step VerifyDob) caller [lit "09/14/1986"]).2
  = [VerifyAccount].
Proof. vm_compute. reflexivity. Qed.

(** The entry for "thirty first" comes after the one for "thirty" and
    never applies. *)
Example thirty_first_reads_301 : dob_digits (lit "thirty first") = lit "301".
Proof. vm_compute. reflexivity. Qed.

(** A whole call: greeting, identity, date of birth, account, address. *)
Example verified_call :
  map res_stage
    (process_all fromisoformat_date fresh caller
       [lit ""; lit "Yes, speaking"; lit "14 09 1986"; lit "oh one two three";
        lit "seven forty two, I mean 742"]).2
  = [ConfirmIdentity; VerifyDob; VerifyAccount; VerifyAddress; PaymentDiscussion].
Proof. vm_compute. reflexivity. Qed.

End Checks.

(** ** Strings *)

Section Strings.

Lemma startswith_spec w s : startswith w s = true <-> exists post, s = w ++ post.
Proof.
  revert s. induction w as [|a w IH]; intros s; cbn [startswith].
  - split; [eauto|done].
  - destruct s as [|b s].
    + split; [done|]. by intros (post & ?).
    + rewrite andb_true_iff, bool_decide_eq_true, IH. split.
      * intros (-> & post & ->). by exists post.
      * intros (post & Heq). cbn in Heq. simplify_eq. eauto.
Qed.

(** [w in s] holds exactly when [s] is [w] between two texts. *)
Lemma contains_spec w s :
  contains w s = true <-> exists pre post, s = pre ++ w ++ post.
Proof.
  induction s as [|b s IH]; cbn [contains].
  - rewrite orb_false_r, startswith_spec. split.
    + intros (post & ->). by exists [], post.
    + intros (pre & post & Heq). symmetry in Heq.
      apply app_eq_nil in Heq as (-> & Heq). eauto.
  - rewrite orb_true_iff, startswith_spec, IH. split.
    + intros [(post & ->)|(pre & post & ->)].
      * by exists [], post.
      * by exists (b :: pre), post.
    + intros (pre & post & Heq). destruct pre as [|x pre]; cbn in Heq.
      * left. eauto.
      * right. simplify_eq. eauto.
Qed.

Lemma startswith_app w f r : startswith w f = true -> startswith w (f ++ r) = true.
Proof.
  rewrite !startswith_spec. intros (post & ->). exists (post ++ r).
  by rewrite app_assoc.
Qed.

Lemma startswith_length w f : startswith w f = true -> length w <= length f.
Proof. rewrite startswith_spec. intros (post & ->). rewrite length_app. lia. Qed.

(** A match cannot run over a character the word does not contain. *)
Lemma startswith_before w f c u :
  ~ In c w -> startswith w (f ++ c :: u) = true -> startswith w f = true.
Proof.
  revert f. induction w as [|a w IH]; intros f Hc; [done|].
  destruct f as [|b f]; cbn [startswith app].
  - rewrite andb_true_iff, bool_decide_eq_true. intros [-> _].
    exfalso. apply Hc. by left.
  - rewrite !andb_true_iff. intros [Hab Hw]. split; [done|].
    apply IH; [|done]. intros ?. apply Hc. by right.
Qed.

(** A replacement works on both sides of such a character separately. *)
Lemma replace_from_separated old new c u : forall f skip,
  old <> [] -> ~ In c old -> skip <= length f ->
  replace_from old new skip (f ++ c :: u)
  = replace_from old new skip f ++ c :: replace old new u.
Proof.
  induction f as [|a f IH]; intros skip Hne Hc Hskip.
  - cbn [length] in Hskip. assert (skip = 0) as -> by lia.
    cbn [app replace_from]. unfold replace.
    destruct (startswith old (c :: u)) eqn:Hs; [|done].
    apply (startswith_before old [] c u Hc) in Hs. by destruct old.
  - cbn [app replace_from]. destruct skip as [|skip].
    + destruct (startswith old (a :: f ++ c :: u)) eqn:Hs.
      * apply (startswith_before old (a :: f) c u Hc) in Hs. rewrite Hs.
        pose proof (startswith_length _ _ Hs) as Hlen. cbn [length] in Hlen.
        rewrite IH; [by rewrite <- app_assoc|done|done|lia].
      * destruct (startswith old (a :: f)) eqn:Hs'.
        { apply (startswith_app _ _ (c :: u)) in Hs'. cbn [app] in Hs'. congruence. }
        cbn [app]. rewrite IH; [done|done|done|lia].
    + cbn [length] in Hskip. apply IH; [done|done|lia].
Qed.

Lemma replace_separated old new c f u :
  old <> [] -> ~ In c old ->
  replace old new (f ++ c :: u) = replace old new f ++ c :: replace old new u.
Proof. intros. apply replace_from_separated; [done|done|lia]. Qed.

Lemma replace_all_separated table c : forall f u,
  Forall (fun wn => wn.1 <> [] /\ ~ In c wn.1) table ->
  replace_all table (f ++ c :: u) = replace_all table f ++ c :: replace_all table u.
Proof.
  unfold replace_all. induction table as [|[w n] table IH]; intros f u Hall; [done|].
  apply Forall_cons in Hall as [[Hne Hc] Hall]. cbn [fold_left fst snd] in *.
  rewrite replace_separated by done. by apply IH.
Qed.

Lemma digits_app a b : digits (a ++ b) = digits a ++ digits b.
Proof. unfold digits. apply List.filter_app. Qed.

Lemma separator_lower c : separator c = true -> lower_char c = c.
Proof.
  unfold separator, lower_char. destruct (is_upper c); [done|]. done.
Qed.

Lemma separator_digit c : separator c = true -> isdigit c = false.
Proof.
  unfold separator. destruct (isdigit c); [|done].
  by rewrite andb_false_r.
Qed.

(** A separator occurs in no word made of lower-case letters. *)
Lemma separator_not_in c w :
  separator c = true -> forallb is_lower w = true -> ~ In c w.
Proof.
  intros Hsep Hw Hin. rewrite forallb_forall in Hw. specialize (Hw c Hin).
  unfold separator in Hsep. rewrite Hw in Hsep.
  by rewrite andb_false_r in Hsep.
Qed.

End Strings.

(** ** The session table *)

Section SessionTable.

Import RagService.

Variable fromisoformat : text -> option date.

Local Abbreviation process := (process_utterance fromisoformat).
Local Abbreviation advance := (RagService.advance fromisoformat).

Lemma get_session_stored svc phone s :
  sessions svc !! phone = Some s -> get_session svc phone = (svc, s).
Proof. intros H. unfold get_session. by rewrite H. Qed.

Lemma get_session_created svc phone :
  sessions svc !! phone = None ->
  get_session svc phone = (with_session svc phone new_session, new_session).
Proof. intros H. unfold get_session. by rewrite H. Qed.

Lemma with_session_lookup svc phone s :
  sessions (with_session svc phone s) !! phone = Some s.
Proof. unfold with_session; simpl. apply lookup_insert_eq. Qed.

(** The caller's session after an utterance, for a session that exists. *)
Lemma process_session svc phone u s :
  session_of svc phone = Some s ->
  session_of (process svc phone u).1 phone
  = Some (advance (db svc (strip phone)) s (strip u)).
Proof.
  unfold session_of, process_utterance, RagService.advance. intros Hs.
  rewrite (get_session_stored _ _ _ Hs).
  case_bool_decide; [done|].
  destruct (db svc (strip phone)) as [b| |].
  - fold (logged s (strip u)).
    destruct (route fromisoformat (logged s (strip u)) b (strip u)) as [s' o].
    cbn [fst with_session sessions]. by rewrite lookup_insert_eq.
  - cbn [fst with_session sessions]. by rewrite lookup_insert_eq.
  - done.
Qed.

(** The dictionary returned for a caller whose session is in [transfer]. *)
Lemma process_in_transfer svc phone u s :
  session_of svc phone = Some s -> sess_stage s = Transfer ->
  process svc phone u
  = (svc, {| res_response := RespEmpty; res_stage := Transfer; res_transfer := true |}).
Proof.
  unfold session_of, process_utterance. intros Hs Ht.
  rewrite (get_session_stored _ _ _ Hs). by rewrite bool_decide_eq_true_2.
Qed.

End SessionTable.

(** ** Attempt budgets and the terminal stage *)

Section Budget.

Import RagService.

Variable fromisoformat : text -> option date.

Local Abbreviation process := (process_utterance fromisoformat).
Local Abbreviation process_all := (RagService.process_all fromisoformat).
Local Abbreviation advance := (RagService.advance fromisoformat).
Local Abbreviation failed_attempts := (RagService.failed_attempts fromisoformat).

Lemma rank_inj a b : rank a = rank b -> a = b.
Proof. destruct a, b; simpl; intros H; try reflexivity; discriminate H. Qed.

Lemma logged_stage s u : sess_stage (logged s u) = sess_stage s.
Proof. unfold logged. by case_bool_decide. Qed.

Lemma logged_attempts s u : attempts (logged s u) = attempts s.
Proof. unfold logged. by case_bool_decide. Qed.

Lemma logged_partial_dob s u : partial_dob (logged s u) = partial_dob s.
Proof. unfold logged. by case_bool_decide. Qed.

(** Breaks the threshold tests of the handlers into arithmetic facts. *)
Ltac thresholds :=
  repeat match goal with
  | H : (_ <=? _) = true |- _ => apply Nat.leb_le in H
  | H : (_ <=? _) = false |- _ => apply Nat.leb_gt in H
  | |- context [?a <=? ?b] => destruct (Nat.leb_spec a b)
  end.

(** Reads the fields of an updated session. *)
Ltac fields :=
  cbn [fst snd sess_stage attempts partial_dob verified_dob verified_account
       verified_address name_confirmed conversation_history
       set_stage set_attempts set_partial_dob set_verified_dob
       set_verified_account set_verified_address set_name_confirmed
       set_history returns rank] in *.

Ltac handler_cases :=
  repeat case_match; fields; thresholds; repeat split; intros; simplify_eq;
  fields;
  repeat match goal with H : sess_stage _ = _ |- _ => rewrite !H end;
  fields; try lia; auto.

(** What one handler call does to the stage and the counter: the stage
    never moves back; an increment of the counter at a step with
    threshold [L] transfers exactly when the counter reaches [L]; and a
    session that stays at its step keeps or increments its counter. *)
Lemma route_step s b u X L :
  sess_stage s = X -> attempt_limit X = Some L ->
  let s' := (route fromisoformat s b u).1 in
  rank X <= rank (sess_stage s')
  /\ (attempts s' = attempts s + 1 ->
      sess_stage s' = if L <=? attempts s + 1 then Transfer else X)
  /\ (sess_stage s' = X -> attempts s' = attempts s \/ attempts s' = attempts s + 1).
Proof.
  intros HX HL. unfold route. rewrite HX.
  destruct X; cbn [attempt_limit] in HL; simplify_eq.
  - unfold handle_confirm_identity. handler_cases.
  - unfold handle_verify_dob. handler_cases.
  - unfold handle_verify_account. handler_cases.
  - unfold handle_verify_address, handle_verification_complete. handler_cases.
Qed.

(** No handler moves the stage back. *)
Lemma route_monotone s b u :
  rank (sess_stage s) <= rank (sess_stage (route fromisoformat s b u).1).
Proof.
  unfold route.
  destruct (sess_stage s) eqn:Hs;
    unfold handle_initial_greeting, handle_confirm_identity, handle_verify_dob,
      handle_verify_account, handle_verify_address, handle_verification_complete,
      handle_payment_discussion;
    repeat case_match; fields; rewrite ?Hs; fields; lia.
Qed.

Lemma advance_step found s u X L :
  sess_stage s = X -> attempt_limit X = Some L ->
  let s' := advance found s u in
  rank X <= rank (sess_stage s')
  /\ (attempts s' = attempts s + 1 ->
      sess_stage s' = if L <=? attempts s + 1 then Transfer else X)
  /\ (sess_stage s' = X -> attempts s' = attempts s \/ attempts s' = attempts s + 1).
Proof.
  intros HX HL. unfold RagService.advance.
  case_bool_decide as Ht; [rewrite Ht in HX; by subst X|].
  destruct found as [b| |].
  - pose proof (route_step (logged s u) b u X L) as Hr.
    rewrite logged_stage, logged_attempts in Hr. by apply Hr.
  - fields. repeat split; intros; subst X; try lia; try discriminate.
    destruct (sess_stage s); simpl; lia.
  - repeat split; intros; subst X; try lia; auto.
Qed.

Lemma advance_monotone found s u :
  rank (sess_stage s) <= rank (sess_stage (advance found s u)).
Proof.
  unfold RagService.advance. case_bool_decide; [done|].
  destruct found as [b| |]; [|fields; destruct (sess_stage s); simpl; lia|done].
  rewrite <- (logged_stage s u) at 1. apply route_monotone.
Qed.

Lemma process_all_cons svc phone u us :
  process_all svc phone (u :: us)
  = ((process_all (process svc phone u).1 phone us).1,
     (process svc phone u).2 :: (process_all (process svc phone u).1 phone us).2).
Proof.
  cbn [RagService.process_all].
  destruct (process svc phone u) as [svc' r]. cbn [fst snd].
  by destruct (process_all svc' phone us).
Qed.

Lemma stage_of_session svc phone s :
  session_of svc phone = Some s -> stage_of svc phone = Some (sess_stage s).
Proof. unfold stage_of, session_of. by intros ->. Qed.

(** Once in [transfer], a session stays there and every utterance gets
    the same empty answer. *)
Lemma transfer_terminal svc phone us :
  stage_of svc phone = Some Transfer ->
  (process_all svc phone us).1 = svc
  /\ Forall (fun r => r = transfer_result) (process_all svc phone us).2.
Proof.
  intros Ht. induction us as [|u us IH]; [by split; [|constructor]|].
  unfold stage_of in Ht.
  destruct (sessions svc !! strip phone) as [s|] eqn:Hs; [|done].
  cbn in Ht. rewrite process_all_cons.
  rewrite (process_in_transfer fromisoformat svc phone u s Hs) by congruence.
  cbn [fst snd]. destruct IH as [-> IH]. split; [done|by constructor].
Qed.

(** The counting invariant: while a call stays at step [X], the counter
    holds the number [k] of failed attempts made there, which is below
    the threshold; a call past [X] never comes back. *)
Lemma failed_attempts_exhaust X L phone us :
  attempt_limit X = Some L ->
  forall svc s k,
    session_of svc phone = Some s ->
    rank X <= rank (sess_stage s) ->
    (sess_stage s = Transfer \/ (k < L /\ (sess_stage s = X -> attempts s = k))) ->
    L <= k + failed_attempts X svc phone us ->
    stage_of (process_all svc phone us).1 phone = Some Transfer.
Proof.
  intros HL. induction us as [|u us IH]; intros svc s k Hs Hrank Hinv Hk.
  - cbn [RagService.failed_attempts RagService.process_all fst] in *.
    rewrite (stage_of_session _ _ _ Hs).
    destruct Hinv as [->|[? _]]; [done|lia].
  - rewrite process_all_cons; cbn [fst].
    cbn [RagService.failed_attempts] in Hk.
    pose proof (process_session fromisoformat svc phone u s Hs) as Hs'.
    rewrite Hs, Hs' in Hk. cbn [counted] in Hk.
    set (s' := advance (db svc (strip phone)) s (strip u)) in *.
    pose proof (advance_monotone (db svc (strip phone)) s (strip u)) as Hmono.
    fold s' in Hmono.
    eapply (IH _ s' (k + if bool_decide (sess_stage s = X)
                            && (attempts s' =? attempts s + 1) then 1 else 0));
      [done|lia| |lia].
    destruct (decide (sess_stage s = X)) as [HX|HX].
    + rewrite bool_decide_eq_true_2 by done. cbn [andb].
      destruct (advance_step (db svc (strip phone)) s (strip u) X L HX HL)
        as (_ & Hinc & Hstay). fold s' in Hinc, Hstay.
      destruct Hinv as [Ht|[Hlt Hatt]];
        [rewrite Ht in HX; subst X; discriminate|].
      specialize (Hatt HX).
      destruct (Nat.eqb_spec (attempts s') (attempts s + 1)) as [Heq|Hne].
      * specialize (Hinc Heq). rewrite Hatt in Hinc.
        destruct (Nat.leb_spec L (k + 1)); [by left|].
        right. split; [lia|]. intros _. lia.
      * right. split; [lia|]. intros Hst. destruct (Hstay Hst); lia.
    + rewrite bool_decide_eq_false_2 by done. cbn [andb].
      destruct Hinv as [Ht|[Hlt _]].
      * left. unfold s', RagService.advance.
        rewrite bool_decide_eq_true_2 by done. exact Ht.
      * right. split; [lia|]. intros Hst. exfalso. apply HX.
        apply rank_inj. rewrite <- Hst in Hrank |- *. lia.
Qed.

End Budget.

(** ** Date of birth across several turns *)

Section DateOfBirth.

Import RagService.

Variable fromisoformat : text -> option date.

Local Abbreviation process := (process_utterance fromisoformat).
Local Abbreviation process_all := (RagService.process_all fromisoformat).

(** [process_utterance] on a caller the datastore knows, outside
    [transfer]: the routed handler runs on the session with the user turn
    logged. *)
Lemma process_found svc phone u s b :
  session_of svc phone = Some s ->
  sess_stage s <> Transfer ->
  db svc (strip phone) = Found b ->
  process svc phone u
  = (with_session svc (strip phone)
       (route fromisoformat (logged s (strip u)) b (strip u)).1,
     result_of (route fromisoformat (logged s (strip u)) b (strip u)).2).
Proof.
  unfold session_of, process_utterance. intros Hs Ht Hdb.
  rewrite (get_session_stored _ _ _ Hs).
  rewrite bool_decide_eq_false_2 by done. rewrite Hdb.
  fold (logged s (strip u)).
  by destruct (route fromisoformat (logged s (strip u)) b (strip u)).
Qed.

Lemma session_of_with_session svc phone s :
  session_of (with_session svc (strip phone) s) phone = Some s.
Proof. unfold session_of. apply with_session_lookup. Qed.

Lemma dob_formats_length d fmt : In fmt (dob_formats d) -> length fmt <= 8.
Proof.
  unfold dob_formats. cbn [In].
  intros [<-|[<-|[<-|[<-|[<-|[]]]]]]; cbn; lia.
Qed.

Lemma dob_formats_long d fmt : In fmt (dob_formats d) -> 6 <= length fmt.
Proof.
  unfold dob_formats. cbn [In].
  intros [<-|[<-|[<-|[<-|[<-|[]]]]]]; cbn; lia.
Qed.

(** The two matching loops accept exactly when a rendering occurs in the
    accumulated digits or equals the digits of the turn. *)
Lemma dob_matches_spec d accumulated current :
  dob_matches (dob_formats d) accumulated current = true
  <-> (exists fmt pre post, In fmt (dob_formats d)
                            /\ accumulated = pre ++ fmt ++ post)
      \/ In current (dob_formats d).
Proof.
  unfold dob_matches. rewrite orb_true_iff, !existsb_exists. split.
  - intros [(fmt & Hin & Hm)|(fmt & Hin & Hm)].
    + left. exists fmt. apply orb_true_iff in Hm as [Heq|Hsub].
      * apply bool_decide_eq_true in Heq. exists [], []. split; [done|].
        by rewrite app_nil_r.
      * apply andb_true_iff in Hsub as [_ Hsub].
        apply contains_spec in Hsub as (pre & post & ->). eauto.
    + right. apply bool_decide_eq_true in Hm. by subst.
  - intros [(fmt & pre & post & Hin & ->)|Hin].
    + left. exists fmt. split; [done|]. apply orb_true_iff. right.
      apply andb_true_iff. split.
      * apply Nat.leb_le. pose proof (dob_formats_long d fmt Hin).
        rewrite !length_app. lia.
      * apply contains_spec. eauto.
    + right. exists current. split; [done|]. by apply bool_decide_eq_true.
Qed.

(** A rendering equal to the accumulated digits matches. *)
Lemma dob_matches_accumulated formats accumulated current :
  In accumulated formats -> dob_matches formats accumulated current = true.
Proof.
  intros Hin. unfold dob_matches. apply orb_true_iff. left.
  apply existsb_exists. exists accumulated. split; [done|].
  apply orb_true_iff. left. by apply bool_decide_eq_true_2.
Qed.

(** The verified branch of [_handle_verify_dob]. *)
Lemma verify_dob_match s b u d :
  dob_obj fromisoformat b = Some d ->
  dob_matches (dob_formats d) (partial_dob s ++ dob_digits u) (dob_digits u) = true ->
  (handle_verify_dob fromisoformat s b u).2 = Returned dob_verified_result
  /\ verified_dob (handle_verify_dob fromisoformat s b u).1 = true
  /\ sess_stage (handle_verify_dob fromisoformat s b u).1 = VerifyAccount.
Proof.
  intros Hd Hm. unfold handle_verify_dob. rewrite Hd.
  cbn [set_partial_dob partial_dob]. by rewrite Hm.
Qed.

(** The continuation branch: too few digits, and no match yet. *)
Lemma verify_dob_partial s b u d :
  dob_obj fromisoformat b = Some d ->
  sess_stage s = VerifyDob ->
  dob_matches (dob_formats d) (partial_dob s ++ dob_digits u) (dob_digits u) = false ->
  length (partial_dob s ++ dob_digits u) < 8 ->
  handle_verify_dob fromisoformat s b u
  = (set_partial_dob (partial_dob s ++ dob_digits u) s, Returned continue_result).
Proof.
  intros Hd Hst Hm Hlen. unfold handle_verify_dob. rewrite Hd.
  cbn [set_partial_dob partial_dob]. rewrite Hm.
  destruct (Nat.leb_spec 8 (length (partial_dob s ++ dob_digits u))); [lia|].
  unfold returns, continue_result. cbn [sess_stage set_partial_dob]. by rewrite Hst.
Qed.

(** The digits heard so far hold none of the renderings of [d]. *)
Lemma dob_matches_none d accumulated current :
  dob_matches (dob_formats d) accumulated current = false ->
  forall f pre post, In f (dob_formats d) -> accumulated <> pre ++ f ++ post.
Proof.
  intros Hm f pre post Hin Heq.
  assert (Ht : dob_matches (dob_formats d) accumulated current = true); [|congruence].
  apply dob_matches_spec. left. by exists f, pre, post.
Qed.

(** The digits of the turn are the end of the accumulated digits, so a
    match is always an occurrence in the accumulated digits. *)
Lemma dob_matches_occurrence d partial current :
  dob_matches (dob_formats d) (partial ++ current) current = true ->
  exists f pre post, In f (dob_formats d) /\ partial ++ current = pre ++ f ++ post.
Proof.
  intros [(f & pre & post & Hin & Heq)|Hin]%dob_matches_spec.
  - by exists f, pre, post.
  - exists current, partial, []. split; [done|]. by rewrite app_nil_r.
Qed.

Lemma split_dob_run b d fmt phone :
  dob_obj fromisoformat b = Some d ->
  In fmt (dob_formats d) ->
  forall us svc s,
    session_of svc phone = Some s ->
    sess_stage s = VerifyDob ->
    db svc (strip phone) = Found b ->
    partial_dob s ++ concat (map heard us) = fmt ->
    us <> [] ->
    exists us1 u us2,
      us = us1 ++ u :: us2
      /\ (forall p v q, us1 = p ++ v :: q ->
            let said := partial_dob s ++ concat (map heard (p ++ [v])) in
            let out := process (process_all svc phone p).1 phone v in
            length said < 8
            /\ (forall f pre post, In f (dob_formats d) -> said <> pre ++ f ++ post)
            /\ out.2 = continue_result
            /\ exists s', session_of out.1 phone = Some s'
                          /\ sess_stage s' = VerifyDob
                          /\ attempts s' = attempts s
                          /\ verified_dob s' = verified_dob s
                          /\ partial_dob s' = said)
      /\ (exists f pre post,
            In f (dob_formats d)
            /\ partial_dob s ++ concat (map heard (us1 ++ [u])) = pre ++ f ++ post)
      /\ (process (process_all svc phone us1).1 phone u).2 = dob_verified_result
      /\ exists s', session_of (process (process_all svc phone us1).1 phone u).1 phone
                    = Some s'
                    /\ sess_stage s' = VerifyAccount
                    /\ verified_dob s' = true
                    /\ attempts s' = 0
                    /\ partial_dob s' = [].
Proof.
  intros Hd Hfmt. induction us as [|u us IH]; intros svc s Hs Hst Hdb Hsplit Hne;
    [done|]. clear Hne.
  assert (Hnt : sess_stage s <> Transfer) by (rewrite Hst; discriminate).
  pose proof (process_found svc phone u s b Hs Hnt Hdb) as Hp.
  unfold route in Hp. rewrite logged_stage, Hst in Hp.
  set (sl := logged s (strip u)) in *.
  assert (Hpl : partial_dob sl = partial_dob s) by apply logged_partial_dob.
  assert (Hsl : sess_stage sl = VerifyDob) by (unfold sl; by rewrite logged_stage).
  cbn [map concat] in Hsplit. fold (heard u) in Hsplit.
  destruct (dob_matches (dob_formats d) (partial_dob sl ++ dob_digits (strip u))
              (dob_digits (strip u))) eqn:Hm.
  - pose proof (dob_matches_occurrence _ _ _ Hm) as Hocc.
    assert (Hv : handle_verify_dob fromisoformat sl b (strip u)
                 = (set_partial_dob []
                      (set_attempts 0
                         (set_stage VerifyAccount
                            (set_verified_dob true
                               (set_partial_dob
                                  (partial_dob sl ++ dob_digits (strip u)) sl)))),
                    Returned dob_verified_result)).
    { unfold handle_verify_dob. rewrite Hd.
      cbn [set_partial_dob partial_dob]. by rewrite Hm. }
    exists [], u, us. cbn [RagService.process_all fst snd app].
    split; [done|]. split; [by intros [|??] ???|].
    split.
    { cbn [map concat]. rewrite app_nil_r. fold (heard u). unfold heard.
      by rewrite <- Hpl. }
    rewrite Hp, Hv. cbn [fst snd result_of]. split; [done|].
    eexists. split; [apply session_of_with_session|]. done.
  - assert (Hacc : partial_dob sl ++ dob_digits (strip u) <> fmt).
    { intros Heq. rewrite dob_matches_accumulated in Hm; [done|by rewrite Heq]. }
    assert (Hrest : concat (map heard us) <> []).
    { intros Hnil. apply Hacc. rewrite <- Hsplit, Hpl, Hnil.
      unfold heard. by rewrite !app_nil_r. }
    assert (Hlen : length (partial_dob sl ++ dob_digits (strip u)) < 8).
    { pose proof (dob_formats_length d fmt Hfmt) as H8.
      rewrite <- Hsplit, !length_app in H8. rewrite Hpl, length_app.
      fold (heard u).
      destruct (concat (map heard us)); [done|]. cbn [length] in H8. lia. }
    pose proof (dob_matches_none _ _ _ Hm) as Hnone.
    rewrite (verify_dob_partial sl b (strip u) d Hd Hsl Hm Hlen) in Hp.
    cbn [fst snd result_of] in Hp.
    set (s1 := set_partial_dob (partial_dob sl ++ dob_digits (strip u)) sl) in *.
    set (svc1 := with_session svc (strip phone) s1) in *.
    assert (Hp1 : partial_dob s1 = partial_dob s ++ heard u)
      by (unfold s1; cbn [partial_dob set_partial_dob]; by rewrite Hpl).
    assert (Ha1 : attempts s1 = attempts s)
      by (unfold s1, sl; cbn [attempts set_partial_dob]; apply logged_attempts).
    assert (Hv1 : verified_dob s1 = verified_dob s)
      by (unfold s1, sl, logged; cbn [verified_dob set_partial_dob];
          by case_bool_decide).
    destruct (IH svc1 s1) as (us1 & u0 & us2 & Hus & Hbefore & Hocc & Hres & Hver).
    + apply session_of_with_session.
    + done.
    + done.
    + rewrite Hp1. by rewrite <- app_assoc.
    + intros ->. by apply Hrest.
    + exists (u :: us1), u0, us2. split; [by rewrite Hus|].
      split; [|split; [|split]].
      * intros [|u' p'] v q Heq; cbn [app] in Heq; injection Heq as <- Hq.
        -- cbn [app map concat RagService.process_all fst]. rewrite app_nil_r.
           fold (heard u). rewrite <- Hp1. rewrite Hp. cbn [fst snd].
           split; [by rewrite Hp1, <- Hpl|].
           split; [by rewrite Hp1, <- Hpl|]. split; [done|].
           exists s1. split; [apply session_of_with_session|]. done.
        -- destruct (Hbefore p' v q Hq) as (Hl & Hn & Hr & s' & Hs' & ? & ? & ? & Hpd).
           rewrite process_all_cons, Hp. cbn [fst snd app map concat].
           fold (heard u). rewrite Hp1, <- app_assoc in Hl, Hn, Hpd.
           split; [exact Hl|]. split; [exact Hn|]. split; [exact Hr|].
           exists s'. split; [exact Hs'|]. split; [done|].
           split; [congruence|]. split; [congruence|]. exact Hpd.
      * destruct Hocc as (f & pre & post & Hin & Heq).
        exists f, pre, post. split; [done|].
        rewrite <- Heq, Hp1. cbn [app map concat]. fold (heard u).
        by rewrite <- app_assoc.
      * by rewrite process_all_cons, Hp.
      * by rewrite process_all_cons, Hp.
Qed.

End DateOfBirth.

(** ** Account digits *)

Section Account.

Import RagService.

Lemma account_words_lower :
  forallb (fun wn => negb (eqb wn.1 []) && forallb is_lower wn.1) account_word_to_num
  = true.
Proof. vm_compute. reflexivity. Qed.

Lemma account_words_separated c :
  separator c = true ->
  Forall (fun wn => wn.1 <> [] /\ ~ In c wn.1) account_word_to_num.
Proof.
  intros Hsep. apply Forall_forall. intros wn Hin.
  apply list_elem_of_In in Hin.
  pose proof account_words_lower as Hall. rewrite forallb_forall in Hall.
  specialize (Hall wn Hin). cbn beta in Hall.
  apply andb_true_iff in Hall as [Hne Hlow].
  split; [|by apply separator_not_in].
  intros Heq. unfold eqb in Hne. by rewrite bool_decide_eq_true_2 in Hne.
Qed.

(** The digits extracted on either side of a separator. *)
Lemma account_digits_separated f c u :
  separator c = true ->
  account_digits (f ++ c :: u) = account_digits f ++ account_digits u.
Proof.
  intros Hsep. unfold account_digits, lower.
  rewrite map_app. cbn [map]. rewrite (separator_lower c Hsep).
  rewrite (replace_all_separated _ c _ _ (account_words_separated c Hsep)).
  rewrite digits_app. unfold digits at 2. cbn [List.filter].
  by rewrite (separator_digit c Hsep).
Qed.

(** The acceptance test, spelled out. *)
Lemma account_matches_spec account_4 extracted :
  account_matches account_4 extracted = true
  <-> account_4 = extracted
      \/ (4 <= length extracted
          /\ exists pre post, extracted = pre ++ account_4 ++ post).
Proof.
  unfold account_matches, eqb.
  rewrite orb_true_iff, andb_true_iff, bool_decide_eq_true, Nat.leb_le, contains_spec.
  done.
Qed.

(** The stage tells whether [_handle_verify_account] accepted. *)
Lemma verify_account_stage s b u :
  sess_stage s = VerifyAccount ->
  sess_stage (handle_verify_account s b u).1 = VerifyAddress
  <-> account_matches (default [] (account_number_last_four b)) (account_digits u) = true.
Proof.
  intros Hst. unfold handle_verify_account.
  destruct (account_matches _ _); cbn [fst returns sess_stage set_attempts set_stage];
    [done|].
  split; [|done].
  destruct (3 <=? attempts (set_attempts (attempts s + 1) s));
    cbn [fst returns sess_stage set_stage set_attempts]; rewrite ?Hst; discriminate.
Qed.

End Account.

Import RagService Scenario.




(** C7: when the datastore has no record for the caller, an utterance of
    a call not yet transferred, in particular the first one, is answered
    with stage [no_record], the transfer flag and the apology; the
    session is put in [transfer] at once, so that nothing is retried:
    every later utterance gets the empty transfer result. *)
Theorem no_record_transfers
    (fromisoformat : text -> option date) (svc : service) (phone u : text) :
  stage_of svc phone <> Some Transfer ->
  db svc (strip phone) = Absent ->
  let out := process_utterance fromisoformat svc phone u in
  out.2 = {| res_response := RespNoRecord; res_stage := NoRecord; res_transfer := true |}
  /\ render (res_response out.2)
     = Some (lit "I'm sorry, I couldn't locate your account in our system. Let me connect you to a representative who can assist you. Please hold.")
  /\ stage_of out.1 phone = Some Transfer
  /\ forall u', (process_utterance fromisoformat out.1 phone u').2 = transfer_result.
Proof.
  intros Hnt Hdb out.
  assert (Hres : out.2 = {| res_response := RespNoRecord; res_stage := NoRecord;
                            res_transfer := true |}
                 /\ exists s', session_of out.1 phone = Some s'
                               /\ sess_stage s' = Transfer).
  { unfold out, process_utterance, get_session, stage_of, session_of in *.
    destruct (sessions svc !! strip phone) as [s|] eqn:Hs.
    - case_bool_decide as Ht; [exfalso; apply Hnt; cbn; congruence|].
      rewrite Hdb. cbn [fst snd with_session sessions]. split; [done|].
      exists (set_stage Transfer s). by rewrite lookup_insert_eq.
    - cbn [db with_session sessions]. rewrite Hdb.
      rewrite bool_decide_eq_false_2 by done.
      cbn [fst snd with_session sessions]. split; [done|].
      exists (set_stage Transfer new_session). by rewrite lookup_insert_eq. }
  destruct Hres as (Hr & s' & Hs' & Hst).
  split; [exact Hr|]. split; [by rewrite Hr|].
  split; [by rewrite (stage_of_session _ _ _ Hs'), Hst|].
  intros u'. by rewrite (process_in_transfer fromisoformat _ _ u' s' Hs' Hst).
Qed.

(** A caller the datastore does not know, on the first utterance. *)
Lemma no_record_transfers_witness :
  let stranger := lit "+15550000000" in
  let out := process_utterance fromisoformat_date fresh stranger (lit "hello") in
  stage_of fresh stranger <> Some Transfer
  /\ db fresh (strip stranger) = Absent
  /\ res_stage out.2 = NoRecord
  /\ res_transfer out.2 = true
  /\ stage_of out.1 stranger = Some Transfer.
Proof.
  intros stranger out.
  assert (H1 : stage_of fresh stranger <> Some Transfer) by (vm_compute; discriminate).
  assert (H2 : db fresh (strip stranger) = Absent) by (vm_compute; reflexivity).
  destruct (no_record_transfers fromisoformat_date fresh stranger (lit "hello") H1 H2)
    as (Hr & _ & Hs & _).
  fold out in Hr, Hs. rewrite Hr. auto.
Defined.

(** C2 on the code: after the greeting and a "yes", the utterance
    "September fourteen nineteen eighty six" is normalised to the nine
    digits 091419806, which match none of the renderings of 1986-09-14;
    the turn counts as a failed attempt and the stage stays
    [verify_dob]. *)
Theorem spoken_year_is_not_verified :
  let run := process_all fromisoformat_date fresh caller
               [lit ""; lit "yes"; spoken_dob] in
  dob_obj fromisoformat_date jane = Some jane_dob
  /\ dob_formats jane_dob
     = map lit ["09141986"; "14091986"; "19860914"; "091486"; "140986"]%string
  /\ dob_digits spoken_dob = lit "091419806"
  /\ map res_stage run.2 = [ConfirmIdentity; VerifyDob; VerifyDob]
  /\ map res_response run.2 = [RespGreeting (lit "Jane Doe"); RespAskDob; RespDobMismatch 1]
  /\ (verified_dob <$> session_of run.1 caller) = Some false
  /\ (attempts <$> session_of run.1 caller) = Some 1.
Proof. vm_compute. repeat split. Qed.

(** C3: let a session be at [verify_dob] with nothing accumulated, for a
    caller whose stored date of birth is [d], and let the digits heard in
    a sequence of utterances (number words and month names replaced by
    digits) spell, put end to end, one of the five renderings of [d].
    Then the utterances split into the turns [us1], a turn [u] and the
    rest, such that:
    - after each turn of [us1] the digits heard so far are fewer than
      eight and hold no rendering of [d]; that turn is answered by the
      request to continue, the stage is still [verify_dob], the attempt
      counter and the flag are what they were at the start, and the
      digits heard so far are kept in the session;
    - with [u] the digits heard so far hold a rendering of [d]; [u]
      verifies the date of birth: the stage becomes [verify_account],
      the flag is set, and the counter and the kept digits are reset. *)
Theorem split_dob_verifies
    (fromisoformat : text -> option date) (svc : service) (phone : text)
    (s : session) (b : borrower) (d : date) (fmt : text) (us : list text) :
  session_of svc phone = Some s ->
  sess_stage s = VerifyDob ->
  partial_dob s = [] ->
  db svc (strip phone) = Found b ->
  dob_obj fromisoformat b = Some d ->
  valid_date d ->
  In fmt (dob_formats d) ->
  concat (map heard us) = fmt ->
  exists us1 u us2,
    us = us1 ++ u :: us2
    /\ (forall p v q, us1 = p ++ v :: q ->
          let said := concat (map heard (p ++ [v])) in
          let out := process_utterance fromisoformat
                       (process_all fromisoformat svc phone p).1 phone v in
          length said < 8
          /\ (forall f pre post, In f (dob_formats d) -> said <> pre ++ f ++ post)
          /\ out.2 = continue_result
          /\ exists s', session_of out.1 phone = Some s'
                        /\ sess_stage s' = VerifyDob
                        /\ attempts s' = attempts s
                        /\ verified_dob s' = verified_dob s
                        /\ partial_dob s' = said)
    /\ (exists f pre post,
          In f (dob_formats d)
          /\ concat (map heard (us1 ++ [u])) = pre ++ f ++ post)
    /\ (process_utterance fromisoformat
          (process_all fromisoformat svc phone us1).1 phone u).2
       = dob_verified_result
    /\ exists s', session_of (process_utterance fromisoformat
                                (process_all fromisoformat svc phone us1).1 phone u).1
                             phone = Some s'
                  /\ sess_stage s' = VerifyAccount
                  /\ verified_dob s' = true
                  /\ attempts s' = 0
                  /\ partial_dob s' = [].
Proof.
  intros Hs Hst Hp Hdb Hd _ Hfmt Hsplit.
  destruct (split_dob_run fromisoformat b d fmt phone Hd Hfmt us svc s Hs Hst Hdb)
    as (us1 & u & us2 & Hus & Hbefore & Hocc & Hres & Hver).
  - by rewrite Hp.
  - intros ->. cbn in Hsplit. subst fmt.
    unfold dob_formats in Hfmt. cbn [In] in Hfmt.
    destruct Hfmt as [H|[H|[H|[H|[H|[]]]]]]; discriminate H.
  - rewrite Hp in Hbefore, Hocc. cbn [app] in Hbefore, Hocc.
    exists us1, u, us2. auto.
Qed.

(** The month, the day and the year said in three turns: the first two
    are answered by the request to continue, the third verifies. *)
Lemma split_dob_verifies_witness :
  let svc := at_step VerifyDob in
  let us := [lit "September"; lit "the 14"; lit "1986"] in
  session_of svc caller = Some (set_stage VerifyDob new_session)
  /\ db svc (strip caller) = Found jane
  /\ dob_obj fromisoformat_date jane = Some jane_dob
  /\ valid_date jane_dob
  /\ In (lit "09141986") (dob_formats jane_dob)
  /\ concat (map heard us) = lit "09141986"
  /\ map res_response (process_all fromisoformat_date svc caller us).2
     = [RespDobContinue; RespDobContinue; RespAskAccount]
  /\ exists us1 u us2,
       us = us1 ++ u :: us2
       /\ (forall p v q, us1 = p ++ v :: q ->
             let said := concat (map heard (p ++ [v])) in
             let out := process_utterance fromisoformat_date
                          (process_all fromisoformat_date svc caller p).1 caller v in
             length said < 8
             /\ (forall f pre post, In f (dob_formats jane_dob) -> said <> pre ++ f ++ post)
             /\ out.2 = continue_result
             /\ exists s', session_of out.1 caller = Some s'
                           /\ sess_stage s' = VerifyDob
                           /\ attempts s' = attempts (set_stage VerifyDob new_session)
                           /\ verified_dob s'
                              = verified_dob (set_stage VerifyDob new_session)
                           /\ partial_dob s' = said)
       /\ (exists f pre post,
             In f (dob_formats jane_dob)
             /\ concat (map heard (us1 ++ [u])) = pre ++ f ++ post)
       /\ (process_utterance fromisoformat_date
             (process_all fromisoformat_date svc caller us1).1 caller u).2
          = dob_verified_result
       /\ exists s', session_of (process_utterance fromisoformat_date
                                   (process_all fromisoformat_date svc caller us1).1
                                   caller u).1 caller = Some s'
                     /\ sess_stage s' = VerifyAccount
                     /\ verified_dob s' = true
                     /\ attempts s' = 0
                     /\ partial_dob s' = [].
Proof.
  intros svc us.
  assert (H1 : session_of svc caller = Some (set_stage VerifyDob new_session))
    by (vm_compute; reflexivity).
  assert (H2 : db svc (strip caller) = Found jane) by (vm_compute; reflexivity).
  assert (H3 : dob_obj fromisoformat_date jane = Some jane_dob)
    by (vm_compute; reflexivity).
  assert (H4 : valid_date jane_dob) by (unfold valid_date; cbn; lia).
  assert (H5 : In (lit "09141986") (dob_formats jane_dob))
    by (vm_compute; left; reflexivity).
  assert (H6 : concat (map heard us) = lit "09141986") by (vm_compute; reflexivity).
  do 6 (split; [assumption|]).
  split; [vm_compute; reflexivity|].
  exact (split_dob_verifies fromisoformat_date svc caller
           (set_stage VerifyDob new_session) jane jane_dob (lit "09141986") us
           H1 eq_refl eq_refl H2 H3 H4 H5 H6).
Defined.

(** ** The uplink *)

Section Uplink.

Import Relay.

(** The audio a receiver state holds: what it flushed, then its buffer. *)
Local Abbreviation held st := (concat (audio_queue st) ++ audio_buffer st).

Local Abbreviation full c := (BUFFER_SIZE <= len c)%Z.

(** One [media] message: nothing is lost or reordered, only full
    buffers are flushed, and the buffer left is short. *)
Lemma on_media_spec st chunk :
  Forall (fun c => full c) (audio_queue st) ->
  held (on_media st chunk) = held st ++ chunk
  /\ Forall (fun c => full c) (audio_queue (on_media st chunk))
  /\ (len (audio_buffer (on_media st chunk)) < BUFFER_SIZE)%Z.
Proof.
  intros Hq. unfold on_media.
  destruct (Z.leb_spec BUFFER_SIZE (len (audio_buffer st ++ chunk))) as [Hge|Hlt];
    cbn [audio_queue audio_buffer].
  - rewrite concat_app. cbn [concat]. rewrite !app_nil_r, <- app_assoc.
    split; [done|]. split; [|done].
    apply Forall_app. split; [done|]. by constructor.
  - rewrite app_assoc. done.
Qed.

Lemma receiver_invariant evs : forall st,
  Forall (fun c => full c) (audio_queue st) ->
  (len (audio_buffer st) < BUFFER_SIZE)%Z ->
  held (twilio_receiver st evs) = held st ++ audio_of (handled evs)
  /\ Forall (fun c => full c) (audio_queue (twilio_receiver st evs))
  /\ (len (audio_buffer (twilio_receiver st evs)) < BUFFER_SIZE)%Z.
Proof.
  induction evs as [|ev evs IH]; intros st Hq Hb.
  - cbn. by rewrite app_nil_r.
  - destruct ev as [sid cid|chunk| | |]; cbn [twilio_receiver handled audio_of].
    + apply (IH (on_start st sid cid)); done.
    + destruct (on_media_spec st chunk Hq) as (Hheld & Hq' & Hb').
      destruct (IH (on_media st chunk) Hq' Hb') as (IH1 & IH2 & IH3).
      rewrite IH1, Hheld, <- !app_assoc. done.
    + by rewrite app_nil_r.
    + by apply IH.
    + by rewrite app_nil_r.
Qed.

(** The audio path of the receiver does not look at the identifiers. *)
Lemma receiver_ignores_start evs : forall st st',
  audio_queue st = audio_queue st' ->
  audio_buffer st = audio_buffer st' ->
  audio_queue (twilio_receiver st evs)
  = audio_queue (twilio_receiver st' (List.filter (fun ev => negb (is_start ev)) evs))
  /\ audio_buffer (twilio_receiver st evs)
     = audio_buffer (twilio_receiver st' (List.filter (fun ev => negb (is_start ev)) evs)).
Proof.
  induction evs as [|ev evs IH]; intros st st' Hq Hb; [done|].
  destruct ev as [sid cid|chunk| | |];
    cbn [twilio_receiver List.filter is_start negb]; try done.
  - by apply IH.
  - apply IH; unfold on_media; rewrite Hq, Hb;
      by destruct (BUFFER_SIZE <=? len (audio_buffer st' ++ chunk))%Z.
  - by apply IH.
Qed.

End Uplink.

(** ** The downlink *)

Section Downlink.

Import Relay.

Lemma app_eq_skip {A} (l1 l2 l3 l4 : list A) (x : A) :
  l1 ++ l2 = l3 ++ x :: l4 -> ~ In x l1 ->
  exists l, l3 = l1 ++ l /\ l2 = l ++ x :: l4.
Proof.
  revert l3. induction l1 as [|a l1 IH]; intros l3 Heq Hnot.
  - by exists l3.
  - destruct l3 as [|b l3]; cbn in Heq; simplify_eq.
    + exfalso. apply Hnot. by left.
    + destruct (IH l3) as (l & -> & ->); [done|intros ?; apply Hnot; by right|].
      by exists l.
Qed.

Lemma received_not_done m (actions : list action) : ~ In (Received m) (map Did actions).
Proof. intros (a & Ha & _)%in_map_iff. discriminate Ha. Qed.

Context {S : Type} `{Receiver S}.

(** What the three receivers have in common. *)
Hypothesis barge_in : forall st,
  on_message st (TextMessage UserStartedSpeaking) = (st, [TwilioClear (sid st)], true).
Hypothesis sid_kept : forall st m, sid (on_message st m).1.1 = sid st.

(** In the log, a received [UserStartedSpeaking] is followed at once by
    the [clear] for the stream. *)
Lemma clear_follows messages : forall st log rest,
  deepgram_receiver st messages
  = log ++ Received (TextMessage UserStartedSpeaking) :: rest ->
  exists rest', rest = Did (TwilioClear (sid st)) :: rest'.
Proof using barge_in sid_kept.
  induction messages as [|m ms IH]; intros st log rest Hlog.
  - cbn in Hlog. by destruct log.
  - cbn [deepgram_receiver] in Hlog.
    pose proof (sid_kept st m) as Hsid.
    destruct (on_message st m) as [[st' actions] alive] eqn:Hm. cbn [fst] in Hsid.
    destruct log as [|e log]; cbn [app] in Hlog.
    + injection Hlog as -> Hrest. rewrite barge_in in Hm.
      injection Hm as <- <- <-. cbn in Hrest. subst rest. eauto.
    + injection Hlog as _ Hrest.
      apply app_eq_skip in Hrest as (l & _ & Htail); [|apply received_not_done].
      destruct alive; [|by destruct l].
      rewrite <- Hsid. by apply (IH st' l rest).
Qed.

End Downlink.

Lemma run_pump_clear_follows p messages log rest :
  Relay.run_pump p messages
  = log ++ Relay.Received (Relay.TextMessage Relay.UserStartedSpeaking) :: rest ->
  exists rest', rest = Relay.Did (Relay.TwilioClear (Relay.pump_sid p)) :: rest'.
Proof.
  destruct p as [sid|st|st]; cbn [Relay.run_pump Relay.pump_sid]; intros Hlog.
  - refine (clear_follows (H:=Relay.InboundCall.receiver) _ _ messages sid log rest Hlog);
      [done|].
    intros s m. by destruct m as [[]| |].
  - refine (clear_follows (H:=Relay.InBand.receiver) _ _ messages st log rest Hlog);
      [done|].
    intros s m. destruct m as [[fs| | | |]| |]; try done.
    cbn. unfold Relay.InBand.on_function_call.
    assert (Hfold : forall fs s0,
               Relay.InBand.sid (fold_left Relay.InBand.bind_func fs s0)
               = Relay.InBand.sid s0).
    { clear. intros fs. induction fs as [|f fs IH]; intros s0; [done|].
      cbn [fold_left]. rewrite IH. unfold Relay.InBand.bind_func.
      destruct (Relay.client_side f); reflexivity. }
    unfold Relay.InBand.switch.
    repeat case_match; simplify_eq; cbn; by rewrite ?Hfold.
  - refine (clear_follows (H:=Relay.Reconnecting.receiver) _ _ messages st log rest Hlog);
      [done|].
    intros s m. destruct m as [[fs| | | |]| |]; try done.
    cbn. revert s. induction fs as [|f fs IH]; intros s; [done|].
    cbn [Relay.Reconnecting.on_function_call].
    assert (Hf : Relay.Reconnecting.sid (Relay.Reconnecting.on_func s f).1.1
                 = Relay.Reconnecting.sid s).
    { unfold Relay.Reconnecting.on_func. by repeat case_match. }
    destruct (Relay.Reconnecting.on_func s f) as [[s' a] alive]. cbn [fst] in Hf.
    destruct alive; [|done]. specialize (IH s').
    destruct (Relay.Reconnecting.on_function_call s' fs) as [[s'' a'] alive'].
    cbn [fst] in *. congruence.
Qed.

Import Relay.

(** C10: whatever the telephony leg sends, the chunks passed on to the
    agent connection are exactly the flushed buffers; each of them holds
    at least [BUFFER_SIZE] bytes; together with the bytes still buffered
    when the receiver stops (on [stop], on an exception, or on a
    disconnect) they are the caller audio in arrival order; and what is
    still buffered, always fewer than [BUFFER_SIZE] bytes, is never
    passed on. *)
Theorem uplink_forwards_full_buffers_only (messages : list twilio_event) :
  let st := twilio_receiver uplink_init messages in
  deepgram_sender true (audio_queue st) = audio_queue st
  /\ Forall (fun c => (BUFFER_SIZE <= len c)%Z) (audio_queue st)
  /\ concat (deepgram_sender true (audio_queue st)) ++ audio_buffer st
     = audio_of (handled messages)
  /\ (len (audio_buffer st) < BUFFER_SIZE)%Z.
Proof.
  intros st.
  assert (Hsend : deepgram_sender true (audio_queue st) = audio_queue st).
  { unfold deepgram_sender. induction (audio_queue st) as [|c q IH]; [done|].
    cbn [List.filter]. by rewrite IH. }
  destruct (receiver_invariant messages uplink_init) as (Hheld & Hq & Hb);
    [constructor|done|].
  rewrite Hsend. auto.
Qed.

(** C5 as stated fails: one second of audio received before any [start]
    is buffered, flushed and passed on to the agent connection. *)
Lemma media_before_start_is_forwarded :
  let st := twilio_receiver uplink_init [Media one_second; Start stream (lit "CA0001")] in
  stream_sid (on_media uplink_init one_second) = None
  /\ audio_queue st = [one_second]
  /\ deepgram_sender true (audio_queue st) = [one_second].
Proof. vm_compute. auto. Qed.

(** C5, amended: the receiver has no test on the order of [start] and
    [media].  A [media] message is appended to the buffer whether or not
    a [start] was received: the flushed chunks and the buffer are those
    of the same messages with every [start] removed. *)
Theorem media_handling_ignores_start (messages : list twilio_event) :
  let without_start := List.filter (fun ev => negb (is_start ev)) messages in
  audio_queue (twilio_receiver uplink_init messages)
  = audio_queue (twilio_receiver uplink_init without_start)
  /\ audio_buffer (twilio_receiver uplink_init messages)
     = audio_buffer (twilio_receiver uplink_init without_start).
Proof. intros w. by apply receiver_ignores_start. Qed.

(** C6: in the log of the downlink pump of any of the three routers,
    every [UserStartedSpeaking] event received is followed at once by
    the [clear] the pump sends with the stream identifier: the clear is
    its next entry.  Hence whatever audio is forwarded to the telephony
    leg after the event, as a [media] event, comes after that clear. *)
Theorem barge_in_clears_before_audio
    (p : pump) (messages : list agent_message) (log rest : list entry) :
  run_pump p messages
  = log ++ Received (TextMessage UserStartedSpeaking) :: rest ->
  (exists rest', rest = Did (TwilioClear (pump_sid p)) :: rest')
  /\ forall between streamSid audio after,
       rest = between ++ Did (TwilioMedia streamSid audio) :: after ->
       exists between', between = Did (TwilioClear (pump_sid p)) :: between'.
Proof.
  intros Hlog.
  destruct (run_pump_clear_follows p messages log _ Hlog) as (tail & ->).
  split; [by exists tail|].
  intros [|e between] streamSid audio after Heq; cbn [app] in Heq;
    [discriminate Heq|].
  injection Heq as <- _. eauto.
Qed.

(** The caller starts to speak twice; the agent's audio arrives after
    the first time only.  Both events are followed by the clear. *)
Lemma barge_in_clears_before_audio_witness :
  let p := InBandPump (InBand.init stream) in
  let messages := [TextMessage UserStartedSpeaking; BinaryMessage [Byte.x01];
                   TextMessage UserStartedSpeaking] in
  run_pump p messages
  = [Received (TextMessage UserStartedSpeaking); Did (TwilioClear stream);
     Received (BinaryMessage [Byte.x01]); Did (TwilioMedia stream [Byte.x01])]
    ++ Received (TextMessage UserStartedSpeaking) :: [Did (TwilioClear stream)]
  /\ exists rest', [Did (TwilioClear stream)] = Did (TwilioClear (pump_sid p)) :: rest'.
Proof.
  intros p messages.
  assert (Hlog : run_pump p messages
                 = [Received (TextMessage UserStartedSpeaking); Did (TwilioClear stream);
                    Received (BinaryMessage [Byte.x01]);
                    Did (TwilioMedia stream [Byte.x01])]
                   ++ Received (TextMessage UserStartedSpeaking)
                      :: [Did (TwilioClear stream)])
    by (vm_compute; reflexivity).
  split; [exact Hlog|].
  exact (proj1 (barge_in_clears_before_audio p messages _ _ Hlog)).
Defined.

(** C9: in the in-band variant, when [function_name] is still unbound
    and a [FunctionCallRequest] arrives whose [functions] array has no
    client-side entry (it may be empty), the test of [function_name]
    raises: nothing is sent, the receiver leaves its loop, and no later
    message of the agent connection is handled. *)
Theorem unbound_function_name_raises
    (st : InBand.state) (functions : list func) (later : list agent_message) :
  InBand.function_name st = None ->
  forallb (fun f => negb (client_side f)) functions = true ->
  let request := TextMessage (FunctionCallRequest functions) in
  (InBand.on_message st request).1.2 = []
  /\ (InBand.on_message st request).2 = false
  /\ deepgram_receiver st (request :: later) = [Received request].
Proof.
  intros Hname Hnone request.
  assert (Hfold : InBand.function_name (fold_left InBand.bind_func functions st) = None).
  { revert st Hname. induction functions as [|f fs IH]; intros st Hname; [done|].
    cbn [forallb] in Hnone. apply andb_true_iff in Hnone as [Hf Hfs].
    cbn [fold_left]. apply IH; [done|].
    unfold InBand.bind_func. by destruct (client_side f). }
  assert (Hstep : exists st', InBand.on_message st request = (st', [], false)).
  { cbn [InBand.on_message request]. unfold InBand.on_function_call.
    rewrite Hfold. eauto. }
  destruct Hstep as (st' & Hstep).
  cbn [deepgram_receiver on_message InBand.receiver]. by rewrite Hstep.
Qed.

(** The first request of a call lists no function; audio follows. *)
Lemma unbound_function_name_raises_witness :
  let st := InBand.init stream in
  let request := TextMessage (FunctionCallRequest []) in
  InBand.function_name st = None
  /\ forallb (fun f => negb (client_side f)) [] = true
  /\ (InBand.on_message st request).2 = false
  /\ deepgram_receiver st [request; BinaryMessage [Byte.x01]] = [Received request].
Proof.
  intros st request.
  destruct (unbound_function_name_raises st [] [BinaryMessage [Byte.x01]]
              eq_refl eq_refl) as (_ & Hraise & Hlog).
  auto.
Defined.

(** C4 as stated fails twice.  In the reconnecting variant a
    [switch_language] call for the current language that is not marked
    client-side gets no response.  In the in-band variant a client-side
    call for English, the language already spoken, makes the receiver
    clear the telephony buffer and send [UpdateSpeak] and [UpdatePrompt]
    before it responds. *)
Lemma same_language_call_unanswered_or_updated :
  Reconnecting.on_message (Reconnecting.init stream [])
    (TextMessage (FunctionCallRequest [server_side_call]))
  = (Reconnecting.init stream [], [], true)
  /\ (InBand.on_message (InBand.init stream)
        (TextMessage (FunctionCallRequest [client_side_call]))).1.2
     = [ TwilioClear stream;
         AgentSend (UpdateSpeak voice_en);
         AgentSend (UpdatePrompt (lit "en"));
         AgentSend (FunctionCallResponse (Some (lit "call_1")) switch_language
                      (lit "Successfully switched to en. Voice is now aura-2-thalia-en.")) ].
Proof. vm_compute. auto. Qed.

(** C4, amended: in the reconnecting variant, for a request whose
    entries are all client-side [switch_language] calls with decodable
    arguments and a target equal to the current language, the receiver
    sends one [FunctionCallResponse] per entry, with that entry's call
    identifier, and does nothing else: no [clear], no reconnection, no
    change of its state. *)
Theorem same_language_switch_acknowledged
    (st : Reconnecting.state) (functions : list func) :
  Forall (fun f => client_side f = true
                   /\ fn_name f = Some switch_language
                   /\ exists l, fn_arguments f = ArgsObject l
                                /\ default (lit "en") l = Reconnecting.current_language st)
         functions ->
  Reconnecting.on_message st (TextMessage (FunctionCallRequest functions))
  = (st,
     map (fun f => AgentSend (FunctionCallResponse (fn_id f) switch_language
                                (lit "Already speaking in "
                                 ++ Reconnecting.current_language st)))
         functions,
     true).
Proof.
  intros Hall. cbn [Reconnecting.on_message].
  induction Hall as [|f fs (Hc & Hn & l & Ha & Hl) _ IH]; [done|].
  cbn [Reconnecting.on_function_call map].
  unfold Reconnecting.on_func. rewrite Hc, Hn, Ha.
  rewrite bool_decide_eq_true_2 by done. cbn [andb].
  rewrite Hl. unfold eqb. rewrite bool_decide_eq_true_2 by done.
  by rewrite IH.
Qed.

(** The agent asks for English while English is spoken. *)
Lemma same_language_switch_acknowledged_witness :
  let st := Reconnecting.init stream [] in
  Forall (fun f => client_side f = true
                   /\ fn_name f = Some switch_language
                   /\ exists l, fn_arguments f = ArgsObject l
                                /\ default (lit "en") l = Reconnecting.current_language st)
         [client_side_call]
  /\ Reconnecting.on_message st (TextMessage (FunctionCallRequest [client_side_call]))
     = (st,
        [AgentSend (FunctionCallResponse (Some (lit "call_1")) switch_language
                      (lit "Already speaking in en"))],
        true).
Proof.
  intros st.
  assert (Hall : Forall (fun f => client_side f = true
                   /\ fn_name f = Some switch_language
                   /\ exists l, fn_arguments f = ArgsObject l
                                /\ default (lit "en") l = Reconnecting.current_language st)
                   [client_side_call]).
  { constructor; [|constructor]. split; [reflexivity|]. split; [reflexivity|].
    exists (Some (lit "en")). split; reflexivity. }
  split; [exact Hall|].
  exact (same_language_switch_acknowledged st [client_side_call] Hall).
Defined.

(** C8 as stated fails: "oh" is spoken filler, and the handler reads it
    as a zero.  With 0123 on file, "123" is rejected and "oh 123" is
    accepted. *)
Lemma filler_oh_changes_acceptance :
  let s := set_stage VerifyAccount new_session in
  account_number_last_four jane = Some (lit "0123")
  /\ account_digits (lit "123") = lit "123"
  /\ account_digits (lit "oh 123") = lit "0123"
  /\ sess_stage (handle_verify_account s jane (lit "123")).1 = VerifyAccount
  /\ sess_stage (handle_verify_account s jane (lit "oh " ++ lit "123")).1 = VerifyAddress.
Proof. vm_compute. auto. Qed.

(** C8, amended: for a filler prefix from which the handler extracts no
    digit and which ends at a character that is neither a letter nor a
    digit, [_handle_verify_account] treats filler plus utterance exactly
    as the utterance alone; and it accepts an utterance exactly when the
    stored last-four digits equal the digits extracted from it, or at
    least four digits were extracted and the stored digits occur in them
    as a substring. *)
Theorem account_filler_invariant
    (s : session) (b : borrower) (filler : text) (c : ascii) (u : text) :
  sess_stage s = VerifyAccount ->
  separator c = true ->
  account_digits filler = [] ->
  let account_4 := default [] (account_number_last_four b) in
  let extracted := account_digits u in
  handle_verify_account s b (filler ++ c :: u) = handle_verify_account s b u
  /\ (sess_stage (handle_verify_account s b u).1 = VerifyAddress
      <-> account_4 = extracted
          \/ (4 <= length extracted
              /\ exists pre post, extracted = pre ++ account_4 ++ post)).
Proof.
  intros Hst Hsep Hfiller account_4 extracted. split.
  - unfold handle_verify_account.
    by rewrite (account_digits_separated filler c u Hsep), Hfiller.
  - rewrite (verify_account_stage s b u Hst). apply account_matches_spec.
Qed.

(** "um, it is oh one two three" with 0123 on file. *)
Lemma account_filler_invariant_witness :
  let s := set_stage VerifyAccount new_session in
  let filler := lit "um, it is" in
  let u := lit "oh one two three" in
  separator " " = true
  /\ account_digits filler = []
  /\ handle_verify_account s jane (filler ++ " "%char :: u) = handle_verify_account s jane u
  /\ sess_stage (handle_verify_account s jane u).1 = VerifyAddress.
Proof.
  intros s filler u.
  assert (H1 : separator " " = true) by (vm_compute; reflexivity).
  assert (H2 : account_digits filler = []) by (vm_compute; reflexivity).
  destruct (account_filler_invariant s jane filler " "%char u eq_refl H1 H2)
    as [Hsame Hiff].
  split; [exact H1|]. split; [exact H2|]. split; [exact Hsame|].
  apply Hiff. left. vm_compute. reflexivity.
Defined.

(** * Further properties of the state machine *)

Section Sessions.

Import RagService SessionShape.

Variable fromisoformat : text -> option date.

Local Abbreviation process := (process_utterance fromisoformat).
Local Abbreviation process_all := (RagService.process_all fromisoformat).
Local Abbreviation advance := (RagService.advance fromisoformat).
Local Abbreviation route := (RagService.route fromisoformat).

Ltac session_fields :=
  cbn [fst snd sess_stage attempts partial_dob verified_dob verified_account
       verified_address name_confirmed conversation_history
       set_stage set_attempts set_partial_dob set_verified_dob
       set_verified_account set_verified_address set_name_confirmed
       set_history returns rank attempt_limit stored_stage hand_off
       res_stage res_transfer res_response] in *.

Ltac leb_facts :=
  repeat match goal with
  | H : (_ <=? _) = true |- _ => apply Nat.leb_le in H
  | H : (_ <=? _) = false |- _ => apply Nat.leb_gt in H
  end.

(** The session of a caller seen for the first time. *)
Lemma process_first svc phone u :
  session_of svc phone = None ->
  session_of (process svc phone u).1 phone
  = Some (advance (db svc (strip phone)) new_session (strip u)).
Proof using Type.
  unfold session_of, process_utterance, RagService.advance. intros Hs.
  rewrite (get_session_created _ _ Hs).
  case_bool_decide; [done|]. cbn [db with_session].
  destruct (db svc (strip phone)) as [b| |].
  - fold (logged new_session (strip u)).
    destruct (route (logged new_session (strip u)) b (strip u)) as [s' o].
    cbn [fst with_session sessions]. by rewrite lookup_insert_eq.
  - cbn [fst with_session sessions]. by rewrite lookup_insert_eq.
  - cbn [fst with_session sessions]. by rewrite lookup_insert_eq.
Qed.

Lemma new_session_consistent : consistent new_session.
Proof.
  unfold consistent, within_budget, flags_earned. cbn.
  repeat split; intros; lia.
Qed.

Lemma logged_consistent s u : consistent s -> consistent (logged s u).
Proof. unfold logged. by case_bool_decide. Qed.

(** Every handler keeps a session consistent. *)
Lemma route_consistent s b u :
  consistent s -> sess_stage s <> Transfer -> consistent (route s b u).1.
Proof using Type.
  intros (Hst & Hb & Hf & Hp) Hnt. specialize (Hf Hnt).
  destruct Hf as (Hf2 & Hf3 & Hf4 & Hf5).
  unfold consistent, within_budget, flags_earned in *. unfold RagService.route.
  destruct (sess_stage s) eqn:Hs; session_fields; try done;
    unfold handle_initial_greeting, handle_confirm_identity, handle_verify_dob,
      handle_verify_account, handle_verify_address, handle_verification_complete,
      handle_payment_discussion;
    repeat first [rewrite Hs | progress session_fields | case_match];
    simplify_eq; leb_facts; cbn [length];
    repeat split; intros; simplify_eq; try lia; try done; auto with lia.
Qed.

Lemma advance_consistent found s u : consistent s -> consistent (advance found s u).
Proof using Type.
  intros Hc. unfold RagService.advance. case_bool_decide as Ht; [done|].
  destruct found as [b| |]; [|clear Ht|done].
  - apply route_consistent; [by apply logged_consistent|by rewrite logged_stage].
  - destruct Hc as (Hst & _ & _ & Hp). unfold consistent, within_budget, flags_earned.
    session_fields. repeat split; done.
Qed.

(** After an utterance the caller has a session, and it is consistent
    when the one before was. *)
Lemma process_consistent svc phone u :
  (forall s, session_of svc phone = Some s -> consistent s) ->
  exists s', session_of (process svc phone u).1 phone = Some s' /\ consistent s'.
Proof using Type.
  intros Hc. destruct (session_of svc phone) as [s|] eqn:Hs.
  - rewrite (process_session fromisoformat svc phone u s Hs).
    eexists. split; [done|]. apply advance_consistent. by apply Hc.
  - rewrite (process_first svc phone u Hs).
    eexists. split; [done|]. apply advance_consistent, new_session_consistent.
Qed.

Lemma process_all_fst_cons svc phone u us :
  (process_all svc phone (u :: us)).1
  = (process_all (process svc phone u).1 phone us).1.
Proof using Type. by rewrite process_all_cons. Qed.

Lemma run_consistent us : forall svc phone,
  (forall s, session_of svc phone = Some s -> consistent s) ->
  forall s', session_of (process_all svc phone us).1 phone = Some s' -> consistent s'.
Proof using Type.
  induction us as [|u us IH]; intros svc phone Hc s' Hs'; [by apply Hc|].
  rewrite process_all_fst_cons in Hs'.
  destruct (process_consistent svc phone u Hc) as (s1 & Hs1 & Hc1).
  apply (IH (process svc phone u).1 phone); [|done].
  intros s2 Hs2. congruence.
Qed.

(** A session, once stored, stays stored while utterances are processed. *)
Lemma run_keeps_session us : forall svc phone s,
  session_of svc phone = Some s ->
  exists s', session_of (process_all svc phone us).1 phone = Some s'
             /\ rank (sess_stage s) <= rank (sess_stage s').
Proof using Type.
  induction us as [|u us IH]; intros svc phone s Hs; [by exists s|].
  rewrite process_all_fst_cons.
  pose proof (process_session fromisoformat svc phone u s Hs) as Hs1.
  destruct (IH _ _ _ Hs1) as (s' & Hs' & Hle). exists s'. split; [done|].
  pose proof (advance_monotone fromisoformat (db svc (strip phone)) s (strip u)). lia.
Qed.

Lemma process_other svc phone u other :
  other <> strip phone ->
  sessions (process svc phone u).1 !! other = sessions svc !! other.
Proof using Type.
  intros Hne. unfold process_utterance, get_session.
  destruct (sessions svc !! strip phone) as [s|]; cbn [db with_session sessions];
    repeat case_match; simplify_eq; cbn [fst with_session sessions];
    rewrite ?lookup_insert_ne by done; done.
Qed.

Lemma process_keeps_db svc phone u : db (process svc phone u).1 = db svc.
Proof using Type.
  unfold process_utterance, get_session.
  destruct (sessions svc !! strip phone) as [s|]; cbn [db with_session sessions];
    repeat case_match; simplify_eq; reflexivity.
Qed.

Lemma run_other us : forall svc phone other,
  other <> strip phone ->
  sessions (process_all svc phone us).1 !! other = sessions svc !! other
  /\ db (process_all svc phone us).1 = db svc.
Proof using Type.
  induction us as [|u us IH]; intros svc phone other Hne; [done|].
  rewrite process_all_fst_cons.
  destruct (IH (process svc phone u).1 phone other Hne) as [-> ->].
  by rewrite process_other, process_keeps_db.
Qed.

(** The dictionary a handler returns names the stage it stored, and asks
    for a transfer exactly when that stage is [transfer]. *)
Lemma route_result s b u :
  stored_stage (sess_stage s) = true -> sess_stage s <> Transfer ->
  match (route s b u).2 with
  | Returned r => res_stage r = sess_stage (route s b u).1
                  /\ res_transfer r = hand_off (res_stage r)
  | Raised => True
  end.
Proof using Type.
  intros Hst Hnt. unfold RagService.route.
  destruct (sess_stage s) eqn:Hs; session_fields; try done;
    unfold handle_initial_greeting, handle_confirm_identity, handle_verify_dob,
      handle_verify_account, handle_verify_address, handle_verification_complete,
      handle_payment_discussion;
    repeat first [rewrite Hs | progress session_fields | case_match];
    simplify_eq; session_fields; rewrite ?Hs; session_fields; done.
Qed.

(** [process_utterance], with the session it works on made explicit. *)
Lemma process_unfold svc phone u :
  let s0 := default new_session (session_of svc phone) in
  let svc0 := (get_session svc (strip phone)).1 in
  process svc phone u
  = if bool_decide (sess_stage s0 = Transfer) then (svc0, transfer_result)
    else match db svc (strip phone) with
         | Failed => (svc0, error_result)
         | Absent => (with_session svc0 (strip phone) (set_stage Transfer s0),
                      {| res_response := RespNoRecord; res_stage := NoRecord;
                         res_transfer := true |})
         | Found b =>
             (with_session svc0 (strip phone)
                (route (logged s0 (strip u)) b (strip u)).1,
              result_of (route (logged s0 (strip u)) b (strip u)).2)
         end.
Proof using Type.
  unfold process_utterance, session_of, get_session.
  destruct (sessions svc !! strip phone) as [s|];
    cbn [from_option id fst db with_session];
    case_bool_decide; try done;
    destruct (db svc (strip phone)) as [b| |]; try done.
  - fold (logged s (strip u)).
    by destruct (RagService.route fromisoformat (logged s (strip u)) b (strip u)).
  - fold (logged new_session (strip u)).
    by destruct (RagService.route fromisoformat (logged new_session (strip u)) b (strip u)).
Qed.

Lemma stage_of_with_session svc phone s :
  stage_of (with_session svc (strip phone) s) phone = Some (sess_stage s).
Proof using Type. unfold stage_of. by rewrite with_session_lookup. Qed.

Lemma process_result_shape svc phone u :
  (forall s, session_of svc phone = Some s -> consistent s) ->
  res_transfer (process svc phone u).2 = hand_off (res_stage (process svc phone u).2)
  /\ (res_stage (process svc phone u).2 = NoRecord
      \/ res_stage (process svc phone u).2 = Error
      \/ stage_of (process svc phone u).1 phone
         = Some (res_stage (process svc phone u).2)).
Proof using Type.
  intros Hc.
  assert (Hc0 : consistent (default new_session (session_of svc phone))).
  { destruct (session_of svc phone) as [s|] eqn:Hs; [by apply Hc|].
    apply new_session_consistent. }
  assert (Hsvc0 : stage_of (get_session svc (strip phone)).1 phone
                  = Some (sess_stage (default new_session (session_of svc phone)))).
  { unfold stage_of, session_of, get_session.
    destruct (sessions svc !! strip phone) as [s|] eqn:Hs; cbn [fst default].
    - by rewrite Hs.
    - by rewrite with_session_lookup. }
  rewrite process_unfold. cbv zeta.
  set (s0 := default new_session (session_of svc phone)) in *.
  case_bool_decide as Ht; cbn [fst snd].
  { split; [done|]. right; right. by rewrite Hsvc0, Ht. }
  destruct (db svc (strip phone)) as [b| |]; cbn [fst snd];
    [|split; [done|by left]|split; [done|by right; left]].
  pose proof (route_result (logged s0 (strip u)) b (strip u)) as Hr.
  rewrite logged_stage in Hr. destruct Hc0 as (Hst & _).
  specialize (Hr Hst Ht).
  destruct (route (logged s0 (strip u)) b (strip u)) as [s' [r|]]; cbn [fst snd result_of] in *.
  - destruct Hr as [Hrs Hrt]. split; [done|]. right; right.
    by rewrite stage_of_with_session, Hrs.
  - split; [done|]. by right; left.
Qed.

End Sessions.

Import RagService SessionShape Scenario Cases.

(** X1: while the utterances of a call are processed, the stage stored
    for the caller never moves back in the script. *)
Theorem stage_never_moves_back
    (fromisoformat : text -> option date) (svc : service) (phone : text)
    (s : session) (us : list text) :
  session_of svc phone = Some s ->
  exists s', session_of (process_all fromisoformat svc phone us).1 phone = Some s'
             /\ rank (sess_stage s) <= rank (sess_stage s').
Proof. apply run_keeps_session. Qed.

Lemma stage_never_moves_back_witness :
  let svc := at_step VerifyDob in
  let us := [lit "09/14/1986"; lit "pardon?"] in
  session_of svc caller = Some (set_stage VerifyDob new_session)
  /\ exists s', session_of (process_all fromisoformat_date svc caller us).1 caller = Some s'
                /\ rank VerifyDob <= rank (sess_stage s').
Proof.
  intros svc us.
  assert (Hs : session_of svc caller = Some (set_stage VerifyDob new_session))
    by (vm_compute; reflexivity).
  split; [exact Hs|].
  exact (stage_never_moves_back fromisoformat_date svc caller _ us Hs).
Defined.

(** X2: processing the utterances of one caller leaves the session of
    every other caller, and the datastore, as they were. *)
Theorem other_callers_untouched
    (fromisoformat : text -> option date) (svc : service) (phone other : text)
    (us : list text) :
  other <> strip phone ->
  sessions (process_all fromisoformat svc phone us).1 !! other = sessions svc !! other
  /\ db (process_all fromisoformat svc phone us).1 = db svc.
Proof. apply run_other. Qed.

Lemma other_callers_untouched_witness :
  let svc := at_step VerifyAccount in
  let us := [lit "hello"; lit "anyone there"] in
  caller <> strip other_caller
  /\ sessions (process_all fromisoformat_date svc other_caller us).1 !! caller
     = sessions svc !! caller.
Proof.
  intros svc us.
  assert (Hne : caller <> strip other_caller) by (vm_compute; discriminate).
  split; [exact Hne|].
  exact (proj1 (other_callers_untouched fromisoformat_date svc other_caller caller us Hne)).
Defined.

(** X3: in a call that starts without a session, the stage
    [payment_discussion] is only ever stored together with the four
    flags: name confirmed, date of birth, account and address verified. *)
Theorem payment_only_after_verification
    (fromisoformat : text -> option date) (svc : service) (phone : text)
    (us : list text) (s' : session) :
  session_of svc phone = None ->
  session_of (process_all fromisoformat svc phone us).1 phone = Some s' ->
  sess_stage s' = PaymentDiscussion ->
  name_confirmed s' = true /\ verified_dob s' = true
  /\ verified_account s' = true /\ verified_address s' = true.
Proof.
  intros Hnone Hs' Hst.
  assert (Hc : consistent s').
  { apply (run_consistent fromisoformat us svc phone); [|done].
    intros s Hs. congruence. }
  destruct Hc as (_ & _ & Hf & _).
  destruct Hf as (H2 & H3 & H4 & H5); [by rewrite Hst|].
  rewrite Hst in *. cbn in *. repeat split; auto with lia.
Qed.

Lemma payment_only_after_verification_witness :
  exists s',
    session_of fresh caller = None
    /\ session_of (process_all fromisoformat_date fresh caller full_call).1 caller = Some s'
    /\ sess_stage s' = PaymentDiscussion
    /\ verified_dob s' = true /\ verified_account s' = true
    /\ verified_address s' = true.
Proof.
  destruct (session_of (process_all fromisoformat_date fresh caller full_call).1 caller)
    as [s'|] eqn:Hs'; [|vm_compute in Hs'; discriminate Hs'].
  exists s'.
  assert (Hnone : session_of fresh caller = None) by (vm_compute; reflexivity).
  assert (Hst : sess_stage s' = PaymentDiscussion).
  { vm_compute in Hs'. injection Hs' as <-. reflexivity. }
  destruct (payment_only_after_verification fromisoformat_date fresh caller full_call s'
              Hnone Hs' Hst) as (_ & Hd & Ha & Hadr).
  repeat split; assumption.
Defined.

(** X4: in a call that starts without a session, a session at a
    verification step always has fewer failed attempts counted than the
    step allows, and the digits kept for the date of birth between two
    turns are always fewer than eight. *)
Theorem counters_stay_bounded
    (fromisoformat : text -> option date) (svc : service) (phone : text)
    (us : list text) (s' : session) :
  session_of svc phone = None ->
  session_of (process_all fromisoformat svc phone us).1 phone = Some s' ->
  within_budget s' /\ length (partial_dob s') < 8.
Proof.
  intros Hnone Hs'.
  assert (Hc : consistent s').
  { apply (run_consistent fromisoformat us svc phone); [|done].
    intros s Hs. congruence. }
  destruct Hc as (_ & Hb & _ & Hp). auto.
Qed.

Lemma counters_stay_bounded_witness :
  let us := [lit ""; lit "yes"; lit "1234"; lit "56789"; lit "12"] in
  exists s',
    session_of fresh caller = None
    /\ session_of (process_all fromisoformat_date fresh caller us).1 caller = Some s'
    /\ within_budget s' /\ length (partial_dob s') < 8.
Proof.
  intros us.
  destruct (session_of (process_all fromisoformat_date fresh caller us).1 caller)
    as [s'|] eqn:Hs'; [|vm_compute in Hs'; discriminate Hs'].
  exists s'.
  assert (Hnone : session_of fresh caller = None) by (vm_compute; reflexivity).
  split; [exact Hnone|]. split; [reflexivity|].
  exact (counters_stay_bounded fromisoformat_date fresh caller us s' Hnone Hs').
Defined.

(** X5: in a call that starts without a session, every returned
    dictionary has its transfer flag set exactly when its stage is
    [transfer], [no_record] or [error]; and unless that stage is
    [no_record] or [error], it is the stage now stored for the caller. *)
Theorem transfer_flag_matches_stage
    (fromisoformat : text -> option date) (svc : service) (phone : text)
    (us : list text) (u : text) :
  session_of svc phone = None ->
  let svc' := (process_all fromisoformat svc phone us).1 in
  let out := process_utterance fromisoformat svc' phone u in
  res_transfer out.2 = hand_off (res_stage out.2)
  /\ (res_stage out.2 = NoRecord \/ res_stage out.2 = Error
      \/ stage_of out.1 phone = Some (res_stage out.2)).
Proof.
  intros Hnone svc' out. apply process_result_shape.
  intros s Hs. apply (run_consistent fromisoformat us svc phone); [|done].
  intros s0 Hs0. congruence.
Qed.

Lemma transfer_flag_matches_stage_witness :
  let us := [lit ""; lit "hmm"] in
  let out := process_utterance fromisoformat_date
               (process_all fromisoformat_date fresh caller us).1 caller (lit "hmm") in
  session_of fresh caller = None
  /\ res_transfer out.2 = true
  /\ res_transfer out.2 = hand_off (res_stage out.2)
  /\ stage_of out.1 caller = Some Transfer.
Proof.
  intros us out.
  assert (Hnone : session_of fresh caller = None) by (vm_compute; reflexivity).
  destruct (transfer_flag_matches_stage fromisoformat_date fresh caller us (lit "hmm") Hnone)
    as [Hflag _].
  fold out in Hflag. split; [exact Hnone|]. split; [vm_compute; reflexivity|].
  split; [exact Hflag|]. vm_compute. reflexivity.
Defined.

Section HandlerFacts.

Variable fromisoformat : text -> option date.

Local Abbreviation process := (process_utterance fromisoformat).
Local Abbreviation process_all := (RagService.process_all fromisoformat).
Local Abbreviation advance := (RagService.advance fromisoformat).
Local Abbreviation route := (RagService.route fromisoformat).
Local Abbreviation handle_verify_dob := (RagService.handle_verify_dob fromisoformat).

(** Without a stored date, [_handle_verify_dob] never verifies. *)
Lemma verify_dob_without_date s b u :
  dob_obj fromisoformat b = None ->
  sess_stage s = VerifyDob ->
  (sess_stage (handle_verify_dob s b u).1 = VerifyDob
   \/ sess_stage (handle_verify_dob s b u).1 = Transfer)
  /\ verified_dob (handle_verify_dob s b u).1 = verified_dob s.
Proof using Type.
  intros Hd Hs. unfold RagService.handle_verify_dob. rewrite Hd.
  repeat case_match;
    cbn [fst returns sess_stage verified_dob set_stage set_attempts set_partial_dob];
    rewrite ?Hs; auto.
Qed.

Lemma run_without_date b us : forall svc phone s,
  dob_obj fromisoformat b = None ->
  db svc (strip phone) = Found b ->
  session_of svc phone = Some s ->
  sess_stage s = VerifyDob \/ sess_stage s = Transfer ->
  exists s', session_of (process_all svc phone us).1 phone = Some s'
             /\ (sess_stage s' = VerifyDob \/ sess_stage s' = Transfer)
             /\ verified_dob s' = verified_dob s.
Proof using Type.
  intros svc phone s Hd. revert svc s.
  induction us as [|u us IH]; intros svc s Hdb Hs Hst; [by exists s|].
  rewrite process_all_cons; cbn [fst].
  pose proof (process_session fromisoformat svc phone u s Hs) as Hs1.
  set (s1 := advance (db svc (strip phone)) s (strip u)) in *.
  assert (H1 : (sess_stage s1 = VerifyDob \/ sess_stage s1 = Transfer)
               /\ verified_dob s1 = verified_dob s).
  { unfold s1, RagService.advance. case_bool_decide as Ht; [auto|].
    destruct Hst as [Hst|Hst]; [|done]. rewrite Hdb.
    unfold RagService.route. rewrite logged_stage, Hst.
    destruct (verify_dob_without_date (logged s (strip u)) b (strip u) Hd) as [Ha Hb].
    - by rewrite logged_stage.
    - split; [done|]. rewrite Hb. unfold logged. by case_bool_decide. }
  destruct H1 as [Hst1 Hv1].
  destruct (IH (process svc phone u).1 s1) as (s' & Hs' & Hst' & Hv');
    [by rewrite process_keeps_db|done|done|].
  exists s'. split; [done|]. split; [done|]. congruence.
Qed.

Lemma contains_nil s : contains [] s = true.
Proof. by destruct s. Qed.

Lemma lower_char_idem c : lower_char (lower_char c) = lower_char c.
Proof. destruct c as [[] [] [] [] [] [] [] []]; reflexivity. Qed.

Lemma lower_char_digit c : isdigit (lower_char c) = isdigit c.
Proof. destruct c as [[] [] [] [] [] [] [] []]; reflexivity. Qed.

Lemma lower_char_of_digit c : isdigit c = true -> lower_char c = c.
Proof. destruct c as [[] [] [] [] [] [] [] []]; intros H; try reflexivity; discriminate H. Qed.

Lemma lower_idem s : lower (lower s) = lower s.
Proof.
  unfold lower. rewrite map_map. apply map_ext. intros c. apply lower_char_idem.
Qed.

Lemma digits_lower s : digits (lower s) = digits s.
Proof.
  unfold digits, lower. induction s as [|c s IH]; [done|].
  cbn [map List.filter]. rewrite lower_char_digit, IH.
  destruct (isdigit c) eqn:Hc; [|done]. by rewrite (lower_char_of_digit c Hc).
Qed.

Lemma lower_nil s : lower s = [] <-> s = [].
Proof. by destruct s. Qed.

(** No handler touches the history. *)
Lemma route_history s b u :
  conversation_history (route s b u).1 = conversation_history s.
Proof using Type.
  unfold RagService.route.
  destruct (sess_stage s);
    unfold handle_initial_greeting, handle_confirm_identity,
      RagService.handle_verify_dob,
      handle_verify_account, handle_verify_address, handle_verification_complete,
      handle_payment_discussion;
    repeat case_match; reflexivity.
Qed.

(** The history after an utterance: the history before, then the user
    turn if it was logged. *)
Lemma advance_history found s u :
  exists h, conversation_history (advance found s u) = conversation_history s ++ h
            /\ (h = [] \/ h = [(lit "user", u)]).
Proof using Type.
  unfold RagService.advance. case_bool_decide.
  { exists []. by rewrite app_nil_r; auto. }
  destruct found as [b| |]; [|exists []; by rewrite app_nil_r; auto..].
  rewrite route_history. unfold logged. case_bool_decide.
  - exists []. by rewrite app_nil_r; auto.
  - exists [(lit "user", u)]. auto.
Qed.

Lemma run_history us : forall svc phone s,
  session_of svc phone = Some s ->
  exists s' h,
    session_of (process_all svc phone us).1 phone = Some s'
    /\ conversation_history s' = conversation_history s ++ h
    /\ h `sublist_of` map (fun u => (lit "user", strip u)) us.
Proof using Type.
  induction us as [|u us IH]; intros svc phone s Hs.
  - exists s, []. by rewrite app_nil_r.
  - rewrite process_all_cons; cbn [fst].
    pose proof (process_session fromisoformat svc phone u s Hs) as Hs1.
    destruct (advance_history (db svc (strip phone)) s (strip u)) as (h1 & Hh1 & Hcase).
    destruct (IH _ _ _ Hs1) as (s' & h & Hs' & Hh & Hsub).
    exists s', (h1 ++ h). split; [done|]. split.
    + by rewrite Hh, Hh1, <- app_assoc.
    + cbn [map]. destruct Hcase as [->| ->]; cbn [app].
      * by apply sublist_cons.
      * by apply sublist_skip.
Qed.

End HandlerFacts.

(** X6: when the borrower row holds no date of birth (or one that
    cannot be parsed), a caller at [verify_dob] can never get past it:
    whatever is said, the stage stays [verify_dob] or becomes
    [transfer], and the date-of-birth flag is never set. *)
Theorem no_stored_dob_never_verifies
    (fromisoformat : text -> option date) (svc : service) (phone : text)
    (s : session) (b : borrower) (us : list text) :
  session_of svc phone = Some s ->
  sess_stage s = VerifyDob ->
  verified_dob s = false ->
  db svc (strip phone) = Found b ->
  dob_obj fromisoformat b = None ->
  exists s', session_of (process_all fromisoformat svc phone us).1 phone = Some s'
             /\ (sess_stage s' = VerifyDob \/ sess_stage s' = Transfer)
             /\ verified_dob s' = false.
Proof.
  intros Hs Hst Hv Hdb Hd.
  destruct (run_without_date fromisoformat b us svc phone s Hd Hdb Hs)
    as (s' & Hs' & Hst' & Hv'); [by left|].
  exists s'. split; [done|]. split; [done|]. congruence.
Qed.

Lemma no_stored_dob_never_verifies_witness :
  let svc := serving blank VerifyDob in
  let us := [lit "09/14/1986"; lit "September 14"] in
  session_of svc caller = Some (set_stage VerifyDob new_session)
  /\ db svc (strip caller) = Found blank
  /\ dob_obj fromisoformat_date blank = None
  /\ exists s', session_of (process_all fromisoformat_date svc caller us).1 caller = Some s'
                /\ (sess_stage s' = VerifyDob \/ sess_stage s' = Transfer)
                /\ verified_dob s' = false.
Proof.
  intros svc us.
  assert (H1 : session_of svc caller = Some (set_stage VerifyDob new_session))
    by (vm_compute; reflexivity).
  assert (H2 : db svc (strip caller) = Found blank) by reflexivity.
  assert (H3 : dob_obj fromisoformat_date blank = None) by reflexivity.
  split; [exact H1|]. split; [exact H2|]. split; [exact H3|].
  exact (no_stored_dob_never_verifies fromisoformat_date svc caller _ blank us
           H1 eq_refl eq_refl H2 H3).
Defined.

(** X7: at [verify_dob] with a stored date whose year has four digits
    (1000 to 9999, where the renderings are those [strftime] prints), a
    turn verifies exactly when one of the five renderings of the date
    occurs in the digits accumulated so far, this turn included, or
    equals the digits of this turn alone; digits said before or after
    the date do not matter. *)
Theorem dob_verifies_iff
    (fromisoformat : text -> option date) (s : session) (b : borrower)
    (d : date) (u : text) :
  dob_obj fromisoformat b = Some d ->
  valid_date d ->
  sess_stage s = VerifyDob ->
  let s' := (handle_verify_dob fromisoformat s b u).1 in
  sess_stage s' = VerifyAccount
  <-> (exists fmt pre post,
          In fmt (dob_formats d)
          /\ partial_dob s ++ dob_digits u = pre ++ fmt ++ post)
      \/ In (dob_digits u) (dob_formats d).
Proof.
  intros Hd _ Hst s'. rewrite <- dob_matches_spec. unfold s', handle_verify_dob.
  rewrite Hd. cbn [partial_dob set_partial_dob].
  destruct (dob_matches _ _ _); [done|].
  split; [|done].
  repeat case_match;
    cbn [fst returns sess_stage set_stage set_attempts set_partial_dob];
    rewrite ?Hst; discriminate.
Qed.

(** A date said after some stray digits. *)
Lemma dob_verifies_iff_witness :
  let s := set_partial_dob (lit "7") (set_stage VerifyDob new_session) in
  let u := lit "it is 09 14 1986 ok" in
  dob_obj fromisoformat_date jane = Some jane_dob
  /\ valid_date jane_dob
  /\ sess_stage s = VerifyDob
  /\ sess_stage (handle_verify_dob fromisoformat_date s jane u).1 = VerifyAccount.
Proof.
  intros s u.
  assert (Hd : dob_obj fromisoformat_date jane = Some jane_dob)
    by (vm_compute; reflexivity).
  assert (Hv : valid_date jane_dob) by (unfold valid_date; cbn; lia).
  split; [exact Hd|]. split; [exact Hv|]. split; [reflexivity|].
  apply (dob_verifies_iff fromisoformat_date s jane jane_dob u Hd Hv eq_refl).
  left. exists (lit "09141986"), (lit "7"), []. split; [|vm_compute; reflexivity].
  vm_compute. left. reflexivity.
Defined.

(** X8: when the borrower row holds no last-four digits, the account
    step compares with the empty string: an utterance is accepted
    exactly when no digit, or at least four digits, are extracted from
    it. *)
Theorem missing_account_accepts
    (s : session) (b : borrower) (u : text) :
  account_number_last_four b = None ->
  sess_stage s = VerifyAccount ->
  sess_stage (handle_verify_account s b u).1 = VerifyAddress
  <-> account_digits u = [] \/ 4 <= length (account_digits u).
Proof.
  intros Hacc Hst. rewrite (verify_account_stage s b u Hst), account_matches_spec.
  rewrite Hacc. cbn [default from_option id]. split.
  - intros [<-|[Hlen _]]; auto.
  - intros [->|Hlen]; [by left|]. right. split; [done|].
    exists [], (account_digits u). reflexivity.
Qed.

Lemma missing_account_accepts_witness :
  let s := set_stage VerifyAccount new_session in
  account_number_last_four blank = None
  /\ sess_stage s = VerifyAccount
  /\ sess_stage (handle_verify_account s blank (lit "I have no idea")).1 = VerifyAddress.
Proof.
  intros s. split; [reflexivity|]. split; [reflexivity|].
  apply (missing_account_accepts s blank (lit "I have no idea") eq_refl eq_refl).
  left. vm_compute. reflexivity.
Defined.

(** X9: the address check does not depend on letter case, neither of
    the stored address nor of the utterance. *)
Theorem address_check_ignores_case (address user_text : text) :
  address_matches (lower address) (lower user_text)
  = address_matches address user_text.
Proof.
  unfold address_matches. rewrite !lower_idem, digits_lower.
  destruct address as [|c address]; [done|]. reflexivity.
Qed.

(** X10: when the stored name holds no word, the turn that verifies the
    address is answered with the technical-difficulties result and the
    transfer flag, while the session is left in [payment_discussion]
    with the address flag set. *)
Theorem nameless_borrower_errors_after_address
    (fromisoformat : text -> option date) (svc : service) (phone u : text)
    (s : session) (b : borrower) :
  session_of svc phone = Some s ->
  sess_stage s = VerifyAddress ->
  db svc (strip phone) = Found b ->
  first_word (default [] (name b)) = None ->
  address_matches (default [] (property_address b)) (strip u) = true ->
  let out := process_utterance fromisoformat svc phone u in
  out.2 = error_result
  /\ exists s', session_of out.1 phone = Some s'
                /\ sess_stage s' = PaymentDiscussion
                /\ verified_address s' = true.
Proof.
  intros Hs Hst Hdb Hname Haddr out. unfold out.
  rewrite (process_found fromisoformat svc phone u s b Hs) by (rewrite ?Hst; done).
  unfold route. rewrite logged_stage, Hst.
  unfold handle_verify_address. rewrite Haddr.
  unfold handle_verification_complete. rewrite Hname. cbn [fst snd result_of].
  split; [done|]. eexists. split; [apply session_of_with_session|]. done.
Qed.

Lemma nameless_borrower_errors_after_address_witness :
  let svc := serving nameless VerifyAddress in
  let out := process_utterance fromisoformat_date svc caller (lit "742 Evergreen") in
  session_of svc caller = Some (set_stage VerifyAddress new_session)
  /\ first_word (default [] (name nameless)) = None
  /\ address_matches (default [] (property_address nameless)) (strip (lit "742 Evergreen"))
     = true
  /\ out.2 = error_result
  /\ stage_of out.1 caller = Some PaymentDiscussion.
Proof.
  intros svc out.
  assert (H1 : session_of svc caller = Some (set_stage VerifyAddress new_session))
    by (vm_compute; reflexivity).
  assert (H2 : first_word (default [] (name nameless)) = None) by (vm_compute; reflexivity).
  assert (H3 : address_matches (default [] (property_address nameless))
                 (strip (lit "742 Evergreen")) = true) by (vm_compute; reflexivity).
  destruct (nameless_borrower_errors_after_address fromisoformat_date svc caller
              (lit "742 Evergreen") _ nameless H1 eq_refl eq_refl H2 H3)
    as (Hr & s' & Hs' & Hst' & _).
  fold out in Hr, Hs'.
  split; [exact H1|]. split; [exact H2|]. split; [exact H3|]. split; [exact Hr|].
  by rewrite (stage_of_session out.1 caller s' Hs'), Hst'.
Defined.

(** X11: after [clear_session] for a caller key without surrounding
    white space, the next utterance of a caller the datastore knows is
    answered with the greeting, whatever stage the call had reached
    before, [transfer] included. *)
Theorem clear_session_restarts
    (fromisoformat : text -> option date) (svc : service) (phone u : text)
    (b : borrower) :
  strip phone = phone ->
  db svc phone = Found b ->
  (process_utterance fromisoformat (clear_session svc phone) phone u).2
  = {| res_response := RespGreeting (display_name b); res_stage := ConfirmIdentity;
       res_transfer := false |}.
Proof.
  intros Hstrip Hdb. unfold process_utterance, get_session, clear_session.
  rewrite Hstrip. cbn [sessions db]. rewrite lookup_delete_eq.
  cbn [with_session db]. rewrite bool_decide_eq_false_2 by done. rewrite Hdb.
  unfold route, logged. by case_bool_decide.
Qed.

Lemma clear_session_restarts_witness :
  let svc := at_step Transfer in
  strip caller = caller
  /\ db svc caller = Found jane
  /\ stage_of svc caller = Some Transfer
  /\ (process_utterance fromisoformat_date (clear_session svc caller) caller (lit "hello")).2
     = {| res_response := RespGreeting (lit "Jane Doe"); res_stage := ConfirmIdentity;
          res_transfer := false |}.
Proof.
  intros svc.
  assert (H1 : strip caller = caller) by (vm_compute; reflexivity).
  assert (H2 : db svc caller = Found jane) by (vm_compute; reflexivity).
  split; [exact H1|]. split; [exact H2|]. split; [vm_compute; reflexivity|].
  exact (clear_session_restarts fromisoformat_date svc caller (lit "hello") jane H1 H2).
Defined.

(** X12: the conversation history only grows, and only by user turns:
    after any utterances it is the history before followed by some of
    the stripped utterances, in the order they were said, each with the
    role [user].  What the agent answers is never recorded. *)
Theorem history_is_append_only
    (fromisoformat : text -> option date) (svc : service) (phone : text)
    (s : session) (us : list text) :
  session_of svc phone = Some s ->
  exists s' h,
    session_of (process_all fromisoformat svc phone us).1 phone = Some s'
    /\ conversation_history s' = conversation_history s ++ h
    /\ h `sublist_of` map (fun u => (lit "user", strip u)) us.
Proof. apply run_history. Qed.

Lemma history_is_append_only_witness :
  let svc := at_step ConfirmIdentity in
  let us := [lit "  yes "; lit ""; lit "09/14/1986"] in
  session_of svc caller = Some (set_stage ConfirmIdentity new_session)
  /\ exists s' h,
       session_of (process_all fromisoformat_date svc caller us).1 caller = Some s'
       /\ conversation_history s' = [] ++ h
       /\ h `sublist_of` map (fun u => (lit "user", strip u)) us.
Proof.
  intros svc us.
  assert (H1 : session_of svc caller = Some (set_stage ConfirmIdentity new_session))
    by (vm_compute; reflexivity).
  split; [exact H1|].
  exact (history_is_append_only fromisoformat_date svc caller _ us H1).
Defined.

(** * Further properties of the relay *)

Section UplinkFacts.

Import Relay RelayLog.

Lemma last_default_irrelevant {A} (l : list A) (d d' : A) :
  l <> [] -> List.last l d = List.last l d'.
Proof.
  induction l as [|a l IH]; [done|]. intros _. cbn [List.last].
  destruct l as [|b l]; [done|]. by apply IH.
Qed.

Lemma receiver_queue_of_starts evs : forall st,
  stream_sid_queue (twilio_receiver st evs)
  = stream_sid_queue st ++ start_sids (handled evs)
  /\ stream_sid (twilio_receiver st evs)
     = List.last (map Some (start_sids (handled evs))) (stream_sid st).
Proof.
  induction evs as [|ev evs IH]; intros st.
  - cbn. by rewrite app_nil_r.
  - destruct ev as [sid cid|chunk| | |]; cbn [twilio_receiver handled start_sids].
    + destruct (IH (on_start st sid cid)) as [-> ->].
      cbn [on_start stream_sid_queue stream_sid]. rewrite <- app_assoc.
      split; [done|]. cbn [map List.last].
      destruct (start_sids (handled evs)) as [|x l]; [done|].
      by apply last_default_irrelevant.
    + destruct (IH (on_media st chunk)) as [-> ->].
      unfold on_media. by destruct (BUFFER_SIZE <=? len (audio_buffer st ++ chunk))%Z.
    + cbn. by rewrite app_nil_r.
    + apply IH.
    + cbn. by rewrite app_nil_r.
Qed.

(** A flushed chunk is a buffer that was short before its last payload. *)
Lemma receiver_chunk_bound evs : forall st (m : Z),
  (largest_chunk (handled evs) <= m)%Z ->
  (len (audio_buffer st) < BUFFER_SIZE)%Z ->
  Forall (fun c => (len c < BUFFER_SIZE + m)%Z) (audio_queue st) ->
  Forall (fun c => (len c < BUFFER_SIZE + m)%Z) (audio_queue (twilio_receiver st evs))
  /\ (len (audio_buffer (twilio_receiver st evs)) < BUFFER_SIZE)%Z.
Proof.
  induction evs as [|ev evs IH]; intros st m Hm Hb Hq; [done|].
  destruct ev as [sid cid|chunk| | |];
    cbn [twilio_receiver handled largest_chunk] in *; try done.
  - by apply IH.
  - apply IH; [lia| |]; unfold on_media;
      destruct (Z.leb_spec BUFFER_SIZE (len (audio_buffer st ++ chunk)));
      cbn [audio_buffer audio_queue]; try done.
    apply Forall_app. split; [done|]. constructor; [|done].
    unfold len in *. rewrite length_app. lia.
  - by apply IH.
Qed.

End UplinkFacts.

Section DownlinkFacts.

Import Relay RelayLog.

Lemma forwarded_audio_app l1 l2 :
  forwarded_audio (l1 ++ l2) = forwarded_audio l1 ++ forwarded_audio l2.
Proof.
  induction l1 as [|[m|[]] l1 IH]; cbn [app forwarded_audio]; by rewrite ?IH.
Qed.

Lemma received_audio_done actions rest :
  received_audio (map Did actions ++ rest) = received_audio rest.
Proof. induction actions as [|a actions IH]; [done|]. cbn. apply IH. Qed.

Context {S : Type} `{Receiver S}.

(** What the three receivers have in common on audio. *)
Hypothesis binary_forwarded : forall st audio,
  on_message st (BinaryMessage audio) = (st, [TwilioMedia (sid st) audio], true).
Hypothesis text_not_forwarded : forall st m,
  (forall audio, m <> BinaryMessage audio) ->
  forwarded_audio (map Did (on_message st m).1.2) = [].
Hypothesis sid_stays : forall st m, sid (on_message st m).1.1 = sid st.

Lemma audio_one_to_one messages : forall st,
  forwarded_audio (deepgram_receiver st messages)
  = map (fun audio => (sid st, audio)) (received_audio (deepgram_receiver st messages)).
Proof using binary_forwarded text_not_forwarded sid_stays.
  induction messages as [|m ms IH]; intros st; [done|].
  cbn [deepgram_receiver].
  pose proof (sid_stays st m) as Hsid.
  destruct m as [data| |audio].
  - pose proof (text_not_forwarded st (TextMessage data)) as Hno.
    destruct (on_message st (TextMessage data)) as [[st' actions] alive].
    cbn [fst snd] in *. cbn [forwarded_audio received_audio].
    rewrite forwarded_audio_app, received_audio_done, Hno by done.
    destruct alive; [|done]. by rewrite IH, Hsid.
  - pose proof (text_not_forwarded st InvalidText) as Hno.
    destruct (on_message st InvalidText) as [[st' actions] alive].
    cbn [fst snd] in *. cbn [forwarded_audio received_audio].
    rewrite forwarded_audio_app, received_audio_done, Hno by done.
    destruct alive; [|done]. by rewrite IH, Hsid.
  - rewrite binary_forwarded. cbn. by rewrite IH.
Qed.

End DownlinkFacts.

Section PumpFacts.

Import Relay RelayLog.

Lemma inband_fold_sid fs : forall s0,
  InBand.sid (fold_left InBand.bind_func fs s0) = InBand.sid s0.
Proof.
  induction fs as [|f fs IH]; intros s0; [done|].
  cbn [fold_left]. rewrite IH. unfold InBand.bind_func.
  destruct (client_side f); reflexivity.
Qed.

Lemma inband_sid st m : InBand.sid (InBand.on_message st m).1.1 = InBand.sid st.
Proof.
  destruct m as [[fs| | | |]| |]; try done.
  cbn. unfold InBand.on_function_call, InBand.switch.
  repeat case_match; simplify_eq; cbn; by rewrite ?inband_fold_sid.
Qed.

Lemma inband_no_media st fs :
  forwarded_audio (map Did (InBand.on_function_call st fs).1.2) = [].
Proof.
  unfold InBand.on_function_call, InBand.switch.
  repeat case_match; simplify_eq; reflexivity.
Qed.

Lemma reconnecting_func_facts st f :
  Reconnecting.sid (Reconnecting.on_func st f).1.1 = Reconnecting.sid st
  /\ forwarded_audio (map Did (Reconnecting.on_func st f).1.2) = []
  /\ (is_Some (DEEPGRAM_VOICES (Reconnecting.current_language st)) ->
      is_Some (DEEPGRAM_VOICES
                 (Reconnecting.current_language (Reconnecting.on_func st f).1.1)))
  /\ Forall (fun r => r.1.2 = switch_language
                      /\ exists language, r.2 = lit "Already speaking in " ++ language)
            (responses (map Did (Reconnecting.on_func st f).1.2)).
Proof.
  unfold Reconnecting.on_func, Reconnecting.connect_outcome.
  repeat case_match; simplify_eq;
    cbn [fst snd Reconnecting.sid Reconnecting.current_language map forwarded_audio
         responses];
    repeat split; try done; try (intros; done).
  - repeat constructor. eauto.
  - intros _. match goal with H : _ && _ = true |- _ =>
      apply andb_true_iff in H as [_ H]; by apply bool_decide_eq_true in H end.
Qed.

Lemma responses_app l1 l2 : responses (l1 ++ l2) = responses l1 ++ responses l2.
Proof.
  induction l1 as [|[m|[| |[]|]] l1 IH]; cbn [app responses]; by rewrite ?IH.
Qed.

Lemma reconnecting_call_facts fs : forall st,
  Reconnecting.sid (Reconnecting.on_function_call st fs).1.1 = Reconnecting.sid st
  /\ forwarded_audio (map Did (Reconnecting.on_function_call st fs).1.2) = []
  /\ (is_Some (DEEPGRAM_VOICES (Reconnecting.current_language st)) ->
      is_Some (DEEPGRAM_VOICES
                 (Reconnecting.current_language
                    (Reconnecting.on_function_call st fs).1.1)))
  /\ Forall (fun r => r.1.2 = switch_language
                      /\ exists language, r.2 = lit "Already speaking in " ++ language)
            (responses (map Did (Reconnecting.on_function_call st fs).1.2)).
Proof.
  induction fs as [|f fs IH]; intros st; [by repeat split; try constructor|].
  cbn [Reconnecting.on_function_call].
  destruct (reconnecting_func_facts st f) as (Hsid & Hno & Hlang & Hresp).
  destruct (Reconnecting.on_func st f) as [[st' a] alive]. cbn [fst snd] in *.
  destruct alive; [|done].
  destruct (IH st') as (Hsid' & Hno' & Hlang' & Hresp').
  destruct (Reconnecting.on_function_call st' fs) as [[st'' a'] alive'].
  cbn [fst snd] in *.
  rewrite map_app, forwarded_audio_app, responses_app, Hno, Hno'.
  repeat split; [congruence|auto|by apply Forall_app].
Qed.

Lemma reconnecting_message_facts st m :
  Reconnecting.sid (Reconnecting.on_message st m).1.1 = Reconnecting.sid st
  /\ ((forall audio, m <> BinaryMessage audio) ->
      forwarded_audio (map Did (Reconnecting.on_message st m).1.2) = [])
  /\ (is_Some (DEEPGRAM_VOICES (Reconnecting.current_language st)) ->
      is_Some (DEEPGRAM_VOICES
                 (Reconnecting.current_language (Reconnecting.on_message st m).1.1)))
  /\ Forall (fun r => r.1.2 = switch_language
                      /\ exists language, r.2 = lit "Already speaking in " ++ language)
            (responses (map Did (Reconnecting.on_message st m).1.2)).
Proof.
  destruct m as [[fs| | | |]| |audio]; cbn [Reconnecting.on_message];
    try (repeat split; try done; try constructor; fail).
  - destruct (reconnecting_call_facts fs st) as (H1 & H2 & H3 & H4). auto.
  - repeat split; try done; try constructor. intros Hne. by destruct (Hne audio).
Qed.

(** The log of any pump forwards the binary messages it received, once
    each and in order, under the pump's stream identifier. *)
Lemma run_pump_audio p messages :
  forwarded_audio (run_pump p messages)
  = map (fun audio => (pump_sid p, audio)) (received_audio (run_pump p messages)).
Proof.
  destruct p as [sid|st|st]; cbn [run_pump pump_sid].
  - refine (audio_one_to_one (H:=InboundCall.receiver) _ _ _ messages sid).
    + done.
    + intros s m Hm. destruct m as [[]| |audio]; try done. by destruct (Hm audio).
    + intros s m. by destruct m as [[]| |].
  - refine (audio_one_to_one (H:=InBand.receiver) _ _ _ messages st).
    + done.
    + intros s m Hm. destruct m as [[fs| | | |]| |audio]; try done.
      * apply inband_no_media.
      * by destruct (Hm audio).
    + apply inband_sid.
  - refine (audio_one_to_one (H:=Reconnecting.receiver) _ _ _ messages st).
    + done.
    + intros s m. apply reconnecting_message_facts.
    + intros s m. apply reconnecting_message_facts.
Qed.

Lemma reconnecting_state_language messages : forall st,
  is_Some (DEEPGRAM_VOICES (Reconnecting.current_language st)) ->
  is_Some (DEEPGRAM_VOICES
             (Reconnecting.current_language (receiver_state st messages))).
Proof.
  induction messages as [|m ms IH]; intros st Hst; [done|].
  cbn [receiver_state on_message Reconnecting.receiver].
  destruct (reconnecting_message_facts st m) as (_ & _ & Hlang & _).
  destruct (Reconnecting.on_message st m) as [[st' a] alive]. cbn [fst] in Hlang.
  destruct alive; auto.
Qed.

Lemma reconnecting_log_responses messages : forall st,
  Forall (fun r => r.1.2 = switch_language
                   /\ exists language, r.2 = lit "Already speaking in " ++ language)
         (responses (deepgram_receiver st messages)).
Proof.
  induction messages as [|m ms IH]; intros st; [constructor|].
  cbn [deepgram_receiver on_message Reconnecting.receiver].
  destruct (reconnecting_message_facts st m) as (_ & _ & _ & Hresp).
  destruct (Reconnecting.on_message st m) as [[st' a] alive]. cbn [fst snd] in Hresp.
  cbn [responses]. rewrite responses_app. apply Forall_app. split; [done|].
  destruct alive; [apply IH|constructor].
Qed.

End PumpFacts.

Import Relay RelayLog.

(** X13: every chunk the uplink puts on the audio queue is shorter than
    [BUFFER_SIZE] plus the largest [media] payload received, so a flush
    never lags by more than one payload. *)
Theorem uplink_chunks_are_bounded (messages : list twilio_event) :
  Forall (fun c => (len c < BUFFER_SIZE + largest_chunk (handled messages))%Z)
         (audio_queue (twilio_receiver uplink_init messages)).
Proof.
  apply (receiver_chunk_bound messages uplink_init); [lia|done|constructor].
Qed.


(** X15: in each of the three routers the downlink forwards to the
    telephony leg exactly the binary messages it received from the
    agent connection, once each, in the order received, as [media]
    events carrying the stream identifier. *)
Theorem downlink_audio_one_to_one (p : pump) (messages : list agent_message) :
  forwarded_audio (run_pump p messages)
  = map (fun audio => (pump_sid p, audio)) (received_audio (run_pump p messages)).
Proof. apply run_pump_audio. Qed.

(** X16: in the in-band variant the locals of the receiver survive from
    one message to the next: after a client-side [switch_language] call
    with decodable arguments, a [FunctionCallRequest] with an empty
    [functions] array makes the receiver send the same clear, voice
    update, prompt update and function response once more. *)
Theorem inband_empty_request_repeats_switch
    (st : InBand.state) (f : func) (l : option text) :
  client_side f = true ->
  fn_name f = Some switch_language ->
  fn_arguments f = ArgsObject l ->
  let first := InBand.on_message st (TextMessage (FunctionCallRequest [f])) in
  let again := InBand.on_message first.1.1 (TextMessage (FunctionCallRequest [])) in
  again.1.2 = first.1.2 /\ again.2 = true /\ length first.1.2 = 4.
Proof.
  intros Hc Hn Ha first again. unfold again, first.
  cbn [InBand.on_message]. unfold InBand.on_function_call.
  cbn [fold_left]. unfold InBand.bind_func. rewrite Hc.
  cbn [InBand.function_name InBand.var_func InBand.function_call_id].
  rewrite Hn. rewrite bool_decide_eq_true_2 by done.
  unfold InBand.switch. rewrite Ha.
  cbn [fst snd InBand.set_voice InBand.function_name InBand.var_func
       InBand.function_call_id InBand.sid].
  rewrite bool_decide_eq_true_2 by done. rewrite Ha. done.
Qed.

Lemma inband_empty_request_repeats_switch_witness :
  let st := InBand.init Scenario.stream in
  let first := InBand.on_message st
                 (TextMessage (FunctionCallRequest [Scenario.client_side_call])) in
  let again := InBand.on_message first.1.1 (TextMessage (FunctionCallRequest [])) in
  client_side Scenario.client_side_call = true
  /\ again.1.2 = first.1.2
  /\ length first.1.2 = 4.
Proof.
  intros st first again.
  destruct (inband_empty_request_repeats_switch st Scenario.client_side_call
              (Some (lit "en")) eq_refl eq_refl eq_refl) as (Hsame & _ & Hlen).
  auto.
Defined.

(** X17: in the reconnecting variant the language of the call is always
    one the voice table knows: whatever messages arrive and whether or
    not reconnections succeed, [current_language] is "en" or "es". *)
Theorem reconnecting_language_has_voice
    (sid : text) (connects : list bool) (messages : list agent_message) :
  let st := receiver_state (Reconnecting.init sid connects) messages in
  Reconnecting.current_language st = lit "en"
  \/ Reconnecting.current_language st = lit "es".
Proof.
  intros st.
  assert (Hv : is_Some (DEEPGRAM_VOICES (Reconnecting.current_language st))).
  { apply reconnecting_state_language. by eexists. }
  unfold DEEPGRAM_VOICES, eqb in Hv.
  repeat case_bool_decide; auto. by destruct Hv.
Qed.

(** X18: the reconnecting variant answers a function call only when it
    does nothing.  In any run every [FunctionCallResponse] it sends is
    the "Already speaking in ..." response to [switch_language].  For
    each entry of a [functions] array, in any state of the call: a
    response is sent exactly when the entry is a client-side
    [switch_language] call with decodable arguments whose language is
    the current one, and then the response, which names that language,
    is the only thing done and the state of the call is unchanged; a
    reconnection happens exactly when such a call names another
    language, and then the receiver sends [clear] and reconnects with
    the end of the history, sends no response, and takes the new
    language only when the reconnection succeeded. *)
Theorem reconnecting_only_acknowledges_noop
    (st : Reconnecting.state) (f : func) (messages : list agent_message) :
  let switch_to target :=
    client_side f = true /\ fn_name f = Some switch_language
    /\ exists l, fn_arguments f = ArgsObject l /\ default (lit "en") l = target in
  let out := Reconnecting.on_func st f in
  Forall (fun r => r.1.2 = switch_language
                   /\ exists language, r.2 = lit "Already speaking in " ++ language)
         (responses (deepgram_receiver st messages))
  /\ ((exists r, In (AgentSend r) out.1.2)
      <-> switch_to (Reconnecting.current_language st))
  /\ (switch_to (Reconnecting.current_language st) ->
      out = (st,
             [AgentSend (FunctionCallResponse (fn_id f) switch_language
                           (lit "Already speaking in "
                            ++ Reconnecting.current_language st))],
             true))
  /\ ((exists language history ok, In (Reconnect language history ok) out.1.2)
      <-> exists target,
            switch_to target /\ target <> Reconnecting.current_language st)
  /\ (forall target,
        switch_to target -> target <> Reconnecting.current_language st ->
        out.1.2
        = [TwilioClear (Reconnecting.sid st);
           Reconnect target
             (Reconnecting.history_to_save (Reconnecting.conversation_history st))
             (Reconnecting.connect_outcome st target)]
        /\ Reconnecting.current_language out.1.1
           = (if Reconnecting.connect_outcome st target then target
              else Reconnecting.current_language st)
        /\ Reconnecting.conversation_history out.1.1
           = Reconnecting.conversation_history st
        /\ out.2 = true).
Proof.
  intros switch_to out. split; [apply reconnecting_log_responses|].
  assert (Hsame : switch_to (Reconnecting.current_language st) ->
                  out = (st,
                         [AgentSend (FunctionCallResponse (fn_id f) switch_language
                                       (lit "Already speaking in "
                                        ++ Reconnecting.current_language st))],
                         true)).
  { intros (Hc & Hn & l & Ha & Hl). unfold out, Reconnecting.on_func.
    rewrite Hc, Ha, Hl. rewrite bool_decide_eq_true_2 by done. cbn [andb].
    unfold eqb. by rewrite bool_decide_eq_true_2. }
  assert (Hother : forall target,
             switch_to target -> target <> Reconnecting.current_language st ->
             out = ({| Reconnecting.sid := Reconnecting.sid st;
                       Reconnecting.current_language :=
                         if Reconnecting.connect_outcome st target then target
                         else Reconnecting.current_language st;
                       Reconnecting.conversation_history :=
                         Reconnecting.conversation_history st;
                       Reconnecting.connects := tl (Reconnecting.connects st) |},
                    [TwilioClear (Reconnecting.sid st);
                     Reconnect target
                       (Reconnecting.history_to_save
                          (Reconnecting.conversation_history st))
                       (Reconnecting.connect_outcome st target)],
                    true)).
  { intros target (Hc & Hn & l & Ha & Hl) Hne. unfold out, Reconnecting.on_func.
    rewrite Hc, Ha, Hl. rewrite bool_decide_eq_true_2 by done. cbn [andb].
    unfold eqb. by rewrite bool_decide_eq_false_2. }
  assert (Hnone : (forall target, ~ switch_to target) -> out = (st, [], true)
                                                       \/ out = (st, [], false)).
  { intros Hno. unfold out, Reconnecting.on_func.
    destruct (client_side f) eqn:Hc; cbn [andb]; [|by left].
    case_bool_decide as Hn; [|by left].
    destruct (fn_arguments f) as [|l] eqn:Ha; [by right|].
    exfalso. apply (Hno (default (lit "en") l)). repeat split; try done.
    by exists l. }
  assert (Hcases : (forall target, ~ switch_to target)
                   \/ exists target, switch_to target).
  { destruct (client_side f) eqn:Hc; [|left; by intros ? (? & _)].
    destruct (decide (fn_name f = Some switch_language)) as [Hn|Hn];
      [|left; by intros ? (_ & ? & _)].
    destruct (fn_arguments f) as [|l] eqn:Ha;
      [left; by intros ? (_ & _ & ? & ? & _)|].
    right. exists (default (lit "en") l). repeat split; try done. by exists l. }
  split; [|split; [exact Hsame|split]].
  - split.
    + intros (r & Hr). destruct Hcases as [Hno|(target & Ht)].
      * exfalso. destruct (Hnone Hno) as [Ho|Ho]; rewrite Ho in Hr; destruct Hr.
      * destruct (decide (target = Reconnecting.current_language st)) as [<-|Hne];
          [done|].
        exfalso. rewrite (Hother target Ht Hne) in Hr. cbn [fst snd] in Hr.
        destruct Hr as [Hr|[Hr|[]]]; discriminate Hr.
    + intros Ht. rewrite (Hsame Ht). eexists. by left.
  - split.
    + intros (language & history & ok & Hr). destruct Hcases as [Hno|(target & Ht)].
      * exfalso. destruct (Hnone Hno) as [Ho|Ho]; rewrite Ho in Hr; destruct Hr.
      * exists target. split; [done|]. intros Heq. subst target.
        rewrite (Hsame Ht) in Hr. cbn [fst snd] in Hr.
        destruct Hr as [Hr|[]]. discriminate Hr.
    + intros (target & Ht & Hne). rewrite (Hother target Ht Hne).
      do 3 eexists. right. by left.
  - intros target Ht Hne. by rewrite (Hother target Ht Hne).
Qed.

(** A client-side call for Spanish while the call is in English, and
    the agent connection opens: the receiver clears and reconnects, and
    sends no response. *)
Lemma reconnecting_only_acknowledges_noop_witness :
  let st := Reconnecting.init Scenario.stream [true] in
  let f := {| client_side := true; fn_name := Some switch_language;
              fn_id := Some (lit "call_2");
              fn_arguments := ArgsObject (Some (lit "es")) |} in
  lit "es" <> Reconnecting.current_language st
  /\ (Reconnecting.on_func st f).1.2
     = [TwilioClear Scenario.stream; Reconnect (lit "es") [] true]
  /\ Reconnecting.current_language (Reconnecting.on_func st f).1.1 = lit "es".
Proof.
  intros st f.
  assert (Hne : lit "es" <> Reconnecting.current_language st)
    by (vm_compute; discriminate).
  assert (Hsw : client_side f = true /\ fn_name f = Some switch_language
                /\ exists l, fn_arguments f = ArgsObject l
                             /\ default (lit "en") l = lit "es")
    by (repeat split; by exists (Some (lit "es"))).
  destruct (reconnecting_only_acknowledges_noop st f []) as (_ & _ & _ & _ & Hre).
  destruct (Hre (lit "es") Hsw Hne) as (Hact & Hlang & _).
  split; [exact Hne|]. split; [exact Hact|exact Hlang].
Defined.

(** The history replayed on a reconnection is the end of the
    conversation history, at most its last ten entries, in order. *)
Theorem history_to_save_last_ten (h : list (text * text)) :
  exists earlier,
    h = earlier ++ Reconnecting.history_to_save h
    /\ length (Reconnecting.history_to_save h) = Nat.min 10 (length h).
Proof.
  unfold Reconnecting.history_to_save.
  destruct (Nat.ltb_spec 10 (length h)) as [Hlong|Hshort].
  - exists (firstn (length h - 10) h). split; [by rewrite firstn_skipn|].
    rewrite length_skipn. lia.
  - exists []. split; [done|]. lia.
Qed.

(** * The stream address *)

Section Addresses.

Lemma replace_from_skip old new w : forall rest,
  replace_from old new (length w) (w ++ rest) = replace old new rest.
Proof. induction w as [|c w IH]; intros rest; [done|]. cbn. apply IH. Qed.

(** An occurrence at the very start is replaced, and the scan goes on
    behind it. *)
Lemma replace_prefix old new rest :
  old <> [] -> replace old new (old ++ rest) = new ++ replace old new rest.
Proof.
  intros Hne. destruct old as [|a old]; [done|].
  unfold replace at 1. cbn [app replace_from].
  assert (Hs : startswith (a :: old) (a :: old ++ rest) = true).
  { apply startswith_spec. by exists rest. }
  rewrite Hs. cbn [length Nat.pred]. by rewrite replace_from_skip.
Qed.

Lemma contains_cons_false w c s :
  contains w (c :: s) = false -> contains w s = false.
Proof. cbn [contains]. by intros [_ ?]%orb_false_iff. Qed.

(** A text in which the word does not occur is left as it is. *)
Lemma replace_absent old new s :
  old <> [] -> contains old s = false -> replace old new s = s.
Proof.
  intros Hne. unfold replace. induction s as [|c s IH]; [done|].
  intros Hno. cbn [replace_from].
  assert (Hs : startswith old (c :: s) = false).
  { cbn [contains] in Hno. by apply orb_false_iff in Hno as [? _]. }
  rewrite Hs, IH; [done|]. by apply (contains_cons_false old c).
Qed.

(** A word occurs wherever a longer word that starts with it occurs. *)
Lemma contains_shorter w w' s : contains w s = false -> contains (w ++ w') s = false.
Proof.
  intros Hno. destruct (contains (w ++ w') s) eqn:Hc; [|done].
  apply contains_spec in Hc as (pre & post & ->).
  assert (contains w (pre ++ (w ++ w') ++ post) = true); [|congruence].
  apply contains_spec. exists pre, (w' ++ post). by rewrite <- app_assoc.
Qed.

(** Characters that cannot start the word do not create an occurrence. *)
Lemma contains_after a w pre s :
  ~ In a pre -> contains (a :: w) s = false -> contains (a :: w) (pre ++ s) = false.
Proof.
  intros Hpre Hno. induction pre as [|c pre IH]; [done|].
  cbn [app contains startswith]. apply orb_false_iff. split.
  - rewrite bool_decide_eq_false_2; [done|]. intros ->. apply Hpre. by left.
  - apply IH. intros ?. apply Hpre. by right.
Qed.

End Addresses.

(** X19: for a server address without any further occurrence of
    "http", the stream address is the same address with [https://]
    turned into [wss://], or [http://] into [ws://], followed by
    [/twilio]; an address with neither scheme only gets [/twilio]
    appended. *)
Theorem websocket_url_scheme (host : text) :
  contains (lit "http") host = false ->
  Twiml.websocket_url (lit "https://" ++ host) = lit "wss://" ++ host ++ lit "/twilio"
  /\ Twiml.websocket_url (lit "http://" ++ host) = lit "ws://" ++ host ++ lit "/twilio"
  /\ Twiml.websocket_url host = host ++ lit "/twilio".
Proof.
  intros Hno.
  assert (Hhttp : contains (lit "http://") host = false)
    by apply (contains_shorter (lit "http") (lit "://") host Hno).
  assert (Hhttps : contains (lit "https://") host = false)
    by apply (contains_shorter (lit "http") (lit "s://") host Hno).
  unfold Twiml.websocket_url. repeat split.
  - rewrite replace_prefix by done. rewrite (replace_absent _ _ host) by done.
    rewrite replace_absent; [by rewrite <- app_assoc|done|].
    apply (contains_after "h" (lit "ttp://") (lit "wss://") host); [|done].
    cbn. intros [H|[H|[H|[H|[H|[H|[]]]]]]]; discriminate H.
  - rewrite (replace_absent (lit "https://")); [|done|].
    + rewrite replace_prefix by done. rewrite (replace_absent _ _ host) by done.
      by rewrite <- app_assoc.
    + change (lit "http://" ++ host) with ("h"%char :: lit "ttp://" ++ host).
      cbn [contains]. apply orb_false_iff. split; [reflexivity|].
      apply (contains_after "h" (lit "ttps://") (lit "ttp://") host); [|done].
      cbn. intros [H|[H|[H|[H|[H|[H|[]]]]]]]; discriminate H.
  - rewrite (replace_absent (lit "https://")) by done.
    by rewrite replace_absent.
Qed.

Lemma websocket_url_scheme_witness :
  contains (lit "http") (lit "avery.example.com") = false
  /\ Twiml.websocket_url (lit "https://avery.example.com")
     = lit "wss://avery.example.com/twilio".
Proof.
  assert (Hno : contains (lit "http") (lit "avery.example.com") = false)
    by (vm_compute; reflexivity).
  split; [exact Hno|].
  exact (proj1 (websocket_url_scheme (lit "avery.example.com") Hno)).
Defined.

(** * The payment prototype *)

Section Payments.

Import MakePayment.

Variable call_llm : text -> text.

Local Abbreviation process_request := (MakePayment.process_request call_llm).
Local Abbreviation review := (MakePayment.review call_llm).

Lemma decide_result r p trace :
  MakePayment.result_of (decide r p trace)
  = Some (if bool_decide (decision_of p = lit "pay_now"
                          \/ decision_of p = lit "pay_now_and_schedule")
          then lit "payment_processed"
          else if bool_decide (decision_of p = lit "promise_to_pay")
               then lit "promise_to_pay" else lit "no_action").
Proof.
  unfold decide, eqb.
  repeat case_bool_decide; cbn [orb MakePayment.result_of]; try reflexivity;
    exfalso; intuition congruence.
Qed.

Lemma existsb_snoc {A} (f : A -> bool) l x : existsb f (l ++ [x]) = existsb f l || f x.
Proof. rewrite existsb_app. cbn. by rewrite orb_false_r. Qed.

(** What [decide] appends holds no language-model step. *)
Lemma decide_llm r p trace :
  existsb is_llm_step (trace_of (decide r p trace)) = existsb is_llm_step trace.
Proof.
  unfold decide.
  repeat case_match; cbn [trace_of];
    rewrite ?existsb_app; cbn [existsb is_llm_step]; by rewrite ?orb_false_r.
Qed.

Lemma decide_collects r p trace :
  existsb is_account_collected (trace_of (decide r p trace))
  = existsb is_account_collected trace
    || (negb (account_on_file r) && eqb (decision_of p) (lit "pay_now")).
Proof.
  unfold decide.
  destruct (account_on_file r); cbn [negb andb];
    repeat case_match; cbn [trace_of];
    rewrite ?existsb_app; cbn [existsb is_account_collected];
    rewrite ?orb_false_r; try reflexivity; try congruence.
  all: by rewrite orb_true_r.
Qed.

Lemma review_llm r id :
  existsb is_llm_step (review r id) = (15 <? default 0 (DaysLate r))%Z.
Proof.
  unfold MakePayment.review.
  destruct (15 <? default 0 (DaysLate r))%Z;
    rewrite ?existsb_app; cbn [existsb is_llm_step app]; reflexivity.
Qed.

Lemma review_collects r id : existsb is_account_collected (review r id) = false.
Proof.
  unfold MakePayment.review.
  destruct (15 <? default 0 (DaysLate r))%Z;
    rewrite ?existsb_app; cbn [existsb is_account_collected app]; reflexivity.
Qed.

End Payments.

Import MakePayment.

(** X20: a request ends as [payment_processed] exactly when its borrower
    is in the sheet, the borrower's status is not "already paid", and
    the decision is [pay_now] or [pay_now_and_schedule], where a request
    that names no decision counts as [pay_now]. *)
Theorem payment_processed_iff
    (call_llm : text -> text) (df : list row) (p : payload) :
  MakePayment.result_of (process_request call_llm df p) = Some (lit "payment_processed")
  <-> exists id r,
        borrower_id p = Some id
        /\ get_row df id = Some r
        /\ payment_status r <> lit "already paid"
        /\ (decision_of p = lit "pay_now"
            \/ decision_of p = lit "pay_now_and_schedule").
Proof.
  unfold process_request.
  destruct (borrower_id p) as [id|];
    [|split; [intros H; discriminate H|by intros (? & ? & ? & _)]].
  destruct (get_row df id) as [r|] eqn:Hrow;
    [|split; [intros H; discriminate H
             |intros (? & ? & ? & ? & _); simplify_eq; congruence]].
  unfold eqb. case_bool_decide as Hpaid.
  - split; [intros H; vm_compute in H; discriminate H|].
    intros (id' & r' & ? & ? & Hnot & _). simplify_eq; congruence.
  - rewrite decide_result. split.
    + intros Hres. exists id, r. repeat split; try done.
      repeat case_bool_decide; try done; vm_compute in Hres; discriminate Hres.
    + intros (id' & r' & ? & ? & _ & Hd). simplify_eq.
      by rewrite bool_decide_eq_true_2.
Qed.

(** X21: when the sheet gives the borrower's status as "already paid",
    in any letter case and with any surrounding white space, the request
    ends as [already_paid] with no confirmation number, and nothing else
    in the request matters: two requests for that borrower get the same
    answer. *)
Theorem already_paid_ignores_request
    (call_llm : text -> text) (df : list row) (p p' : payload) (id : Z) (r : row) :
  borrower_id p = Some id ->
  borrower_id p' = Some id ->
  get_row df id = Some r ->
  lower (strip (cell_text (PaymentStatus r))) = lit "already paid" ->
  process_request call_llm df p = process_request call_llm df p'
  /\ MakePayment.result_of (process_request call_llm df p) = Some (lit "already_paid")
  /\ confirmation_of (process_request call_llm df p) = None.
Proof.
  intros Hp Hp' Hr Hpaid. unfold process_request. rewrite Hp, Hp', Hr.
  unfold payment_status, eqb. rewrite Hpaid.
  by rewrite bool_decide_eq_true_2.
Qed.

Lemma already_paid_ignores_request_witness :
  let p' := {| borrower_id := Some 7%Z; decision := Some (lit "pay_now");
               ach_account_type := None; RoutingNumber := Some (lit "021000021");
               LastFourOfAccount := Some (lit "9876") |} in
  lower (strip (cell_text (PaymentStatus paid_row))) = lit "already paid"
  /\ process_request mock_llm [paid_row] bare_request
     = process_request mock_llm [paid_row] p'
  /\ MakePayment.result_of (process_request mock_llm [paid_row] bare_request)
     = Some (lit "already_paid").
Proof.
  intros p'.
  assert (Hpaid : lower (strip (cell_text (PaymentStatus paid_row))) = lit "already paid")
    by (vm_compute; reflexivity).
  destruct (already_paid_ignores_request mock_llm [paid_row] bare_request p' 7 paid_row
              eq_refl eq_refl eq_refl Hpaid) as (Hsame & Hres & _).
  auto.
Defined.

(** X22: the language model is consulted exactly for the borrowers of
    the sheet who are more than fifteen days late (an empty cell counts
    as zero days): only then does the trace hold its suggestion. *)
Theorem llm_consulted_iff_late
    (call_llm : text -> text) (df : list row) (p : payload) :
  existsb is_llm_step (trace_of (process_request call_llm df p)) = true
  <-> exists id r,
        borrower_id p = Some id /\ get_row df id = Some r
        /\ (15 < default 0 (DaysLate r))%Z.
Proof.
  unfold process_request.
  destruct (borrower_id p) as [id|];
    [|split; [intros H; discriminate H|by intros (? & ? & ? & _)]].
  destruct (get_row df id) as [r|] eqn:Hrow;
    [|split; [intros H; discriminate H
             |intros (? & ? & ? & ? & _); simplify_eq; congruence]].
  assert (Hlate : existsb is_llm_step
                    (trace_of (if eqb (payment_status r) (lit "already paid")
                               then Done (lit "already_paid")
                                      (review call_llm r id ++ [StepAlreadyPaid]) None
                               else decide r p (review call_llm r id)))
                  = (15 <? default 0 (DaysLate r))%Z).
  { destruct (eqb _ _); cbn [trace_of].
    - by rewrite existsb_snoc, review_llm, orb_false_r.
    - by rewrite decide_llm, review_llm. }
  rewrite Hlate, Z.ltb_lt. split.
  - intros ?. by exists id, r.
  - intros (id' & r' & Hid & Hr' & Hlate'). injection Hid as <-.
    rewrite Hrow in Hr'. by injection Hr' as <-.
Qed.

(** X23: account details are collected exactly when the borrower is in
    the sheet, is not already paid, has no account on file, and the
    decision is [pay_now] (named or by default).  With
    [pay_now_and_schedule] the payment is processed without them. *)
Theorem account_collected_iff
    (call_llm : text -> text) (df : list row) (p : payload) :
  existsb is_account_collected (trace_of (process_request call_llm df p)) = true
  <-> exists id r,
        borrower_id p = Some id /\ get_row df id = Some r
        /\ payment_status r <> lit "already paid"
        /\ account_on_file r = false
        /\ decision_of p = lit "pay_now".
Proof.
  unfold process_request.
  destruct (borrower_id p) as [id|];
    [|split; [intros H; discriminate H|by intros (? & ? & ? & _)]].
  destruct (get_row df id) as [r|] eqn:Hrow;
    [|split; [intros H; discriminate H
             |intros (? & ? & ? & ? & _); simplify_eq; congruence]].
  unfold eqb at 1. case_bool_decide as Hpaid; cbn [trace_of].
  - rewrite existsb_snoc, review_collects. cbn. split; [done|].
    intros (id' & r' & ? & ? & Hnot & _). simplify_eq; congruence.
  - rewrite decide_collects, review_collects. cbn [orb].
    rewrite andb_true_iff, negb_true_iff. unfold eqb. rewrite bool_decide_eq_true.
    split.
    + intros [? ?]. by exists id, r.
    + intros (id' & r' & ? & ? & _ & ? & ?). simplify_eq;
      (split; [congruence|done]).
Qed.

(** * The router driven by the state machine *)

Section RagPump.

Import RagService RagRouter.

Variable fromisoformat : text -> option date.

Local Abbreviation process := (process_utterance fromisoformat).
Local Abbreviation process_all := (RagService.process_all fromisoformat).
Local Abbreviation receive := (RagRouter.receive fromisoformat).
Local Abbreviation on_message := (RagRouter.on_message fromisoformat).
Local Abbreviation on_user_text := (RagRouter.on_user_text fromisoformat).

(** Looking a session up twice creates it once. *)
Lemma get_session_again svc phone :
  get_session (get_session svc phone).1 phone = get_session svc phone.
Proof.
  unfold get_session at 2 3.
  destruct (sessions svc !! phone) as [s|] eqn:Hs; cbn [fst].
  - by apply get_session_stored.
  - apply get_session_stored, with_session_lookup.
Qed.

Lemma process_after_get_session svc phone u :
  strip phone = phone ->
  process (get_session svc phone).1 phone u = process svc phone u.
Proof using Type.
  intros Hstrip. unfold process_utterance. rewrite Hstrip.
  by rewrite get_session_again.
Qed.

Lemma get_session_stage svc phone :
  strip phone = phone ->
  sess_stage (get_session svc phone).2
  = sess_stage (default new_session (session_of svc phone)).
Proof.
  intros Hstrip. unfold get_session, session_of. rewrite Hstrip.
  by destruct (sessions svc !! phone).
Qed.

Lemma spoken_empty : spoken RespEmpty = false.
Proof. reflexivity. Qed.

(** Once the session is in [transfer] the state machine has nothing
    more to say. *)
Lemma transfer_run_silent svc phone s us :
  session_of svc phone = Some s -> sess_stage s = Transfer ->
  List.filter spoken (map res_response (until_transfer (process_all svc phone us).2)) = [].
Proof using Type.
  intros Hs Ht. destruct us as [|u us]; [done|].
  rewrite process_all_cons. cbn [snd until_transfer].
  by rewrite (process_in_transfer fromisoformat svc phone u s Hs Ht).
Qed.

Lemma phone_of_with_rag st svc sid : phone_of (with_rag st svc) sid = phone_of st sid.
Proof. done. Qed.

Lemma injected_app l1 l2 : injected (l1 ++ l2) = injected l1 ++ injected l2.
Proof.
  induction l1 as [|[m|[]] l1 IH]; cbn [app injected]; by rewrite ?IH.
Qed.

(** A user turn with text, for a call whose phone is known. *)
Lemma on_user_text_known st sid phone content :
  phone_of st sid = Some phone -> strip phone = phone ->
  on_user_text st sid content
  = if bool_decide (sess_stage (default new_session
                                  (session_of (rag_service st) phone)) = Transfer)
    then (with_rag st (get_session (rag_service st) phone).1, [], true)
    else (with_rag st (process (rag_service st) phone content).1,
          if spoken (res_response (process (rag_service st) phone content).2)
          then [InjectAgentMessage (res_response (process (rag_service st) phone content).2)]
          else [],
          negb (res_transfer (process (rag_service st) phone content).2)).
Proof using Type.
  intros Hphone Hstrip. unfold RagRouter.on_user_text. rewrite Hphone.
  pose proof (get_session_stage (rag_service st) phone Hstrip) as Hst.
  pose proof (process_after_get_session (rag_service st) phone content Hstrip) as Hp.
  destruct (get_session (rag_service st) phone) as [svc s]. cbn [fst snd] in *.
  rewrite Hst. case_bool_decide; [done|]. rewrite Hp.
  by destruct (process (rag_service st) phone content).
Qed.

Lemma receive_follows messages : forall st sid phone,
  phone_of st sid = Some phone -> strip phone = phone ->
  injected (receive st sid messages).2
  = List.filter spoken
      (map res_response
         (until_transfer (process_all (rag_service st) phone (user_turns messages)).2)).
Proof using Type.
  induction messages as [|m ms IH]; intros st sid phone Hphone Hstrip; [done|].
  cbn [RagRouter.receive].
  assert (Hskip : forall st', st' = st ->
            injected (let '(st'', log) := receive st' sid ms in
                      (st'', Received m :: map Did [] ++ log)).2
            = List.filter spoken
                (map res_response
                   (until_transfer
                      (process_all (rag_service st) phone (user_turns ms)).2))).
  { intros st' ->. specialize (IH st sid phone Hphone Hstrip).
    by destruct (receive st sid ms). }
  destruct m as [[fs| |role content| |]| |audio];
    cbn [RagRouter.on_message user_turns]; try (by apply Hskip); try done;
    try (specialize (IH st sid phone Hphone Hstrip);
         destruct (receive st sid ms) as [st'' log]; exact IH).
  destruct (eqb role (lit "user") && negb (eqb (strip content) []));
      [|by apply Hskip].
  rewrite (on_user_text_known st sid phone content Hphone Hstrip).
  destruct (session_of (rag_service st) phone) as [s|] eqn:Hs; cbn [default from_option id].
  - case_bool_decide as Ht.
    + specialize (IH (with_rag st (get_session (rag_service st) phone).1) sid phone
                     Hphone Hstrip).
      assert (Hsame : (get_session (rag_service st) phone).1 = rag_service st).
      { unfold session_of in Hs. rewrite Hstrip in Hs.
        by rewrite (get_session_stored _ _ _ Hs). }
      rewrite Hsame in IH |- *. cbn [rag_service with_rag] in IH.
      destruct (receive (with_rag st (rag_service st)) sid ms) as [st'' log].
      cbn [snd map app injected] in IH |- *.
      rewrite IH, !(transfer_run_silent _ _ s _ Hs Ht). done.
    + rewrite process_all_cons. cbn [snd until_transfer map List.filter].
      destruct (res_transfer (process (rag_service st) phone content).2) eqn:Htr;
        cbn [negb].
      * cbn [snd injected]. rewrite injected_app.
        destruct (spoken _); cbn [map app injected]; by rewrite ?app_nil_r.
      * specialize (IH (with_rag st (process (rag_service st) phone content).1)
                       sid phone Hphone Hstrip).
        cbn [rag_service with_rag] in IH.
        destruct (receive _ sid ms) as [st'' log]. cbn [snd injected] in *.
        rewrite injected_app, IH.
        destruct (spoken _); cbn [map app injected]; done.
  - rewrite bool_decide_eq_false_2 by done.
    rewrite process_all_cons. cbn [snd until_transfer map List.filter].
    destruct (res_transfer (process (rag_service st) phone content).2) eqn:Htr;
      cbn [negb].
    + cbn [snd injected]. rewrite injected_app.
      destruct (spoken _); cbn [map app injected]; by rewrite ?app_nil_r.
    + specialize (IH (with_rag st (process (rag_service st) phone content).1)
                     sid phone Hphone Hstrip).
      cbn [rag_service with_rag] in IH.
      destruct (receive _ sid ms) as [st'' log]. cbn [snd injected] in *.
      rewrite injected_app, IH.
      destruct (spoken _); cbn [map app injected]; done.
Qed.

Lemma greet_known st sid phone :
  phone_of st sid = Some phone ->
  RagRouter.greet fromisoformat st sid
  = (with_rag st (process (rag_service st) phone []).1,
     if nonempty (res_response (process (rag_service st) phone []).2)
     then [InjectAgentMessage (res_response (process (rag_service st) phone []).2)]
     else []).
Proof using Type.
  intros Hphone. unfold RagRouter.greet. rewrite Hphone.
  by destruct (process (rag_service st) phone []).
Qed.

Lemma deepgram_receiver_follows st sid phone messages :
  phone_of st sid = Some phone -> strip phone = phone ->
  let first := process (rag_service st) phone [] in
  injected (RagRouter.deepgram_receiver fromisoformat st sid messages).2
  = (if nonempty (res_response first.2) then [res_response first.2] else [])
    ++ List.filter spoken
         (map res_response
            (until_transfer (process_all first.1 phone (user_turns messages)).2)).
Proof using Type.
  intros Hphone Hstrip first. unfold RagRouter.deepgram_receiver.
  rewrite (greet_known st sid phone Hphone). fold first.
  pose proof (receive_follows messages (with_rag st first.1) sid phone Hphone Hstrip)
    as Hloop.
  cbn [rag_service with_rag] in Hloop.
  destruct (receive (with_rag st first.1) sid messages) as [st'' log].
  cbn [snd] in *. rewrite injected_app, Hloop.
  by destruct (nonempty (res_response first.2)).
Qed.

(** The first turn of a caller without a session. *)
Lemma process_without_session svc phone :
  strip phone = phone -> sessions svc !! phone = None ->
  process svc phone []
  = match db svc phone with
    | Found b =>
        (with_session (with_session svc phone new_session) phone
           (set_attempts 0 (set_stage ConfirmIdentity new_session)),
         {| res_response := RespGreeting (display_name b);
            res_stage := ConfirmIdentity; res_transfer := false |})
    | Absent =>
        (with_session (with_session svc phone new_session) phone
           (set_stage Transfer new_session),
         {| res_response := RespNoRecord; res_stage := NoRecord;
            res_transfer := true |})
    | Failed => (with_session svc phone new_session, error_result)
    end.
Proof using Type.
  intros Hstrip Hnone. unfold process_utterance. rewrite Hstrip.
  rewrite (get_session_created _ _ Hnone).
  rewrite bool_decide_eq_false_2 by done. cbn [db with_session].
  by destruct (db svc phone).
Qed.

Lemma phone_of_on_start st streamSid callSid key :
  borrower_key st callSid = Some key -> key <> [] ->
  phone_of (RagRouter.on_start st streamSid callSid) streamSid = Some key.
Proof.
  intros Hkey Hne. unfold phone_of, RagRouter.on_start. rewrite Hkey.
  cbn [active_calls]. rewrite lookup_insert_eq. cbn [from_number].
  by rewrite bool_decide_eq_false_2.
Qed.

Lemma rag_service_on_start st streamSid callSid key :
  borrower_key st callSid = Some key ->
  rag_service (RagRouter.on_start st streamSid callSid)
  = clear_session (rag_service st) key.
Proof. intros Hkey. unfold RagRouter.on_start. by rewrite Hkey. Qed.

Lemma nonempty_greeting who : nonempty (RespGreeting who) = true.
Proof. reflexivity. Qed.

End RagPump.

(** X24: what the router injects into the agent connection is the state
    machine's answer to the empty greeting turn, when it has text,
    followed by its answers with text to the user turns with text, in
    order, up to and including the first answer that asks for a
    transfer.  Agent turns, blank user turns, barge-in notices and audio
    never reach the state machine. *)
Theorem router_injects_state_machine_answers
    (fromisoformat : text -> option date) (st : RagRouter.state)
    (sid phone : text) (messages : list Relay.agent_message) :
  RagRouter.phone_of st sid = Some phone ->
  strip phone = phone ->
  let first := RagService.process_utterance fromisoformat
                 (RagRouter.rag_service st) phone [] in
  RagRouter.injected (RagRouter.deepgram_receiver fromisoformat st sid messages).2
  = (if RagRouter.nonempty (RagService.res_response first.2)
     then [RagService.res_response first.2] else [])
    ++ List.filter RagRouter.spoken
         (map RagService.res_response
            (RagRouter.until_transfer
               (RagService.process_all fromisoformat first.1 phone
                  (RagRouter.user_turns messages)).2)).
Proof. apply deepgram_receiver_follows. Qed.

(** A call in which the caller fails the date of birth three times: the
    turn said after the transfer is not answered. *)
Lemma router_injects_state_machine_answers_witness :
  let messages :=
    [RagRouter.user_says "yes"; Relay.BinaryMessage [Byte.x01];
     Relay.TextMessage Relay.UserStartedSpeaking;
     RagRouter.user_says "11111111"; RagRouter.user_says "22222222";
     RagRouter.user_says "33333333"; RagRouter.user_says "09141986"] in
  RagRouter.phone_of (RagRouter.in_progress Scenario.fresh) Scenario.stream
  = Some Scenario.caller
  /\ strip Scenario.caller = Scenario.caller
  /\ RagRouter.injected
       (RagRouter.deepgram_receiver RagService.fromisoformat_date
          (RagRouter.in_progress Scenario.fresh) Scenario.stream messages).2
     = [RagService.RespGreeting (lit "Jane Doe"); RagService.RespAskDob;
        RagService.RespDobMismatch 1; RagService.RespDobMismatch 2;
        RagService.RespDobTransfer].
Proof.
  intros messages.
  assert (H1 : RagRouter.phone_of (RagRouter.in_progress Scenario.fresh) Scenario.stream
               = Some Scenario.caller) by (vm_compute; reflexivity).
  assert (H2 : strip Scenario.caller = Scenario.caller) by (vm_compute; reflexivity).
  split; [exact H1|]. split; [exact H2|].
  rewrite (router_injects_state_machine_answers RagService.fromisoformat_date
             (RagRouter.in_progress Scenario.fresh) Scenario.stream Scenario.caller
             messages H1 H2).
  vm_compute. reflexivity.
Defined.

(** X25: a call placed through [make_call] is keyed by the number
    dialled.  When the stream starts, the session kept for that number
    is cleared, so a borrower the datastore knows first hears the
    greeting with their name, whatever stage an earlier call to the
    number had reached, and whatever the agent connection delivers. *)
Theorem dialled_call_starts_with_greeting
    (fromisoformat : text -> option date) (st : RagRouter.state)
    (twilio_number : option text) (callSid to streamSid : text)
    (b : RagService.borrower) (messages : list Relay.agent_message) :
  strip to = to ->
  to <> [] ->
  RagService.db (RagRouter.rag_service st) to = RagService.Found b ->
  let started :=
    RagRouter.on_start (RagRouter.make_call st twilio_number callSid to)
      streamSid callSid in
  RagRouter.phone_of started streamSid = Some to
  /\ exists rest,
       RagRouter.injected
         (RagRouter.deepgram_receiver fromisoformat started streamSid messages).2
       = RagService.RespGreeting (RagService.display_name b) :: rest.
Proof.
  intros Hstrip Hne Hdb started.
  assert (Hkey : RagRouter.borrower_key
                   (RagRouter.make_call st twilio_number callSid to) callSid
                 = Some to).
  { unfold RagRouter.borrower_key, RagRouter.make_call.
    cbn [RagRouter.active_calls]. by rewrite lookup_insert_eq. }
  assert (Hphone : RagRouter.phone_of started streamSid = Some to)
    by exact (phone_of_on_start _ streamSid callSid to Hkey Hne).
  split; [exact Hphone|].
  rewrite (deepgram_receiver_follows fromisoformat started streamSid to messages
             Hphone Hstrip).
  unfold started. rewrite (rag_service_on_start _ streamSid callSid to Hkey).
  cbn [RagRouter.make_call RagRouter.rag_service].
  rewrite (process_without_session fromisoformat _ to Hstrip)
    by (unfold RagService.clear_session; cbn [RagService.sessions];
        apply lookup_delete_eq).
  cbn [RagService.clear_session RagService.db]. rewrite Hdb.
  cbn [fst snd RagService.res_response]. rewrite nonempty_greeting.
  eexists. reflexivity.
Qed.

(** A second call to a number whose earlier call ended in [transfer]. *)
Lemma dialled_call_starts_with_greeting_witness :
  let st := RagRouter.in_progress (Scenario.at_step RagService.Transfer) in
  let started :=
    RagRouter.on_start
      (RagRouter.make_call st (Some (lit "+15550001111")) (lit "CA0002") Scenario.caller)
      (lit "MZ0002") (lit "CA0002") in
  strip Scenario.caller = Scenario.caller
  /\ Scenario.caller <> []
  /\ RagService.db (RagRouter.rag_service st) Scenario.caller
     = RagService.Found Scenario.jane
  /\ RagService.stage_of (RagRouter.rag_service st) Scenario.caller
     = Some RagService.Transfer
  /\ RagRouter.phone_of started (lit "MZ0002") = Some Scenario.caller
  /\ exists rest,
       RagRouter.injected
         (RagRouter.deepgram_receiver RagService.fromisoformat_date started
            (lit "MZ0002") [RagRouter.user_says "yes"]).2
       = RagService.RespGreeting (RagService.display_name Scenario.jane) :: rest.
Proof.
  intros st started.
  assert (H1 : strip Scenario.caller = Scenario.caller) by (vm_compute; reflexivity).
  assert (H2 : Scenario.caller <> []) by (vm_compute; discriminate).
  assert (H3 : RagService.db (RagRouter.rag_service st) Scenario.caller
               = RagService.Found Scenario.jane) by (vm_compute; reflexivity).
  split; [exact H1|]. split; [exact H2|]. split; [exact H3|].
  split; [vm_compute; reflexivity|].
  exact (dialled_call_starts_with_greeting RagService.fromisoformat_date st
           (Some (lit "+15550001111")) (lit "CA0002") Scenario.caller (lit "MZ0002")
           Scenario.jane [RagRouter.user_says "yes"] H1 H2 H3).
Defined.

(** X26: a stream whose call identifier was not stored by [make_call] is
    keyed by the call identifier itself.  When the datastore has no
    borrower under that key, the only thing injected is the no-record
    apology: no user turn is answered, whatever the caller says. *)
Theorem unplaced_call_gets_only_the_apology
    (fromisoformat : text -> option date) (st : RagRouter.state)
    (callSid streamSid : text) (messages : list Relay.agent_message) :
  RagRouter.active_calls st !! callSid = None ->
  strip callSid = callSid ->
  callSid <> [] ->
  RagService.db (RagRouter.rag_service st) callSid = RagService.Absent ->
  RagRouter.injected
    (RagRouter.deepgram_receiver fromisoformat
       (RagRouter.on_start st streamSid callSid) streamSid messages).2
  = [RagService.RespNoRecord].
Proof.
  intros Hnew Hstrip Hne Hdb.
  assert (Hkey : RagRouter.borrower_key st callSid = Some callSid)
    by (unfold RagRouter.borrower_key; by rewrite Hnew).
  pose proof (phone_of_on_start st streamSid callSid callSid Hkey Hne) as Hphone.
  rewrite (deepgram_receiver_follows fromisoformat _ streamSid callSid messages
             Hphone Hstrip).
  rewrite (rag_service_on_start _ streamSid callSid callSid Hkey).
  rewrite (process_without_session fromisoformat _ callSid Hstrip)
    by (unfold RagService.clear_session; cbn [RagService.sessions];
        apply lookup_delete_eq).
  cbn [RagService.clear_session RagService.db]. rewrite Hdb.
  cbn [fst snd RagService.res_response].
  rewrite (transfer_run_silent fromisoformat _ callSid
             (RagService.set_stage RagService.Transfer RagService.new_session)).
  - reflexivity.
  - unfold RagService.session_of. rewrite Hstrip. apply with_session_lookup.
  - reflexivity.
Qed.

(** An inbound call, with the table of calls empty. *)
Lemma unplaced_call_gets_only_the_apology_witness :
  let st := {| RagRouter.active_calls := ∅; RagRouter.rag_service := Scenario.fresh |} in
  RagRouter.active_calls st !! lit "CA0009" = None
  /\ strip (lit "CA0009") = lit "CA0009"
  /\ lit "CA0009" <> []
  /\ RagService.db (RagRouter.rag_service st) (lit "CA0009") = RagService.Absent
  /\ RagRouter.injected
       (RagRouter.deepgram_receiver RagService.fromisoformat_date
          (RagRouter.on_start st (lit "MZ0009") (lit "CA0009")) (lit "MZ0009")
          [RagRouter.user_says "yes"; RagRouter.user_says "hello?"]).2
     = [RagService.RespNoRecord].
Proof.
  intros st.
  assert (H1 : RagRouter.active_calls st !! lit "CA0009" = None)
    by (vm_compute; reflexivity).
  assert (H2 : strip (lit "CA0009") = lit "CA0009") by (vm_compute; reflexivity).
  assert (H3 : lit "CA0009" <> []) by (vm_compute; discriminate).
  assert (H4 : RagService.db (RagRouter.rag_service st) (lit "CA0009")
               = RagService.Absent) by (vm_compute; reflexivity).
  split; [exact H1|]. split; [exact H2|]. split; [exact H3|]. split; [exact H4|].
  exact (unplaced_call_gets_only_the_apology RagService.fromisoformat_date st
           (lit "CA0009") (lit "MZ0009")
           [RagRouter.user_says "yes"; RagRouter.user_says "hello?"] H1 H2 H3 H4).
Defined.

(** X27: a user turn whose answer asks for a transfer is the last thing
    the receiver handles.  Whatever the agent connection delivers after
    it is not read: in particular the audio that follows, which is where
    the speech of the injected hand-off message would arrive, is never
    forwarded to the telephony leg. *)
Theorem transfer_ends_the_receiver
    (fromisoformat : text -> option date) (st : RagRouter.state)
    (sid phone content : text) (rest : list Relay.agent_message) :
  RagRouter.phone_of st sid = Some phone ->
  strip phone = phone ->
  strip content <> [] ->
  RagService.stage_of (RagRouter.rag_service st) phone <> Some RagService.Transfer ->
  RagService.res_transfer
    (RagService.process_utterance fromisoformat (RagRouter.rag_service st)
       phone content).2 = true ->
  let turn := Relay.TextMessage (Relay.ConversationText (lit "user") content) in
  RagRouter.receive fromisoformat st sid (turn :: rest)
  = RagRouter.receive fromisoformat st sid [turn]
  /\ RagRouter.played (RagRouter.receive fromisoformat st sid (turn :: rest)).2 = [].
Proof.
  intros Hphone Hstrip Hcontent Hstage Htransfer turn.
  assert (Hstep : RagRouter.on_message fromisoformat st sid turn
                  = (RagRouter.with_rag st
                       (RagService.process_utterance fromisoformat
                          (RagRouter.rag_service st) phone content).1,
                     if RagRouter.spoken
                          (RagService.res_response
                             (RagService.process_utterance fromisoformat
                                (RagRouter.rag_service st) phone content).2)
                     then [RagRouter.InjectAgentMessage
                             (RagService.res_response
                                (RagService.process_utterance fromisoformat
                                   (RagRouter.rag_service st) phone content).2)]
                     else [],
                     false)).
  { unfold turn. cbn [RagRouter.on_message].
    unfold eqb. rewrite bool_decide_eq_true_2 by done.
    rewrite (bool_decide_eq_false_2 _ Hcontent). cbn [andb negb].
    rewrite (on_user_text_known fromisoformat st sid phone content Hphone Hstrip).
    rewrite bool_decide_eq_false_2.
    - by rewrite Htransfer.
    - intros Ht. apply Hstage. unfold RagService.stage_of, RagService.session_of in *.
      destruct (RagService.sessions (RagRouter.rag_service st) !! strip phone);
        cbn in *; [by rewrite Ht|done]. }
  cbn [RagRouter.receive]. rewrite Hstep. split; [done|].
  cbn [snd]. by destruct (RagRouter.spoken _).
Qed.

(** The caller says they are not the borrower; the agent's audio for
    the hand-off message is dropped. *)
Lemma transfer_ends_the_receiver_witness :
  let st := RagRouter.in_progress (Scenario.at_step RagService.ConfirmIdentity) in
  let rest := [Relay.BinaryMessage [Byte.x01]; RagRouter.user_says "hello?"] in
  RagRouter.phone_of st Scenario.stream = Some Scenario.caller
  /\ strip Scenario.caller = Scenario.caller
  /\ strip (lit "no") <> []
  /\ RagService.stage_of (RagRouter.rag_service st) Scenario.caller
     <> Some RagService.Transfer
  /\ RagService.res_transfer
       (RagService.process_utterance RagService.fromisoformat_date
          (RagRouter.rag_service st) Scenario.caller (lit "no")).2 = true
  /\ RagRouter.played
       (RagRouter.receive RagService.fromisoformat_date st Scenario.stream
          (RagRouter.user_says "no" :: rest)).2 = [].
Proof.
  intros st rest.
  assert (H1 : RagRouter.phone_of st Scenario.stream = Some Scenario.caller)
    by (vm_compute; reflexivity).
  assert (H2 : strip Scenario.caller = Scenario.caller) by (vm_compute; reflexivity).
  assert (H3 : strip (lit "no") <> []) by (vm_compute; discriminate).
  assert (H4 : RagService.stage_of (RagRouter.rag_service st) Scenario.caller
               <> Some RagService.Transfer) by (vm_compute; discriminate).
  assert (H5 : RagService.res_transfer
                 (RagService.process_utterance RagService.fromisoformat_date
                    (RagRouter.rag_service st) Scenario.caller (lit "no")).2 = true)
    by (vm_compute; reflexivity).
  split; [exact H1|]. split; [exact H2|]. split; [exact H3|]. split; [exact H4|].
  split; [exact H5|].
  exact (proj2 (transfer_ends_the_receiver RagService.fromisoformat_date st
                  Scenario.stream Scenario.caller (lit "no") rest H1 H2 H3 H4 H5)).
Defined.
